(** * Living Textbook backend: pipeline, stages and session controller

    A shallow embedding of the Python backend (agents/, services/, api/)
    and the properties of its event stream.

    Conventions of the embedding.
    - Values decoded from JSON ([dict[str, Any]] in the source) are the
      type [json]; numbers are integers.  A [dict] is an association list
      in insertion order, looked up by first match.
    - A Python [str] is a [string] whose characters are code points below
      256.
    - An [async] function is a computation in the monad [M]: it yields
      the ordered log of its effects (collaborator calls and
      [send_queue.put]s) and either returns or raises.  [exn] stands for
      instances of [Exception]; cancellation is a matter of the session
      controller ([Module WebSocket]).
    - The collaborators (models, storage, the Live session, the standard
      library's codecs) are the fields of [world]; every theorem holds
      for every world.  Client handles ([_get_client], [_get_bucket]) are
      taken to be constructible. *)

From Stdlib Require Import String Ascii ZArith List Bool Lia Permutation Arith.
From Stdlib Require Import DecimalString.
Import ListNotations.
Local Open Scope string_scope.
Local Open Scope list_scope.

Set Implicit Arguments.
Set Warnings "-register-all".

(* ===================================================================== *)
(** ** Python values *)

Module Py.

Definition bytes := list Byte.byte.

Inductive json : Type :=
| JNull
| JBool (b : bool)
| JInt (n : Z)
| JStr (s : string)
| JList (l : list json)
| JDict (kv : list (string * json)).

Record exn : Type := Exn { exn_type : string; exn_str : string }.

Inductive outcome (A : Type) : Type :=
| Returned (a : A)
| Raised (e : exn).
Arguments Returned {A} a.
Arguments Raised {A} e.

Definition dq : string := String (ascii_of_nat 34) EmptyString.

Definition type_name (v : json) : string :=
  match v with
  | JNull => "NoneType"
  | JBool _ => "bool"
  | JInt _ => "int"
  | JStr _ => "str"
  | JList _ => "list"
  | JDict _ => "dict"
  end.

Definition AttributeError (v : json) (attr : string) : exn :=
  Exn "AttributeError"
      ("'" ++ type_name v ++ "' object has no attribute '" ++ attr ++ "'").

Definition TypeError (msg : string) : exn := Exn "TypeError" msg.

(** [bool(v)] *)
Definition truthy (v : json) : bool :=
  match v with
  | JNull => false
  | JBool b => b
  | JInt n => negb (Z.eqb n 0)
  | JStr s => negb (String.eqb s EmptyString)
  | JList l => match l with [] => false | _ => true end
  | JDict kv => match kv with [] => false | _ => true end
  end.

Fixpoint lookup (k : string) (kv : list (string * json)) : option json :=
  match kv with
  | [] => None
  | (k', v) :: kv' => if String.eqb k k' then Some v else lookup k kv'
  end.

(** [d.get(key, default)] *)
Definition get (d : json) (key : string) (default : json) : outcome json :=
  match d with
  | JDict kv =>
      Returned (match lookup key kv with Some v => v | None => default end)
  | _ => Raised (AttributeError d "get")
  end.

(** [d.get(key)] *)
Definition get1 (d : json) (key : string) : outcome json := get d key JNull.

Fixpoint chars (s : string) : list json :=
  match s with
  | EmptyString => []
  | String c s' => JStr (String c EmptyString) :: chars s'
  end.

(** the items a [for] loop runs over *)
Definition iter (v : json) : outcome (list json) :=
  match v with
  | JList l => Returned l
  | JDict kv => Returned (map (fun p => JStr (fst p)) kv)
  | JStr s => Returned (chars s)
  | _ => Raised (TypeError ("'" ++ type_name v ++ "' object is not iterable"))
  end.

(** [len(v)] *)
Definition len (v : json) : outcome nat :=
  match v with
  | JList l => Returned (List.length l)
  | JDict kv => Returned (List.length kv)
  | JStr s => Returned (String.length s)
  | _ => Raised (TypeError ("object of type '" ++ type_name v ++ "' has no len()"))
  end.

(** [v == s] for a string literal [s] *)
Definition eq_str (v : json) (s : string) : bool :=
  match v with
  | JStr t => String.eqb t s
  | _ => false
  end.

(** *** [str] methods *)

(** [c.isspace()] on code points below 256 *)
Definition isspace (c : ascii) : bool :=
  let n := nat_of_ascii c in
  (((9 <=? n) && (n <=? 13)) || ((28 <=? n) && (n <=? 32))
   || (n =? 133) || (n =? 160))%nat.

Fixpoint lstrip (s : string) : string :=
  match s with
  | EmptyString => EmptyString
  | String c s' => if isspace c then lstrip s' else s
  end.

Fixpoint rstrip (s : string) : string :=
  match s with
  | EmptyString => EmptyString
  | String c s' =>
      match rstrip s' with
      | EmptyString => if isspace c then EmptyString else String c EmptyString
      | r => String c r
      end
  end.

Definition strip (s : string) : string := rstrip (lstrip s).

Definition startswith (s p : string) : bool := String.prefix p s.

(** [s[n:]] *)
Fixpoint slice_from (n : nat) (s : string) : string :=
  match n, s with
  | O, _ => s
  | S n', String _ s' => slice_from n' s'
  | S _, EmptyString => EmptyString
  end.

(** [s[:n]] *)
Fixpoint slice_to (n : nat) (s : string) : string :=
  match n, s with
  | S n', String c s' => String c (slice_to n' s')
  | _, _ => EmptyString
  end.

(** [s.split(sep)] for a non-empty [sep]: [skip] counts the characters of
    a separator just matched that are still to be passed over. *)
Fixpoint split_aux (sep : string) (skip : nat) (s : string)
  : string * list string :=
  match s with
  | EmptyString => (EmptyString, [])
  | String c s' =>
      match skip with
      | S k => split_aux sep k s'
      | O =>
          if String.prefix sep s
          then let (p, ps) := split_aux sep (String.length sep - 1) s' in
               (EmptyString, p :: ps)
          else let (p, ps) := split_aux sep 0 s' in
               (String c p, ps)
      end
  end.

Definition split (s sep : string) : list string :=
  let (p, ps) := split_aux sep 0 s in p :: ps.

(** [str(v)] for the scalars; the [repr] of a container is the
    collaborator [repr] given as argument. *)
Definition str (repr : json -> string) (v : json) : string :=
  match v with
  | JNull => "None"
  | JBool true => "True"
  | JBool false => "False"
  | JInt n => NilZero.string_of_int (Z.to_int n)
  | JStr s => s
  | _ => repr v
  end.

End Py.
Import Py.

(* ===================================================================== *)
(** ** Effects: the log of an [async] function *)

(** Server -> client messages (api/websocket.py, "Message protocol"). *)
Inductive event : Type :=
| status (content : string)
| meta (subject topic : json)
| title (content : json)
| section_start (section_id : json)
| audio (section_id : json) (data : string)
| text (section_id : json) (content : string)
| image_url (section_id : json) (url : string) (caption : json)
| section_end (section_id : json)
| error (content : string)
| done.

Inductive action : Type :=
| Put (e : event)
| GenerateContent (image : option bytes) (prompt : string)
| GenerateImages (prompt : string)
| UploadImageBytes (image_bytes : bytes) (destination_name : string)
| LiveConnect
| SendClientContent (turn : json)
| LiveClose.

Definition M (A : Type) : Type := (list action * outcome A)%type.

Definition ret {A} (a : A) : M A := ([], Returned a).

Definition bind {A B} (m : M A) (f : A -> M B) : M B :=
  match m with
  | (l, Returned a) => let (l', r) := f a in (l ++ l', r)
  | (l, Raised e) => (l, Raised e)
  end.

Definition raise {A} (e : exn) : M A := ([], Raised e).

(** a pure operation that may raise *)
Definition lift {A} (o : outcome A) : M A := ([], o).

(** an awaited collaborator call and its result *)
Definition call {A} (a : action) (o : outcome A) : M A := ([a], o).

(** [await send_queue.put(e)]: the queue is unbounded, [put] never waits *)
Definition put (e : event) : M unit := ([Put e], Returned tt).

(** [try: m  except Exception as exc: h exc] *)
Definition try_except {A} (m : M A) (h : exn -> M A) : M A :=
  match m with
  | (l, Raised e) => let (l', r) := h e in (l ++ l', r)
  | _ => m
  end.

Declare Scope py_scope.
Delimit Scope py_scope with py.
Notation "x <- m ;; k" := (bind m (fun x => k))
  (at level 61, m at next level, right associativity) : py_scope.
Notation "m ;; k" := (bind m (fun _ => k))
  (at level 61, right associativity) : py_scope.
Local Open Scope py_scope.

Definition when (b : bool) (m : M unit) : M unit := if b then m else ret tt.

(** the events a log enqueues, in order *)
Fixpoint puts (l : list action) : list event :=
  match l with
  | [] => []
  | Put e :: l' => e :: puts l'
  | _ :: l' => puts l'
  end.

(* ===================================================================== *)
(** ** Collaborators *)

(** One response unit of [session.receive()]: [data] and [text] are empty
    where the SDK gives [None]; [turn_complete] is
    [server_content and server_content.turn_complete]. *)
Record response : Type := Response {
  r_data : bytes;
  r_text : string;
  turn_complete : bool
}.

(** What the asynchronous iterator [session.receive()] does. *)
Inductive receive : Type :=
| Yield (r : response) (rest : receive)
| StopAsyncIteration
| ReceiveRaises (e : exn).

Record turn : Type := Turn {
  send_client_content : outcome unit;
  session_receive : receive
}.

(** What [json.loads] does with a text: it returns the value decoded,
    raises [json.JSONDecodeError] for a text that is not JSON, or raises
    another exception ([RecursionError] for a text nested too deeply,
    [ValueError] for an integer literal too long to convert), which an
    [except json.JSONDecodeError] clause does not catch. *)
Inductive loaded : Type :=
| Decoded (v : json)
| JSONDecodeError
| LoadsRaises (e : exn).

Record world : Type := World {
  (* standard library *)
  json_loads : string -> loaded;
  b64decode : json -> outcome bytes;
  b64encode : bytes -> string;
  repr : json -> string;
  (* str() of the pydantic.ValidationError raised for a value that is
     not valid for a field *)
  validation_message : json -> string;
  (* client.aio.models.generate_content(...).text *)
  generate_content : option bytes -> string -> outcome (option string);
  (* client.aio.models.generate_images(...).generated_images, by the
     position of the section that asks; an image without bytes is empty *)
  generate_images : nat -> string -> outcome (list bytes);
  (* services/storage.py upload_image_bytes, by the same position *)
  upload_image_bytes : nat -> bytes -> string -> outcome string;
  (* client.aio.live.connect(...): entering and leaving the context, and
     the turn the session gives after the texts submitted so far *)
  live_connect : outcome unit;
  live_turn : list json -> turn;
  live_close : outcome unit;
  (* the order in which the event loop resumes concurrent tasks *)
  schedule_images : list nat;
  schedule_pipeline : list nat
}.

(* ===================================================================== *)
(** ** services/gemini_live.py *)

Module GeminiLive.

(** the body of [async for response in session.receive()] *)
Fixpoint receive_loop (w : world) (section_id : json) (rs : receive)
  : M unit :=
  match rs with
  | StopAsyncIteration => ret tt
  | ReceiveRaises e => raise e
  | Yield r rest =>
      when (negb (match r_data r with [] => true | _ => false end))
           (put (audio section_id (b64encode w (r_data r)))) ;;
      when (negb (String.eqb (r_text r) EmptyString))
           (put (text section_id (r_text r))) ;;
      if turn_complete r then ret tt
      else receive_loop w section_id rest
  end.

(** [genai_types.Part.from_text(text=text)]: the part is a pydantic
    model whose field [text] is an [Optional[str]].  A string and [None]
    are valid; any other value raises [ValidationError]. *)
Definition Part_from_text (w : world) (txt : json) : outcome json :=
  match txt with
  | JStr _ | JNull => Returned txt
  | _ => Raised (Exn "ValidationError" (validation_message w txt))
  end.

(** [sent] is what the session has been sent before this turn.  The
    part is built before [send_client_content] is called: a text that is
    not valid raises with nothing sent. *)
Definition _narrate_text (w : world) (sent : list json)
    (txt : json) (section_id : json) : M unit :=
  part <- lift (Part_from_text w txt) ;;
  let t := live_turn w (sent ++ [part]) in
  call (SendClientContent part) (send_client_content t) ;;
  receive_loop w section_id (session_receive t).

(** [for section in sections: ...]; returns what the session was sent. *)
Fixpoint narrate_sections (w : world) (sent : list json)
    (sections : list json) : M (list json) :=
  match sections with
  | [] => ret sent
  | section :: rest =>
      section_id <- lift (get section "id" (JInt 0)) ;;
      narration <- lift (get section "narration" (JStr EmptyString)) ;;
      put (section_start section_id) ;;
      _narrate_text w sent narration section_id ;;
      put (section_end section_id) ;;
      narrate_sections w (sent ++ [narration]) rest
  end.

(** [async with client.aio.live.connect(...) as session: body]: the
    context is left on every path; an exception of the exit replaces the
    body's. *)
Definition with_session {A} (w : world) (body : M A) : M A :=
  call LiveConnect (live_connect w) ;;
  match body with
  | (l, r) =>
      (l ++ [LiveClose],
       match live_close w with
       | Returned _ => r
       | Raised e => Raised e
       end)
  end.

Definition narrate_script (w : world) (script : json) : M unit :=
  sections <- lift (get script "sections" (JList [])) ;;
  intro <- lift (get script "intro" (JStr EmptyString)) ;;
  outro <- lift (get script "outro" (JStr EmptyString)) ;;
  try_except
    (with_session w
       (sent <- (if truthy intro
                 then _narrate_text w [] intro (JInt 0) ;; ret [intro]
                 else ret []) ;;
        items <- lift (iter sections) ;;
        sent' <- narrate_sections w sent items ;;
        when (truthy outro) (_narrate_text w sent' outro (JInt (-1)))))
    (fun exc => put (error ("Narration error: " ++ exn_str exc))).

End GeminiLive.

(* ===================================================================== *)
(** ** Concurrent tasks: [asyncio.gather] *)

(** Takes the next action of the [n]-th task, if it has one. *)
Fixpoint pick {A} (n : nat) (ls : list (list A)) {struct ls}
  : option (A * list (list A)) :=
  match ls with
  | [] => None
  | l :: ls' =>
      match n with
      | O => match l with
             | [] => None
             | x :: l' => Some (x, l' :: ls')
             end
      | S n' => match pick n' ls' with
                | Some (x, ls'') => Some (x, l :: ls'')
                | None => None
                end
      end
  end.

(** The tasks' logs merged in the order the event loop resumes them:
    [sched] names the task that runs next; when it is exhausted the tasks
    run to their ends one after the other. *)
Fixpoint interleave {A} (sched : list nat) (ls : list (list A)) : list A :=
  match sched with
  | [] => concat ls
  | n :: sched' =>
      match pick n ls with
      | Some (x, ls') => x :: interleave sched' ls'
      | None => interleave sched' ls
      end
  end.

(** [await asyncio.gather] with [return_exceptions=True]: every task
    runs to its end, whatever the others do; the results are dropped. *)
Definition gather_settled {A} (sched : list nat) (tasks : list (M A)) : M unit :=
  (interleave sched (map fst tasks), Returned tt).

Inductive step : Type :=
| Act (a : action)
| Stop (o : outcome unit).

Definition steps (m : M unit) : list step := map Act (fst m) ++ [Stop (snd m)].

(** What the awaiting coroutine sees: everything, or the log up to the
    first task that raises. *)
Fixpoint join (l : list step) : M unit :=
  match l with
  | [] => ret tt
  | Act a :: l' => let (la, r) := join l' in (a :: la, r)
  | Stop (Returned _) :: l' => join l'
  | Stop (Raised e) :: _ => raise e
  end.

(** [await asyncio.gather] of the tasks, exceptions propagated *)
Definition gather (sched : list nat) (tasks : list (M unit)) : M unit :=
  join (interleave sched (map steps tasks)).

(* ===================================================================== *)
(** ** services/imagen.py *)

Module Imagen.

Definition STYLE_PREFIX : string :=
  "Educational illustration, clean white background, vibrant colors, "
  ++ "clearly labeled, suitable for a student textbook, high detail: ".

(** [STYLE_PREFIX + prompt] *)
Definition concat_str (s : string) (v : json) : outcome string :=
  match v with
  | JStr p => Returned (s ++ p)%string
  | _ => Raised (TypeError ("can only concatenate str (not " ++ dq
                            ++ type_name v ++ dq ++ ") to str"))
  end.

(** [i] is the position of the section the image is for. *)
Definition generate_image (w : world) (i : nat) (prompt : json)
  : M (option bytes) :=
  full_prompt <- lift (concat_str STYLE_PREFIX prompt) ;;
  try_except
    (generated_images <-
       call (GenerateImages full_prompt) (generate_images w i full_prompt) ;;
     match generated_images with
     | [] => ret None
     | image :: _ => ret (Some image)
     end)
    (fun _ => ret None).

End Imagen.

(* ===================================================================== *)
(** ** agents/visual_agent.py *)

Module VisualAgent.

(** [v[:n]] *)
Definition slice (v : json) (n : nat) : outcome json :=
  match v with
  | JStr s => Returned (JStr (slice_to n s))
  | JList l => Returned (JList (firstn n l))
  | _ => Raised (TypeError ("'" ++ type_name v ++ "' object is not subscriptable"))
  end.

Definition destination_name (w : world) (section_id : json) : string :=
  "section_" ++ str (repr w) section_id ++ ".png".

Definition generate_section_image (w : world) (i : nat) (section : json)
  : M (option string) :=
  section_id <- lift (get section "id" (JInt 0)) ;;
  image_prompt <- lift (get section "image_prompt" (JStr "educational diagram")) ;;
  try_except
    (image_bytes <- Imagen.generate_image w i image_prompt ;;
     match image_bytes with
     | None | Some [] => ret None
     | Some b =>
         let name := destination_name w section_id in
         url <- call (UploadImageBytes b name) (upload_image_bytes w i b name) ;;
         caption <- lift (slice image_prompt 80) ;;
         put (image_url section_id url caption) ;;
         ret (Some url)
     end)
    (fun _ => ret None).

(** [[generate_section_image(section, send_queue) for section in sections]] *)
Fixpoint tasks (w : world) (i : nat) (sections : list json)
  : list (M (option string)) :=
  match sections with
  | [] => []
  | section :: rest => generate_section_image w i section :: tasks w (S i) rest
  end.

Definition generate_all_images (w : world) (script : json) : M unit :=
  sections <- lift (get script "sections" (JList [])) ;;
  if negb (truthy sections) then ret tt
  else
    items <- lift (iter sections) ;;
    gather_settled (schedule_images w) (tasks w 0 items).

End VisualAgent.

(* ===================================================================== *)
(** ** Prompt templates and the clean-up of a model's reply *)

Definition quoted (s : string) : string := dq ++ s ++ dq.

Definition newline : string := String (ascii_of_nat 10) EmptyString.

(** the lines of a triple-quoted literal *)
Fixpoint lines (l : list string) : string :=
  match l with
  | [] => EmptyString
  | [s] => s
  | s :: l' => s ++ newline ++ lines l'
  end.

Definition fence : string := "```".

(** The block both agents run on [response.text]:
<<
    raw = response.text.strip()
    if raw.startswith(fence):
        raw = raw.split(fence)[1]
        if raw.startswith("json"):
            raw = raw[4:]
    raw = raw.strip()
>> *)
Definition strip_fences (response_text : string) : string :=
  let raw := strip response_text in
  let raw :=
    if startswith raw fence then
      let raw := nth 1 (split raw fence) EmptyString in
      if startswith raw "json" then slice_from 4 raw else raw
    else raw in
  strip raw.

(** [response.text] is [None] when the reply holds no text part *)
Definition response_raw (response_text : option string) : outcome string :=
  match response_text with
  | Some t => Returned (strip_fences t)
  | None => Raised (AttributeError JNull "strip")
  end.

(* ===================================================================== *)
(** ** agents/vision_agent.py *)

Module VisionAgent.

Definition VISION_PROMPT (question : string) : string :=
  lines [
    "You are an expert educational analyst.";
    "The user has captured a photo (likely of a textbook page, diagram, or homework problem)";
    "and asked: " ++ quoted question;
    EmptyString;
    "Analyze the image carefully and respond ONLY with a JSON object (no markdown, no extra text):";
    "{";
    "  " ++ quoted "subject" ++ ": "
      ++ quoted "<main academic subject, e.g. Biology, Physics, Mathematics>" ++ ",";
    "  " ++ quoted "topic" ++ ": "
      ++ quoted "<specific topic visible in the image, e.g. photosynthesis, quadratic equations>" ++ ",";
    "  " ++ quoted "context" ++ ": "
      ++ quoted "<brief description of what is shown in the image, 2-3 sentences>" ++ ",";
    "  " ++ quoted "question" ++ ": "
      ++ quoted "<restate the user's question clearly>";
    "}"
  ]%string.

(** the record built when the reply is not JSON *)
Definition degraded (raw question : string) : json :=
  JDict [ ("subject", JStr "General");
          ("topic", JStr "Unknown");
          ("context", JStr raw);
          ("question", JStr question) ].

Definition analyze_photo (w : world) (photo_b64 : json) (question : string)
  : M json :=
  image_bytes <- lift (b64decode w photo_b64) ;;
  let prompt := VISION_PROMPT question in
  response_text <-
    call (GenerateContent (Some image_bytes) prompt)
         (generate_content w (Some image_bytes) prompt) ;;
  raw <- lift (response_raw response_text) ;;
  result <- match json_loads w raw with
            | Decoded v => ret v
            | JSONDecodeError => ret (degraded raw question)
            | LoadsRaises e => raise e
            end ;;
  (* logger.info(..., result.get("subject"), result.get("topic")) *)
  lift (get1 result "subject") ;;
  lift (get1 result "topic") ;;
  ret result.

End VisionAgent.

(* ===================================================================== *)
(** ** agents/script_agent.py *)

Module ScriptAgent.

Definition SCRIPT_PROMPT (subject topic context question : string) : string :=
  lines [
    "You are an expert educator creating a vivid, narrated explainer for a student.";
    EmptyString;
    "Subject: " ++ subject;
    "Topic: " ++ topic;
    "Image Context: " ++ context;
    "Student's Question: " ++ question;
    EmptyString;
    "Create a clear, engaging explainer broken into 3-5 sections. Each section must have:";
    "- narration: 2-4 spoken sentences that explain one key concept clearly (age-appropriate, enthusiastic)";
    "- image_prompt: a detailed prompt for an AI image generator to create a clear educational diagram/illustration for that concept";
    EmptyString;
    "Respond ONLY with a JSON object (no markdown, no extra text):";
    "{";
    "  " ++ quoted "title" ++ ": " ++ quoted "<catchy title for this explainer>" ++ ",";
    "  " ++ quoted "intro" ++ ": "
      ++ quoted "<one sentence welcome/intro the narrator will say first>" ++ ",";
    "  " ++ quoted "sections" ++ ": [";
    "    {";
    "      " ++ quoted "id" ++ ": 1,";
    "      " ++ quoted "narration" ++ ": " ++ quoted "<spoken text for this section>" ++ ",";
    "      " ++ quoted "image_prompt" ++ ": "
      ++ quoted "<detailed Imagen prompt: style=educational diagram, clean white background, labeled, colorful>";
    "    }";
    "  ],";
    "  " ++ quoted "outro" ++ ": " ++ quoted "<one sentence closing the explainer>";
    "}"
  ]%string.

(** the script built when the reply is not JSON *)
Definition fallback (w : world) (vision_result : json) : outcome json :=
  match get vision_result "topic" (JStr "Explainer"),
        get vision_result "context" (JStr "Let me walk you through this."),
        get vision_result "topic" (JStr "the topic") with
  | Returned topic, Returned context, Returned topic' =>
      Returned
        (JDict [ ("title", topic);
                 ("intro", JStr "Let me explain this for you.");
                 ("sections",
                  JList [ JDict [ ("id", JInt 1);
                                  ("narration", context);
                                  ("image_prompt",
                                   JStr ("Educational diagram about "
                                         ++ str (repr w) topic'
                                         ++ ", clean white background, colorful, labeled")) ] ]);
                 ("outro", JStr "I hope that helps!") ])
  | Raised e, _, _ | _, Raised e, _ | _, _, Raised e => Raised e
  end.

Definition generate_script (w : world) (vision_result : json) : M json :=
  subject <- lift (get vision_result "subject" (JStr "General")) ;;
  topic <- lift (get vision_result "topic" (JStr "the topic")) ;;
  context <- lift (get vision_result "context" (JStr EmptyString)) ;;
  question <- lift (get vision_result "question" (JStr EmptyString)) ;;
  let prompt := SCRIPT_PROMPT (str (repr w) subject) (str (repr w) topic)
                              (str (repr w) context) (str (repr w) question) in
  response_text <-
    call (GenerateContent None prompt) (generate_content w None prompt) ;;
  raw <- lift (response_raw response_text) ;;
  script <- match json_loads w raw with
            | Decoded v => ret v
            | JSONDecodeError => lift (fallback w vision_result)
            | LoadsRaises e => raise e
            end ;;
  (* logger.info(..., script.get("title"), len(script.get("sections", []))) *)
  lift (get1 script "title") ;;
  sections <- lift (get script "sections" (JList [])) ;;
  lift (len sections) ;;
  ret script.

End ScriptAgent.

(* ===================================================================== *)
(** ** agents/coordinator.py *)

Module Coordinator.

(** the body of the [try] *)
Definition pipeline (w : world) (photo_b64 : json) (question : string)
  : M unit :=
  put (status "Analyzing your image...") ;;
  vision_result <- VisionAgent.analyze_photo w photo_b64 question ;;
  subject <- lift (get1 vision_result "subject") ;;
  topic <- lift (get1 vision_result "topic") ;;
  put (meta subject topic) ;;
  put (status "Preparing your explainer...") ;;
  script <- ScriptAgent.generate_script w vision_result ;;
  script_title <- lift (get script "title" (JStr "Your Explainer")) ;;
  put (title script_title) ;;
  gather (schedule_pipeline w)
         [ VisualAgent.generate_all_images w script;
           GeminiLive.narrate_script w script ] ;;
  put done.

Definition run_pipeline (w : world) (photo_b64 : json) (question : string)
  : M unit :=
  try_except
    (pipeline w photo_b64 question)
    (fun exc =>
       put (error ("Something went wrong: " ++ exn_str exc)) ;;
       put done).

End Coordinator.

(* ===================================================================== *)
(** ** api/websocket.py *)

Module WebSocket.

(** A pipeline task: the job it runs and whether [task.done()] holds. *)
Record task : Type := Task {
  job_photo : json;
  job_question : string;
  task_done : bool
}.

(** [session] and [send_queue]; [None] in the queue is the sentinel that
    ends the sender. *)
Record state : Type := State {
  photo_b64 : json;
  pipeline_task : option task;
  send_queue : list (option event)
}.

Definition initial : state := State JNull None [].

(** What the handler does to its queue and tasks, in order. *)
Inductive op : Type :=
| QueuePut (item : option event)
| QueueGetNowait (item : option event)
| TaskCancel (t : task)
| TaskAwait (t : task)
| CreateTask (t : task).

Inductive flow : Type :=
| Continue
| Break
| Raises (e : exn).

Definition handled : Type := (list op * state * flow)%type.

Definition queue_put (s : state) (item : option event) : list op * state :=
  ([QueuePut item],
   State (photo_b64 s) (pipeline_task s) (send_queue s ++ [item])).

(** [unwinding t] is what the job of [t] still enqueues between
    [task.cancel()] and the end of the task. *)
Definition cancel_pipeline (unwinding : task -> list event) (s : state)
  : list op * state :=
  match pipeline_task s with
  | Some t =>
      if negb (task_done t) then
        ([TaskCancel t; TaskAwait t],
         State (photo_b64 s)
               (Some (Task (job_photo t) (job_question t) true))
               (send_queue s ++ map Some (unwinding t)))
      else ([], s)
  | None => ([], s)
  end.

(** [while not send_queue.empty(): send_queue.get_nowait()] *)
Definition reset_queue (s : state) : list op * state :=
  (map QueueGetNowait (send_queue s),
   State (photo_b64 s) (pipeline_task s) []).

Definition on_photo (s : state) (msg : json) : handled :=
  match get msg "data" (JStr EmptyString) with
  | Raised e => ([], s, Raises e)
  | Returned data =>
      if negb (truthy data) then
        let (ops, s') := queue_put s (Some (error "Empty photo data.")) in
        (ops, s', Continue)
      else
        let s1 := State data (pipeline_task s) (send_queue s) in
        (* logger.info("Photo received (%d chars)", len(data)) *)
        match len data with
        | Raised e => ([], s1, Raises e)
        | Returned _ =>
            let (ops, s') :=
              queue_put s1 (Some (status "Photo received. Ask your question!")) in
            (ops, s', Continue)
        end
  end.

Definition on_question (unwinding : task -> list event) (s : state)
    (msg : json) : handled :=
  match get msg "text" (JStr EmptyString) with
  | Raised e => ([], s, Raises e)
  | Returned (JStr txt) =>
      let question := strip txt in
      if String.eqb question EmptyString then
        let (ops, s') := queue_put s (Some (error "Question text is empty.")) in
        (ops, s', Continue)
      else if negb (truthy (photo_b64 s)) then
        let (ops, s') := queue_put s (Some (error "Please capture a photo first.")) in
        (ops, s', Continue)
      else
        let (ops1, s1) := cancel_pipeline unwinding s in
        let (ops2, s2) := reset_queue s1 in
        let t := Task (photo_b64 s2) question false in
        (ops1 ++ ops2 ++ [CreateTask t],
         State (photo_b64 s2) (Some t) (send_queue s2),
         Continue)
  | Returned v => ([], s, Raises (AttributeError v "strip"))
  end.

Definition on_stop (unwinding : task -> list event) (s : state) : handled :=
  let (ops1, s1) := cancel_pipeline unwinding s in
  let (ops2, s2) := queue_put s1 (Some done) in
  let (ops3, s3) := queue_put s2 None in
  (ops1 ++ ops2 ++ ops3, s3, Break).

(** One round of the receive loop on the text frame [raw]; [loads] is
    [json.loads].  A frame that is not JSON is skipped; another
    exception of [json.loads] leaves the loop. *)
Definition receive_text (loads : string -> loaded)
    (unwinding : task -> list event) (s : state) (raw : string) : handled :=
  match loads raw with
  | JSONDecodeError => ([], s, Continue)
  | LoadsRaises e => ([], s, Raises e)
  | Decoded msg =>
      match get1 msg "type" with
      | Raised e => ([], s, Raises e)
      | Returned msg_type =>
          if eq_str msg_type "photo" then on_photo s msg
          else if eq_str msg_type "question" then on_question unwinding s msg
          else if eq_str msg_type "stop" then on_stop unwinding s
          else ([], s, Continue)
      end
  end.

End WebSocket.

(* ===================================================================== *)
(** ** services/storage.py *)

Module Storage.

(** The name of the blob: [hex] is [uuid.uuid4().hex]. *)
Definition blob_name (hex : string) (destination_name : option string) : string :=
  match destination_name with
  | None => "images/" ++ hex ++ ".png"
  | Some name => "images/" ++ hex ++ "_" ++ name
  end.

(** The bucket: [blob.upload_from_string] and [blob.generate_signed_url]
    by blob name. *)
Record bucket : Type := Bucket {
  upload_from_string : string -> bytes -> string -> outcome unit;
  generate_signed_url : string -> outcome string
}.

Definition upload_image_bytes (b : bucket) (hex : string)
    (image_bytes : bytes) (destination_name : option string)
    (content_type : string) : outcome string :=
  let name := blob_name hex destination_name in
  match upload_from_string b name image_bytes content_type with
  | Raised e => Raised e
  | Returned _ => generate_signed_url b name
  end.

End Storage.

(* ===================================================================== *)
(** ** api/websocket.py: the sender, the receive loop and its teardown *)

Module Endpoint.

Import WebSocket.

(** [sender()]: the frames it sends for what is, and comes to be, in the
    queue.  [dumps] is [json.dumps] of a message, [send_text] the
    outcome of [websocket.send_text]. *)
Fixpoint sender (dumps : event -> string) (send_text : string -> outcome unit)
    (queue : list (option event)) : list string :=
  match queue with
  | [] => []
  | None :: _ => []
  | Some msg :: rest =>
      match send_text (dumps msg) with
      | Returned _ => dumps msg :: sender dumps send_text rest
      | Raised _ => []
      end
  end.

(** What happened while the handler was waiting in
    [websocket.receive_text()]: the running job may have finished, and
    the job and the sender have left the queue as [queue_now]. *)
Record meanwhile : Type := Meanwhile {
  job_finished : bool;
  queue_now : list (option event)
}.

Definition elapse (m : meanwhile) (s : state) : state :=
  State (photo_b64 s)
        (match pipeline_task s with
         | Some t => Some (Task (job_photo t) (job_question t)
                             (task_done t || job_finished m))
         | None => None
         end)
        (queue_now m).

Inductive ending : Type :=
| Disconnected
| Stopped
| Failed (e : exn).

(** [while True: raw = await websocket.receive_text(); ...]: the frames
    the client sends, then the disconnect. *)
Fixpoint serve (loads : string -> loaded) (unwinding : task -> list event)
    (s : state) (frames : list (meanwhile * string)) : list op * state * ending :=
  match frames with
  | [] => ([], s, Disconnected)
  | (m, raw) :: rest =>
      match receive_text loads unwinding (elapse m s) raw with
      | (ops, s', Continue) =>
          match serve loads unwinding s' rest with
          | (ops', s'', e) => (ops ++ ops', s'', e)
          end
      | (ops, s', Break) => (ops, s', Stopped)
      | (ops, s', Raises e) => (ops, s', Failed e)
      end
  end.

(** The [finally] block up to the wait for the sender:
    [await cancel_pipeline(); await send_queue.put(None)]. *)
Definition teardown (unwinding : task -> list event) (s : state)
  : list op * state :=
  let (ops1, s1) := cancel_pipeline unwinding s in
  let (ops2, s2) := queue_put s1 None in
  (ops1 ++ ops2, s2).

(** [websocket_endpoint] from the first frame to the end of [finally],
    the wait for the sender left out.  A failure of the loop is sent to
    the client directly, not through the queue; [last] is what happened
    while the handler waited for the frame that did not come, or sent
    that error.  The result is the operations, the final state, how the
    loop ended and the error sent directly, if any. *)
Definition websocket_endpoint (loads : string -> loaded)
    (unwinding : task -> list event) (frames : list (meanwhile * string))
    (last : meanwhile) : list op * state * ending * option event :=
  match serve loads unwinding initial frames with
  | (ops, s, Stopped) =>
      let (ops', s') := teardown unwinding s in
      (ops ++ ops', s', Stopped, None)
  | (ops, s, Disconnected) =>
      let (ops', s') := teardown unwinding (elapse last s) in
      (ops ++ ops', s', Disconnected, None)
  | (ops, s, Failed e) =>
      let (ops', s') := teardown unwinding (elapse last s) in
      (ops ++ ops', s', Failed e, Some (error (exn_str e)))
  end.

End Endpoint.

(* ===================================================================== *)
(** ** Vocabulary of the properties *)

Definition is_dict (v : json) : Prop :=
  match v with JDict _ => True | _ => False end.

(** [d.get(key, default)] of a value known to be a dict *)
Definition get_or (d : json) (key : string) (default : json) : json :=
  match get d key default with
  | Returned v => v
  | Raised _ => default
  end.

(** [d.get(key)] *)
Definition field (d : json) (key : string) : json := get_or d key JNull.

(** what the stages read in a section *)
Definition section_id_of (section : json) : json :=
  get_or section "id" (JInt 0).

Definition narration_of (section : json) : json :=
  get_or section "narration" (JStr EmptyString).

Definition image_prompt_of (section : json) : json :=
  get_or section "image_prompt" (JStr "educational diagram").

(** what the stages read in a script *)
Definition intro_of (script : json) : json :=
  get_or script "intro" (JStr EmptyString).

Definition outro_of (script : json) : json :=
  get_or script "outro" (JStr EmptyString).

Definition title_of (script : json) : json :=
  get_or script "title" (JStr "Your Explainer").

(** *** Events *)

(** an [audio] or [text] event carrying [section_id] *)
Definition chunk (section_id : json) (e : event) : Prop :=
  (exists data, e = audio section_id data)
  \/ (exists content, e = text section_id content).

(** the section id an event carries *)
Definition tag (e : event) : option json :=
  match e with
  | section_start i | section_end i => Some i
  | audio i _ | text i _ => Some i
  | image_url i _ _ => Some i
  | _ => None
  end.

Definition tagged (section_id : json) (e : event) : Prop :=
  tag e = Some section_id.

Definition is_marker (e : event) : bool :=
  match e with
  | section_start _ | section_end _ => true
  | _ => false
  end.

Definition is_meta (e : event) : bool :=
  match e with meta _ _ => true | _ => false end.

Definition is_error (e : event) : bool :=
  match e with error _ => true | _ => false end.

Definition is_done (e : event) : bool :=
  match e with done => true | _ => false end.

Definition count (p : event -> bool) (l : list event) : nat :=
  List.length (filter p l).

(** the events of the Media and Narration stages *)
Definition narration_event (e : event) : Prop :=
  match e with
  | section_start _ | section_end _ | audio _ _ | text _ _ | error _ => True
  | _ => False
  end.

Definition image_event (e : event) : Prop :=
  match e with image_url _ _ _ => True | _ => False end.

Definition stage_event (e : event) : Prop :=
  match e with
  | section_start _ | section_end _ | audio _ _ | text _ _
  | image_url _ _ _ | error _ => True
  | _ => False
  end.

Definition nothing (e : event) : Prop := False.

(** every event the computation enqueues satisfies [P] *)
Definition emits {A} (P : event -> Prop) (m : M A) : Prop :=
  Forall P (puts (fst m)).

(** *** Narration *)

(** The log of one utterance: the text goes to the session, the chunks
    that come back go to the queue. *)
Definition spoken (txt : json) (chunks : list event) : list action :=
  SendClientContent txt :: map Put chunks.

(** The log of the intro or the outro, spoken only when truthy. *)
Definition aside (txt : json) (chunks : list event) : list action :=
  if truthy txt then spoken txt chunks else [].

(** The log of one narrated section. *)
Definition block (sb : json * list event) : list action :=
  let (section, chunks) := sb in
  Put (section_start (section_id_of section))
  :: spoken (narration_of section) chunks
  ++ [Put (section_end (section_id_of section))].

Definition markers (section : json) : list event :=
  [section_start (section_id_of section); section_end (section_id_of section)].

(** the [section_start] and [section_end] events of a log, in order *)
Definition marks (l : list action) : list event := filter is_marker (puts l).

(** a JSON string, as the texts of a Script are *)
Definition is_text (v : json) : Prop :=
  match v with JStr _ => True | _ => False end.

(** the texts [narrate_script] has to submit for a script: the intro and
    the outro if truthy, the narration of every section *)
Definition utterances (script : json) (sections : list json) : list json :=
  (if truthy (intro_of script) then [intro_of script] else [])
  ++ map narration_of sections
  ++ (if truthy (outro_of script) then [outro_of script] else []).

(** the events of one response unit under [section_id]: its audio, if
    it has data, then its transcript, if it has text *)
Definition unit_events (w : world) (section_id : json) (r : response)
  : list event :=
  match r_data r with
  | [] => []
  | _ :: _ => [audio section_id (b64encode w (r_data r))]
  end
  ++ (if String.eqb (r_text r) EmptyString then []
      else [text section_id (r_text r)]).

(** the units a turn yields, up to the first that completes it *)
Fixpoint units (rs : receive) : list response :=
  match rs with
  | Yield r rest => r :: (if turn_complete r then [] else units rest)
  | StopAsyncIteration => []
  | ReceiveRaises _ => []
  end.

(** the chunks of the turn in which [txt] is submitted under
    [section_id], the session having been sent [sent] before *)
Definition heard (w : world) (sent : list json) (txt section_id : json)
  : list event :=
  flat_map (unit_events w section_id)
           (units (session_receive (live_turn w (sent ++ [txt])))).

(** the chunks of each section, narrated in document order after [sent] *)
Fixpoint hearings (w : world) (sent : list json) (sections : list json)
  : list (list event) :=
  match sections with
  | [] => []
  | section :: rest =>
      heard w sent (narration_of section) (section_id_of section)
      :: hearings w (sent ++ [narration_of section]) rest
  end.

(** The iterator reaches a unit with [turn_complete], or its end, without
    raising. *)
Fixpoint completes (rs : receive) : bool :=
  match rs with
  | Yield r rest => if turn_complete r then true else completes rest
  | StopAsyncIteration => true
  | ReceiveRaises _ => false
  end.

Definition turn_ok (t : turn) : Prop :=
  send_client_content t = Returned tt /\ completes (session_receive t) = true.

(** The Live session opens, answers every turn and closes. *)
Definition session_ok (w : world) : Prop :=
  live_connect w = Returned tt
  /\ (forall sent, turn_ok (live_turn w sent))
  /\ live_close w = Returned tt.

(** *** Media *)

(** The image result of the section at position [i] is failed or empty:
    [generate_image] raises, or returns [None] or no bytes. *)
Definition no_image (w : world) (i : nat) (section : json) : Prop :=
  match snd (Imagen.generate_image w i (image_prompt_of section)) with
  | Returned (Some (_ :: _)) => False
  | _ => True
  end.

(** *** Scripting *)

(** the prompt Scripting sends for a record of Analysis *)
Definition script_prompt_of (w : world) (vision_result : json) : string :=
  ScriptAgent.SCRIPT_PROMPT
    (str (repr w) (get_or vision_result "subject" (JStr "General")))
    (str (repr w) (get_or vision_result "topic" (JStr "the topic")))
    (str (repr w) (get_or vision_result "context" (JStr EmptyString)))
    (str (repr w) (get_or vision_result "question" (JStr EmptyString))).

(** the one section of the fallback script *)
Definition fallback_section (w : world) (vision_result : json) : json :=
  JDict [ ("id", JInt 1);
          ("narration",
           get_or vision_result "context" (JStr "Let me walk you through this."));
          ("image_prompt",
           JStr ("Educational diagram about "
                 ++ str (repr w) (get_or vision_result "topic" (JStr "the topic"))
                 ++ ", clean white background, colorful, labeled")) ].

(** the fallback script *)
Definition fallback_script (w : world) (vision_result : json) : json :=
  JDict [ ("title", get_or vision_result "topic" (JStr "Explainer"));
          ("intro", JStr "Let me explain this for you.");
          ("sections", JList [fallback_section w vision_result]);
          ("outro", JStr "I hope that helps!") ].

(** *** The orchestrator *)

(** The events of a run of the body of [run_pipeline] and its outcome:
    it stops in Analysis, stops in Scripting, or reaches the end. *)
Inductive run_shape (w : world) (photo_b64 : json) (question : string)
  : list event -> outcome unit -> Prop :=
| AnalysisFails (e : exn) :
    snd (VisionAgent.analyze_photo w photo_b64 question) = Raised e ->
    run_shape w photo_b64 question
      [status "Analyzing your image..."]
      (Raised e)
| ScriptingFails (vision_result : json) (e : exn) :
    snd (VisionAgent.analyze_photo w photo_b64 question) = Returned vision_result ->
    snd (ScriptAgent.generate_script w vision_result) = Raised e ->
    run_shape w photo_b64 question
      [status "Analyzing your image...";
       meta (field vision_result "subject") (field vision_result "topic");
       status "Preparing your explainer..."]
      (Raised e)
| Generates (vision_result script : json) (stage : list event) :
    snd (VisionAgent.analyze_photo w photo_b64 question) = Returned vision_result ->
    snd (ScriptAgent.generate_script w vision_result) = Returned script ->
    Forall stage_event stage ->
    run_shape w photo_b64 question
      ([status "Analyzing your image...";
        meta (field vision_result "subject") (field vision_result "topic");
        status "Preparing your explainer...";
        title (title_of script)]
       ++ stage ++ [done])
      (Returned tt).

(** *** The session controller *)

(** the job the controller has to cancel *)
Definition active_job (s : WebSocket.state) : option WebSocket.task :=
  match WebSocket.pipeline_task s with
  | Some t => if WebSocket.task_done t then None else Some t
  | None => None
  end.

(* ===================================================================== *)
(** ** Worlds and data to run the model on

    The codecs of these worlds are stand-ins: [b64encode] spells the
    bytes out, [repr] is a fixed text, storage answers with a URL made
    of the destination name.  Their decoders know the one text they are
    given, as [json.loads] decodes it. *)

Definition byte_string (s : string) : bytes := list_byte_of_string s.

(** One unit with audio and transcript, then the end of the turn. *)
Definition turn_of_two_units : turn :=
  Turn (Returned tt)
       (Yield (Response (byte_string "pcm") "hello" false)
          (Yield (Response [] EmptyString true) StopAsyncIteration)).

Definition a_world
    (loads : string -> loaded)
    (decode : json -> outcome bytes)
    (content : option bytes -> string -> outcome (option string))
    (images : nat -> string -> outcome (list bytes))
    (turns : list json -> turn)
    (order : list nat) : world := {|
  json_loads := loads;
  b64decode := decode;
  b64encode := string_of_list_byte;
  repr := fun _ => "<repr>";
  validation_message := fun _ => "1 validation error for Part";
  generate_content := content;
  generate_images := images;
  upload_image_bytes := fun _ _ name => Returned ("https://storage/" ++ name)%string;
  live_connect := Returned tt;
  live_turn := turns;
  live_close := Returned tt;
  schedule_images := order;
  schedule_pipeline := []
|}.

Definition no_json (s : string) : loaded := JSONDecodeError.

Definition the_text (reply : string) (decoded : json) (s : string) : loaded :=
  if String.eqb s reply then Decoded decoded else JSONDecodeError.

Definition jpeg_of (photo_b64 : json) : outcome bytes :=
  Returned (byte_string "jpeg").

Definition reply_with (reply : string) (image : option bytes) (prompt : string)
  : outcome (option string) :=
  Returned (Some reply).

Definition one_png (i : nat) (prompt : string) : outcome (list bytes) :=
  Returned [byte_string "png"].

(** every collaborator answers; the models answer in prose *)
Definition quiet_world : world :=
  a_world no_json jpeg_of (reply_with "not json") one_png
          (fun _ => turn_of_two_units) [].

(** the photo cannot be decoded *)
Definition world_of_bad_photo : world :=
  a_world no_json
          (fun _ => Raised (Exn "binascii.Error" "Incorrect padding"))
          (reply_with "not json") one_png (fun _ => turn_of_two_units) [].


(** a text of [n] opening brackets *)
Fixpoint brackets (n : nat) : string :=
  match n with
  | O => EmptyString
  | S n' => String "[" (brackets n')
  end.

Definition RecursionError : exn :=
  Exn "RecursionError"
      "maximum recursion depth exceeded while decoding a JSON array from a unicode string".




(** the models answer [reply], which is the JSON text of [decoded] *)
Definition world_of_reply (reply : string) (decoded : json) : world :=
  a_world (the_text reply decoded) jpeg_of (reply_with reply) one_png
          (fun _ => turn_of_two_units) [].



(** image generation fails for the section at position 1; the third
    section's image is ready before the first's *)
Definition world_failing_second_image : world :=
  a_world no_json jpeg_of (reply_with "not json")
          (fun i _ =>
             if Nat.eqb i 1 then Raised (Exn "ServerError" "503 unavailable")
             else Returned [byte_string "png"])
          (fun _ => turn_of_two_units)
          [2; 0; 2; 1; 2].

(** the Live session breaks in the turn of the second text it is sent *)
Definition world_of_broken_session : world :=
  a_world no_json jpeg_of (reply_with "not json") one_png
          (fun sent =>
             if Nat.eqb (List.length sent) 2
             then Turn (Returned tt)
                    (Yield (Response (byte_string "pcm") EmptyString false)
                       (ReceiveRaises
                          (Exn "ConnectionClosedError" "1011 internal error")))
             else turn_of_two_units)
          [].

Definition section_1 : json :=
  JDict [ ("id", JInt 1); ("narration", JStr "one"); ("image_prompt", JStr "a cell") ].

Definition section_2 : json :=
  JDict [ ("id", JInt 2); ("narration", JStr "two"); ("image_prompt", JStr "a leaf") ].

Definition section_3 : json :=
  JDict [ ("id", JInt 3); ("narration", JStr "three"); ("image_prompt", JStr "a root") ].

Definition bare_section : json := JDict [ ("narration", JStr "n") ].

Definition script_of_two : json :=
  JDict [ ("title", JStr "T"); ("intro", JStr "hi");
          ("sections", JList [section_1; section_2]); ("outro", JStr "bye") ].

Definition script_of_three : json :=
  JDict [ ("title", JStr "T"); ("intro", JStr "hi");
          ("sections", JList [section_1; section_2; section_3]);
          ("outro", JStr "bye") ].

Definition script_without_sections : json :=
  JDict [ ("title", JStr "T"); ("intro", JStr "hi"); ("outro", JStr "bye") ].



Definition vision_result_of_cells : json :=
  JDict [ ("subject", JStr "Biology"); ("topic", JStr "cells");
          ("context", JStr "A diagram of a cell."); ("question", JStr "What is this?") ].

Definition question_message (txt : string) : json :=
  JDict [ ("type", JStr "question"); ("text", JStr txt) ].

(** a photo is stored and a job runs, with two events still queued *)
Definition running_state : WebSocket.state :=
  WebSocket.State (JStr "AAAA")
    (Some (WebSocket.Task (JStr "AAAA") "first" false))
    [Some (status "Analyzing your image..."); Some (meta (JStr "Biology") (JStr "cells"))].

Definition no_unwinding (t : WebSocket.task) : list event := [].

(* ===================================================================== *)
(** ** Vocabulary of the further properties *)

(** *** Text *)

(** the text is empty or begins with a character that is not whitespace *)
Definition starts_clean (s : string) : Prop :=
  match s with
  | EmptyString => True
  | String c _ => isspace c = false
  end.

(** no character of the text is a backtick *)
Fixpoint no_backtick (s : string) : Prop :=
  match s with
  | EmptyString => True
  | String c s' => c <> ascii_of_nat 96 /\ no_backtick s'
  end.

(** a reply in a code fence, with blank lines around it *)
Definition padded_fenced_reply : string :=
  newline ++ fence ++ "json" ++ newline ++ "{}" ++ newline ++ fence
  ++ newline ++ "Hope this helps!" ++ newline.

(** *** Logs *)

(** every action of the computation satisfies [P] *)
Definition does {A} (P : action -> Prop) (m : M A) : Prop :=
  Forall P (fst m).

(** what goes on within one turn of the Live session *)
Definition turn_action (a : action) : Prop :=
  match a with
  | SendClientContent _ => True
  | Put (audio _ _) | Put (text _ _) => True
  | Put (section_start _) | Put (section_end _) => True
  | _ => False
  end.

(** the texts submitted to the Live session, in order *)
Fixpoint sends (l : list action) : list json :=
  match l with
  | [] => []
  | SendClientContent txt :: l' => txt :: sends l'
  | _ :: l' => sends l'
  end.

(** a text [Part.from_text] accepts: a string or [None] *)
Definition sendable (v : json) : Prop :=
  match v with JStr _ | JNull => True | _ => False end.

Definition is_put (a : action) : Prop :=
  match a with Put _ => True | _ => False end.

(** *** Media *)

Definition is_generate_images (a : action) : bool :=
  match a with GenerateImages _ => true | _ => false end.

Definition is_upload (a : action) : bool :=
  match a with UploadImageBytes _ _ => true | _ => false end.

Definition is_put_action (a : action) : bool :=
  match a with Put _ => true | _ => false end.

(** what a call of the Media stage must look like: the image model is
    asked with the style prefix first, storage is given bytes and a name
    [section_....png] *)
Definition media_call (a : action) : Prop :=
  match a with
  | GenerateImages prompt => String.prefix Imagen.STYLE_PREFIX prompt = true
  | UploadImageBytes image_bytes name =>
      image_bytes <> [] /\ String.prefix "section_" name = true
  | Put (image_url _ _ (JStr caption)) => String.length caption <= 80
  | _ => False
  end.

(** [l] is [l'] with some elements left out *)
Inductive subsequence {A : Type} : list A -> list A -> Prop :=
| subsequence_nil : subsequence [] []
| subsequence_skip (x : A) (l l' : list A) :
    subsequence l l' -> subsequence l (x :: l')
| subsequence_keep (x : A) (l l' : list A) :
    subsequence l l' -> subsequence (x :: l) (x :: l').

(** storage fails for the section at position 1 *)
Definition world_failing_second_upload : world := {|
  json_loads := no_json;
  b64decode := jpeg_of;
  b64encode := string_of_list_byte;
  repr := fun _ => "<repr>";
  validation_message := fun _ => "1 validation error for Part";
  generate_content := reply_with "not json";
  generate_images := one_png;
  upload_image_bytes := fun i _ name =>
    if Nat.eqb i 1 then Raised (Exn "Forbidden" "403 forbidden")
    else Returned ("https://storage/" ++ name)%string;
  live_connect := Returned tt;
  live_turn := fun _ => turn_of_two_units;
  live_close := Returned tt;
  schedule_images := [1; 1; 0];
  schedule_pipeline := []
|}.

(** *** The orchestrator *)

(** the actions of the Media stage, as against those of Narration *)
Definition is_media_action (a : action) : bool :=
  match a with
  | GenerateImages _ | UploadImageBytes _ _ | Put (image_url _ _ _) => true
  | _ => false
  end.

(** the actions among the steps of tasks *)
Fixpoint acts (l : list step) : list action :=
  match l with
  | [] => []
  | Act a :: l' => a :: acts l'
  | Stop _ :: l' => acts l'
  end.

(** the reply [[]], a JSON array *)
Definition world_of_array_reply : world := world_of_reply "[]" (JList []).

(** the reply [{"sections": null}] and what it decodes to *)
Definition reply_with_null_sections : string :=
  "{" ++ quoted "sections" ++ ": null}".

Definition script_with_null_sections : json :=
  JDict [ ("sections", JNull) ].

(** *** The session controller *)

(** the messages queued before the first sentinel *)
Fixpoint before_sentinel (queue : list (option event)) : list event :=
  match queue with
  | Some msg :: rest => msg :: before_sentinel rest
  | _ => []
  end.

(** no photo yet, or a truthy one *)
Definition photo_kept (s : WebSocket.state) : Prop :=
  WebSocket.photo_b64 s = JNull \/ truthy (WebSocket.photo_b64 s) = true.

(** a task may only be created for a truthy photo and a question that is
    trimmed and not empty, and is created running *)
Definition proper_op (o : WebSocket.op) : Prop :=
  match o with
  | WebSocket.CreateTask t =>
      truthy (WebSocket.job_photo t) = true
      /\ WebSocket.job_question t <> EmptyString
      /\ strip (WebSocket.job_question t) = WebSocket.job_question t
      /\ WebSocket.task_done t = false
  | _ => True
  end.

Definition photo_message (data : json) : json :=
  JDict [ ("type", JStr "photo"); ("data", data) ].

Definition stop_message : json := JDict [ ("type", JStr "stop") ].

(** a decoder for the frames "photo", "question", "stop" and "number",
    which gives up on 1200 opening brackets *)
Definition loads_frames (raw : string) : loaded :=
  if String.eqb raw "photo" then Decoded (photo_message (JStr "AAAA"))
  else if String.eqb raw "question" then Decoded (question_message " Why? ")
  else if String.eqb raw "stop" then Decoded stop_message
  else if String.eqb raw "number" then Decoded (JInt 7)
  else if String.eqb raw (brackets 1200) then LoadsRaises RecursionError
  else JSONDecodeError.

Definition nothing_new (queue : list (option event)) : Endpoint.meanwhile :=
  Endpoint.Meanwhile false queue.

Unset Implicit Arguments.

(* ===================================================================== *)
(** ** Logs *)

Lemma puts_app (l l' : list action) : puts (l ++ l') = puts l ++ puts l'.
Proof.
  induction l as [|a l IH]; simpl; [reflexivity|].
  destruct a; simpl; rewrite IH; reflexivity.
Qed.

Lemma puts_map_Put (es : list event) : puts (map Put es) = es.
Proof. induction es; simpl; congruence. Qed.

Lemma bind_lift {A B} (a : A) (f : A -> M B) :
  bind (lift (Returned a)) f = f a.
Proof. unfold bind, lift. destruct (f a). reflexivity. Qed.

Lemma bind_raised {A B} (l : list action) (e : exn) (f : A -> M B) :
  bind (l, Raised e) f = (l, Raised e).
Proof. reflexivity. Qed.

Lemma bind_returned {A B} (l : list action) (a : A) (f : A -> M B) :
  bind (l, Returned a) f = (l ++ fst (f a), snd (f a)).
Proof. unfold bind. destruct (f a). reflexivity. Qed.

Example narrate_two_sections :
  puts (fst (GeminiLive.narrate_script quiet_world script_of_two)) =
  [ audio (JInt 0) "pcm"; text (JInt 0) "hello";
    section_start (JInt 1); audio (JInt 1) "pcm"; text (JInt 1) "hello";
    section_end (JInt 1);
    section_start (JInt 2); audio (JInt 2) "pcm"; text (JInt 2) "hello";
    section_end (JInt 2);
    audio (JInt (-1)) "pcm"; text (JInt (-1)) "hello" ].
Proof. vm_compute. reflexivity. Qed.

(* ===================================================================== *)
(** ** Narration *)

Ltac chunk_here :=
  first [ left; eexists; reflexivity | right; eexists; reflexivity ].

Ltac chunks_tagged :=
  repeat (apply Forall_cons; [chunk_here|]); apply Forall_nil.

Section Narration.

Variable w : world.

Lemma unit_events_chunks (section_id : json) (r : response) :
  Forall (chunk section_id) (unit_events w section_id r).
Proof.
  unfold unit_events.
  destruct (r_data r); destruct (String.eqb (r_text r) EmptyString);
    cbn [app]; chunks_tagged.
Qed.

Lemma heard_chunks (sent : list json) (txt section_id : json) :
  Forall (chunk section_id) (heard w sent txt section_id).
Proof.
  unfold heard.
  induction (units (session_receive (live_turn w (sent ++ [txt]))))
    as [|r rs IH]; cbn [flat_map]; [apply Forall_nil|].
  apply Forall_app. split; [apply unit_events_chunks | exact IH].
Qed.

Lemma hearings_chunks (sections : list json) :
  forall sent,
    Forall2 (fun section body => Forall (chunk (section_id_of section)) body)
            sections (hearings w sent sections).
Proof.
  induction sections as [|section rest IH]; intros sent; cbn [hearings];
    [apply Forall2_nil|].
  apply Forall2_cons; [apply heard_chunks | apply IH].
Qed.

Lemma receive_loop_completes (section_id : json) (rs : receive) :
  completes rs = true ->
  GeminiLive.receive_loop w section_id rs
  = (map Put (flat_map (unit_events w section_id) (units rs)), Returned tt).
Proof.
  induction rs as [r rest IH| |e];
    cbn [GeminiLive.receive_loop completes units flat_map]; intros Hc;
    [|reflexivity|discriminate].
  unfold unit_events.
  destruct (turn_complete r).
  - destruct (r_data r) as [|b bs];
      destruct (String.eqb (r_text r) EmptyString); reflexivity.
  - rewrite (IH Hc).
    destruct (r_data r) as [|b bs];
      destruct (String.eqb (r_text r) EmptyString); reflexivity.
Qed.

Lemma narrate_text_ok (sent : list json) (txt section_id : json) :
  is_text txt ->
  turn_ok (live_turn w (sent ++ [txt])) ->
  GeminiLive._narrate_text w sent txt section_id
  = (spoken txt (heard w sent txt section_id), Returned tt).
Proof.
  intros Htxt [Hsend Hrecv]. destruct txt; try contradiction.
  unfold GeminiLive._narrate_text. cbn [GeminiLive.Part_from_text].
  rewrite bind_lift. unfold call, bind.
  rewrite Hsend, (receive_loop_completes _ _ Hrecv). reflexivity.
Qed.

Lemma narrate_sections_ok (sections : list json) :
  (forall sent, turn_ok (live_turn w sent)) ->
  Forall is_dict sections ->
  Forall is_text (map narration_of sections) ->
  forall sent,
    GeminiLive.narrate_sections w sent sections
    = (flat_map block (combine sections (hearings w sent sections)),
       Returned (sent ++ map narration_of sections)).
Proof.
  intros Hturns Hdicts.
  induction Hdicts as [|section rest Hd _ IH]; intros Htexts sent.
  - cbn. rewrite app_nil_r. reflexivity.
  - destruct section as [| | | | |kv]; try contradiction.
    cbn [map] in Htexts.
    pose proof (Forall_inv Htexts) as Htext.
    pose proof (Forall_inv_tail Htexts) as Hrest.
    cbn [GeminiLive.narrate_sections hearings].
    replace (get (JDict kv) "id" (JInt 0))
      with (Returned (section_id_of (JDict kv))) by reflexivity.
    replace (get (JDict kv) "narration" (JStr EmptyString))
      with (Returned (narration_of (JDict kv))) by reflexivity.
    rewrite !bind_lift. unfold bind at 1. cbn [put].
    rewrite (narrate_text_ok sent _ (section_id_of (JDict kv)) Htext (Hturns _)).
    unfold bind at 1. unfold bind at 1. cbn [put].
    rewrite (IH Hrest). cbn [combine flat_map block map].
    unfold spoken. simpl. rewrite <- !app_assoc. reflexivity.
Qed.

End Narration.

Lemma chunk_not_marker (section_id : json) (chunks : list event) :
  Forall (chunk section_id) chunks -> filter is_marker chunks = [].
Proof.
  induction 1 as [|e l He _ IH]; [reflexivity|].
  simpl. rewrite IH. destruct He as [[d ->]|[c ->]]; reflexivity.
Qed.

Lemma filter_marker_spoken (txt section_id : json) (chunks : list event) :
  Forall (chunk section_id) chunks ->
  filter is_marker (puts (spoken txt chunks)) = [].
Proof.
  intros H. unfold spoken. simpl. rewrite puts_map_Put.
  eapply chunk_not_marker; eassumption.
Qed.

Lemma filter_marker_aside (txt section_id : json) (chunks : list event) :
  Forall (chunk section_id) chunks ->
  filter is_marker (puts (aside txt chunks)) = [].
Proof.
  intros H. unfold aside. destruct (truthy txt); [|reflexivity].
  eapply filter_marker_spoken; eassumption.
Qed.

Lemma filter_marker_blocks (sections : list json) (bodies : list (list event)) :
  Forall2 (fun section body => Forall (chunk (section_id_of section)) body)
          sections bodies ->
  filter is_marker (puts (flat_map block (combine sections bodies)))
  = flat_map markers sections.
Proof.
  induction 1 as [|section body sections bodies Hb _ IH]; [reflexivity|].
  cbn [combine flat_map block].
  rewrite puts_app, filter_app, IH.
  cbn [puts]. rewrite puts_app. cbn [filter is_marker].
  rewrite filter_app, (filter_marker_spoken _ _ _ Hb). reflexivity.
Qed.

Lemma chunks_are_not_errors (txt section_id : json) (chunks : list event) :
  Forall (chunk section_id) chunks ->
  filter is_error (puts (aside txt chunks)) = [].
Proof.
  intros H. unfold aside, spoken. destruct (truthy txt); [|reflexivity].
  cbn [puts]. rewrite puts_map_Put.
  induction H as [|e l He _ IH]; [reflexivity|].
  cbn [filter]. rewrite IH. destruct He as [[d ->]|[c ->]]; reflexivity.
Qed.

Lemma utterances_texts (script : json) (sections : list json) :
  Forall is_text (utterances script sections) ->
  (truthy (intro_of script) = true -> is_text (intro_of script))
  /\ Forall is_text (map narration_of sections)
  /\ (truthy (outro_of script) = true -> is_text (outro_of script)).
Proof.
  unfold utterances. intros H.
  apply Forall_app in H. destruct H as [Hintro H].
  apply Forall_app in H. destruct H as [Hsections Houtro].
  split; [|split; [exact Hsections|]].
  - intros Ht. rewrite Ht in Hintro. exact (Forall_inv Hintro).
  - intros Ht. rewrite Ht in Houtro. exact (Forall_inv Houtro).
Qed.

(** The log of a narration whose session opens, answers every turn and
    closes, for a script whose sections are records and whose texts are
    strings. *)
Lemma narrate_script_blocks
    (w : world) (script : json) (sections : list json) :
  session_ok w ->
  get script "sections" (JList []) = Returned (JList sections) ->
  Forall is_dict sections ->
  Forall is_text (utterances script sections) ->
  let sent := if truthy (intro_of script) then [intro_of script] else [] in
  GeminiLive.narrate_script w script
  = (LiveConnect
       :: aside (intro_of script) (heard w [] (intro_of script) (JInt 0))
       ++ flat_map block (combine sections (hearings w sent sections))
       ++ aside (outro_of script)
            (heard w (sent ++ map narration_of sections)
               (outro_of script) (JInt (-1)))
       ++ [LiveClose],
     Returned tt).
Proof.
  intros (Hconnect & Hturns & Hclose) Hsections Hdicts Htexts sent.
  destruct (utterances_texts script sections Htexts)
    as (Hintro_text & Hsection_texts & Houtro_text).
  destruct script as [| | | | |kv]; try discriminate.
  set (script := JDict kv) in *.
  (* the intro *)
  assert (Hintro :
            (if truthy (intro_of script)
             then (GeminiLive._narrate_text w [] (intro_of script) (JInt 0) ;;
                   ret [intro_of script])%py
             else ret [])
            = (aside (intro_of script) (heard w [] (intro_of script) (JInt 0)),
               Returned sent)).
  { unfold aside. subst sent. destruct (truthy (intro_of script)).
    - rewrite (narrate_text_ok w [] (intro_of script) (JInt 0)
                 (Hintro_text eq_refl) (Hturns _)).
      unfold bind, ret. rewrite app_nil_r. reflexivity.
    - reflexivity. }
  (* the outro *)
  assert (Houtro :
            when (truthy (outro_of script))
                 (GeminiLive._narrate_text w (sent ++ map narration_of sections)
                    (outro_of script) (JInt (-1)))
            = (aside (outro_of script)
                 (heard w (sent ++ map narration_of sections)
                    (outro_of script) (JInt (-1))),
               Returned tt)).
  { unfold aside, when. destruct (truthy (outro_of script)).
    - apply narrate_text_ok; [exact (Houtro_text eq_refl) | apply Hturns].
    - reflexivity. }
  unfold GeminiLive.narrate_script.
  rewrite Hsections.
  replace (get script "intro" (JStr EmptyString))
    with (Returned (intro_of script)) by reflexivity.
  replace (get script "outro" (JStr EmptyString))
    with (Returned (outro_of script)) by reflexivity.
  rewrite !bind_lift.
  unfold GeminiLive.with_session.
  rewrite Hintro. rewrite bind_returned.
  cbn [iter]. rewrite bind_lift.
  rewrite (narrate_sections_ok w sections Hturns Hdicts Hsection_texts sent).
  rewrite bind_returned. rewrite Houtro.
  cbn [fst snd]. rewrite Hconnect, Hclose.
  unfold call, bind, try_except.
  rewrite <- !app_assoc. reflexivity.
Qed.

(** In such a log the markers are one pair per section. *)
Lemma narrated_marks (w : world) (script : json) (sections : list json)
    (sent sent' : list json) :
  filter is_marker
    (puts (LiveConnect
             :: aside (intro_of script) (heard w [] (intro_of script) (JInt 0))
             ++ flat_map block (combine sections (hearings w sent sections))
             ++ aside (outro_of script)
                  (heard w sent' (outro_of script) (JInt (-1)))
             ++ [LiveClose]))
  = flat_map markers sections.
Proof.
  cbn [puts]. rewrite !puts_app, !filter_app.
  rewrite (filter_marker_aside _ _ _ (heard_chunks w _ _ _)).
  rewrite (filter_marker_aside _ _ _ (heard_chunks w _ _ _)).
  rewrite (filter_marker_blocks _ _ (hearings_chunks w sections sent)).
  cbn [puts filter app]. rewrite app_nil_r. reflexivity.
Qed.


(* ===================================================================== *)
(** ** What a computation enqueues *)

Section Emits.

Context {A B : Type} (P : event -> Prop).

Lemma emits_ret (a : A) : emits P (ret a).
Proof. constructor. Qed.

Lemma emits_raise (e : exn) : emits P (@raise A e).
Proof. constructor. Qed.

Lemma emits_lift (o : outcome A) : emits P (lift o).
Proof. constructor. Qed.

Lemma emits_put (e : event) : P e -> emits P (put e).
Proof. intros H. repeat constructor. exact H. Qed.

Lemma emits_bind (m : M A) (f : A -> M B) :
  emits P m -> (forall a, emits P (f a)) -> emits P (bind m f).
Proof.
  unfold emits. destruct m as [l [a|e]]; simpl; intros Hm Hf; [|exact Hm].
  specialize (Hf a). destruct (f a) as [l' r]. simpl in *.
  rewrite puts_app. apply Forall_app; auto.
Qed.

Lemma emits_try_except (m : M A) (h : exn -> M A) :
  emits P m -> (forall e, emits P (h e)) -> emits P (try_except m h).
Proof.
  unfold emits. destruct m as [l [a|e]]; simpl; intros Hm Hh; [exact Hm|].
  specialize (Hh e). destruct (h e) as [l' r]. simpl in *.
  rewrite puts_app. apply Forall_app; auto.
Qed.

End Emits.

Lemma emits_call {A} (P : event -> Prop) (a : action) (o : outcome A) :
  (forall e, a <> Put e) -> emits P (call a o).
Proof.
  intros H. unfold emits, call. simpl.
  destruct a; try (exfalso; eapply H; reflexivity); constructor.
Qed.

Lemma emits_when (P : event -> Prop) (b : bool) (m : M unit) :
  emits P m -> emits P (when b m).
Proof. destruct b; simpl; [auto | intros _; constructor]. Qed.

Lemma emits_weaken {A} (P Q : event -> Prop) (m : M A) :
  (forall e, P e -> Q e) -> emits P m -> emits Q m.
Proof. intros H. apply Forall_impl. exact H. Qed.

Lemma emits_nothing {A} (m : M A) : emits nothing m -> puts (fst m) = [].
Proof.
  unfold emits. destruct (puts (fst m)); [reflexivity|].
  intros H. inversion H as [|? ? []].
Qed.

Ltac emits_step :=
  first
    [ apply emits_bind; [|intros ?]
    | apply emits_try_except; [|intros ?]
    | apply emits_ret | apply emits_raise | apply emits_lift
    | apply emits_when
    | apply emits_put; first [exact I | reflexivity | chunk_here]
    | apply emits_call; discriminate ].

(** *** The Narration stage, whatever the session does *)

Lemma receive_loop_emits (w : world) (section_id : json) (rs : receive) :
  emits narration_event (GeminiLive.receive_loop w section_id rs).
Proof.
  induction rs as [r rest IH| |e]; cbn [GeminiLive.receive_loop].
  - repeat emits_step. destruct (turn_complete r); [emits_step | exact IH].
  - emits_step.
  - emits_step.
Qed.

Lemma narrate_text_emits (w : world) (sent : list json) (txt section_id : json) :
  emits narration_event (GeminiLive._narrate_text w sent txt section_id).
Proof.
  unfold GeminiLive._narrate_text. do 2 (emits_step; [emits_step|]).
  apply receive_loop_emits.
Qed.

Lemma narrate_sections_emits (w : world) (sections : list json) :
  forall sent, emits narration_event (GeminiLive.narrate_sections w sent sections).
Proof.
  induction sections as [|section rest IH]; intros sent;
    cbn [GeminiLive.narrate_sections].
  - emits_step.
  - do 3 (emits_step; [emits_step|]).
    emits_step; [apply narrate_text_emits|].
    emits_step; [emits_step|]. apply IH.
Qed.

Lemma with_session_emits {A} (P : event -> Prop) (w : world) (body : M A) :
  emits P body -> emits P (GeminiLive.with_session w body).
Proof.
  intros H. unfold GeminiLive.with_session.
  emits_step; [emits_step|].
  destruct body as [l r]. unfold emits in *. simpl in *.
  rewrite puts_app. simpl. rewrite app_nil_r. exact H.
Qed.

Lemma narrate_script_emits (w : world) (script : json) :
  emits narration_event (GeminiLive.narrate_script w script).
Proof.
  unfold GeminiLive.narrate_script.
  do 3 (emits_step; [emits_step|]).
  emits_step; [|emits_step].
  apply with_session_emits.
  emits_step.
  { match goal with |- emits _ (if ?b then _ else _) => destruct b end;
      [|emits_step].
    emits_step; [apply narrate_text_emits | emits_step]. }
  emits_step; [emits_step|].
  emits_step; [apply narrate_sections_emits|].
  emits_step. apply narrate_text_emits.
Qed.

(** [narrate_script] handles every exception of the session itself. *)
Lemma narrate_script_returns (w : world) (script : json) :
  is_dict script -> snd (GeminiLive.narrate_script w script) = Returned tt.
Proof.
  destruct script as [| | | | |kv]; try contradiction. intros _.
  unfold GeminiLive.narrate_script.
  cbn [get]. rewrite !bind_lift.
  match goal with
  | |- snd (try_except ?m _) = _ => destruct m as [l [[]|e]]
  end; reflexivity.
Qed.

(* ===================================================================== *)
(** ** Interleaving *)

Lemma pick_perm {A} (n : nat) (ls ls' : list (list A)) (x : A) :
  pick n ls = Some (x, ls') -> Permutation (concat ls) (x :: concat ls').
Proof.
  revert n ls' x. induction ls as [|l ls IH]; intros n ls' x; simpl.
  - discriminate.
  - destruct n as [|n].
    + destruct l as [|y l]; [discriminate|].
      intros [= <- <-]. reflexivity.
    + destruct (pick n ls) as [[y ls'']|] eqn:E; [|discriminate].
      intros [= <- <-]. simpl.
      rewrite (IH _ _ _ E). symmetry. apply Permutation_middle.
Qed.

Lemma interleave_perm {A} (sched : list nat) :
  forall ls : list (list A), Permutation (interleave sched ls) (concat ls).
Proof.
  induction sched as [|n sched IH]; intros ls; simpl.
  - reflexivity.
  - destruct (pick n ls) as [[x ls']|] eqn:E.
    + rewrite (pick_perm _ _ _ _ E). constructor. apply IH.
    + apply IH.
Qed.

Lemma puts_perm (l l' : list action) :
  Permutation l l' -> Permutation (puts l) (puts l').
Proof.
  induction 1 as [|a l l' _ IH|a b l|l l' l'' _ IH1 _ IH2].
  - reflexivity.
  - destruct a; simpl; auto.
  - destruct a, b; simpl; try reflexivity; apply perm_swap.
  - etransitivity; eassumption.
Qed.

Lemma emits_gather_settled {A} (P : event -> Prop) (sched : list nat)
    (tasks : list (M A)) :
  Forall (emits P) tasks -> emits P (gather_settled sched tasks).
Proof.
  intros H. unfold emits, gather_settled. cbn [fst].
  eapply Permutation_Forall.
  - symmetry. apply puts_perm. apply interleave_perm.
  - induction H as [|t tasks Ht _ IH]; simpl; [constructor|].
    rewrite puts_app. apply Forall_app. split; assumption.
Qed.

Lemma join_sound (l : list step) (a : action) :
  In a (fst (join l)) -> In (Act a) l.
Proof.
  induction l as [|s l IH]; simpl; [tauto|].
  destruct s as [a'|[[]|e]].
  - destruct (join l) as [la r]. simpl in *.
    intros [->|H]; [left; reflexivity | right; auto].
  - intros H. right. auto.
  - simpl. tauto.
Qed.

Lemma In_puts (l : list action) (e : event) : In e (puts l) <-> In (Put e) l.
Proof.
  induction l as [|a l IH]; simpl; [tauto|].
  destruct a; simpl; rewrite IH; split;
    try (intros [H|H]; [first [discriminate | injection H as ->; auto | subst; auto] | auto]);
    auto.
Qed.

Lemma emits_gather (P : event -> Prop) (sched : list nat) (tasks : list (M unit)) :
  Forall (emits P) tasks -> emits P (gather sched tasks).
Proof.
  intros H. unfold emits, gather. apply Forall_forall. intros e He.
  apply In_puts, join_sound in He.
  apply (Permutation_in _ (interleave_perm sched (map steps tasks))) in He.
  apply in_concat in He. destruct He as (l & Hl & He).
  apply in_map_iff in Hl. destruct Hl as (t & <- & Ht).
  rewrite Forall_forall in H. specialize (H t Ht).
  unfold emits in H. rewrite Forall_forall in H. apply H.
  apply In_puts. unfold steps in He. apply in_app_or in He.
  destruct He as [He|[He|[]]]; [|discriminate].
  apply in_map_iff in He. destruct He as (a & [= ->] & Ha). exact Ha.
Qed.

(** when every task returns, so does [gather], having run them all *)
Lemma join_all_returned (l : list step) :
  (forall o, In (Stop o) l -> o = Returned tt) ->
  snd (join l) = Returned tt.
Proof.
  induction l as [|s l IH]; simpl; intros H; [reflexivity|].
  destruct s as [a|[[]|e]].
  - destruct (join l) as [la r] eqn:E. simpl in *. apply IH. auto.
  - apply IH. auto.
  - specialize (H (Raised e) (or_introl eq_refl)). discriminate.
Qed.

Lemma gather_returns (sched : list nat) (tasks : list (M unit)) :
  Forall (fun t => snd t = Returned tt) tasks ->
  snd (gather sched tasks) = Returned tt.
Proof.
  intros H. unfold gather. apply join_all_returned. intros o Ho.
  apply (Permutation_in _ (interleave_perm sched (map steps tasks))) in Ho.
  apply in_concat in Ho. destruct Ho as (l & Hl & Ho).
  apply in_map_iff in Hl. destruct Hl as (t & <- & Ht).
  rewrite Forall_forall in H. specialize (H t Ht).
  unfold steps in Ho. apply in_app_or in Ho.
  destruct Ho as [Ho|[Ho|[]]].
  - apply in_map_iff in Ho. destruct Ho as (a & [=] & _).
  - injection Ho as <-. exact H.
Qed.

(* ===================================================================== *)
(** ** Media *)

Lemma generate_image_emits (w : world) (i : nat) (prompt : json) :
  emits nothing (Imagen.generate_image w i prompt).
Proof.
  unfold Imagen.generate_image. repeat emits_step.
  match goal with |- emits _ (match ?l with _ => _ end) => destruct l end;
    emits_step.
Qed.

Lemma generate_section_image_emits (w : world) (i : nat) (section : json) :
  emits image_event (VisualAgent.generate_section_image w i section).
Proof.
  unfold VisualAgent.generate_section_image.
  do 2 (emits_step; [emits_step|]).
  emits_step; [|emits_step].
  emits_step.
  { eapply emits_weaken; [|apply generate_image_emits]. intros e []. }
  match goal with
  | |- emits _ (match ?o with _ => _ end) => destruct o as [[|]|]
  end; repeat emits_step.
Qed.

Lemma tasks_emit (w : world) (sections : list json) :
  forall i, Forall (emits image_event) (VisualAgent.tasks w i sections).
Proof.
  induction sections as [|section rest IH]; intros i; simpl; constructor.
  - apply generate_section_image_emits.
  - apply IH.
Qed.

Lemma generate_all_images_emits (w : world) (script : json) :
  emits image_event (VisualAgent.generate_all_images w script).
Proof.
  unfold VisualAgent.generate_all_images.
  emits_step; [emits_step|].
  match goal with |- emits _ (if ?b then _ else _) => destruct b end;
    [emits_step|].
  emits_step; [emits_step|].
  apply emits_gather_settled, tasks_emit.
Qed.

Lemma len_iter (v : json) (n : nat) :
  len v = Returned n -> exists items, iter v = Returned items.
Proof. destruct v; simpl; try discriminate; eauto. Qed.

Lemma generate_all_images_returns (w : world) (script sections : json) (n : nat) :
  get script "sections" (JList []) = Returned sections ->
  len sections = Returned n ->
  snd (VisualAgent.generate_all_images w script) = Returned tt.
Proof.
  intros Hs Hn. unfold VisualAgent.generate_all_images.
  rewrite Hs, bind_lift.
  destruct (truthy sections); [|reflexivity]. cbn [negb].
  destruct (len_iter _ _ Hn) as (items & ->). rewrite bind_lift. reflexivity.
Qed.

(* ===================================================================== *)
(** ** Analysis and Scripting *)

Lemma analyze_photo_emits (w : world) (photo_b64 : json) (question : string) :
  emits nothing (VisionAgent.analyze_photo w photo_b64 question).
Proof.
  unfold VisionAgent.analyze_photo. repeat emits_step.
  match goal with |- emits _ (match ?o with _ => _ end) => destruct o end;
    emits_step.
Qed.

Lemma generate_script_emits (w : world) (vision_result : json) :
  emits nothing (ScriptAgent.generate_script w vision_result).
Proof.
  unfold ScriptAgent.generate_script. repeat emits_step.
  match goal with |- emits _ (match ?o with _ => _ end) => destruct o end;
    emits_step.
Qed.

Lemma get_returned (d : json) (key : string) (default v : json) :
  get d key default = Returned v -> is_dict d.
Proof. destruct d; simpl; try discriminate; auto. Qed.

Lemma get1_field (d : json) (key : string) :
  is_dict d -> get1 d key = Returned (field d key).
Proof. destruct d; simpl; try contradiction; reflexivity. Qed.

Lemma get_title_of (d : json) :
  is_dict d -> get d "title" (JStr "Your Explainer") = Returned (title_of d).
Proof. destruct d; simpl; try contradiction; reflexivity. Qed.

Lemma bind_inv {A B} (m : M A) (f : A -> M B) (b : B) :
  snd (bind m f) = Returned b ->
  exists a, snd m = Returned a /\ snd (f a) = Returned b.
Proof.
  destruct m as [l [a|e]]; simpl; [|discriminate].
  destruct (f a) as [l' r] eqn:E. simpl. intros ->.
  exists a. rewrite E. auto.
Qed.

(** What Analysis returns supports [.get]. *)
Lemma analyze_photo_returns_dict
    (w : world) (photo_b64 : json) (question : string) (v : json) :
  snd (VisionAgent.analyze_photo w photo_b64 question) = Returned v ->
  is_dict v.
Proof.
  unfold VisionAgent.analyze_photo. intros H.
  apply bind_inv in H. destruct H as (image_bytes & _ & H).
  apply bind_inv in H. destruct H as (response_text & _ & H).
  apply bind_inv in H. destruct H as (raw & _ & H).
  apply bind_inv in H. destruct H as (result & _ & H).
  apply bind_inv in H. destruct H as (? & Hget & H).
  apply bind_inv in H. destruct H as (? & _ & H).
  simpl in H. injection H as <-.
  eapply get_returned. exact Hget.
Qed.

(** What Scripting returns supports [.get], and its sections [len]. *)
Lemma generate_script_returns_dict (w : world) (vision_result script : json) :
  snd (ScriptAgent.generate_script w vision_result) = Returned script ->
  is_dict script
  /\ exists sections n,
       get script "sections" (JList []) = Returned sections
       /\ len sections = Returned n.
Proof.
  unfold ScriptAgent.generate_script. intros H.
  do 6 (apply bind_inv in H; destruct H as (? & _ & H)).
  apply bind_inv in H. destruct H as (script' & _ & H).
  apply bind_inv in H. destruct H as (? & Htitle & H).
  apply bind_inv in H. destruct H as (sections & Hsections & H).
  apply bind_inv in H. destruct H as (n & Hlen & H).
  simpl in H. injection H as <-. simpl in Hsections, Hlen.
  split; [eapply get_returned; exact Htitle|].
  exists sections, n. auto.
Qed.

(* ===================================================================== *)
(** ** The orchestrator *)

Lemma stage_of_narration (e : event) : narration_event e -> stage_event e.
Proof. destruct e; simpl; auto. Qed.

Lemma stage_of_image (e : event) : image_event e -> stage_event e.
Proof. destruct e; simpl; auto. Qed.

Lemma pipeline_shape (w : world) (photo_b64 : json) (question : string) :
  run_shape w photo_b64 question
    (puts (fst (Coordinator.pipeline w photo_b64 question)))
    (snd (Coordinator.pipeline w photo_b64 question)).
Proof.
  unfold Coordinator.pipeline, put.
  pose proof (analyze_photo_emits w photo_b64 question) as Ha.
  apply emits_nothing in Ha.
  pose proof (@analyze_photo_returns_dict w photo_b64 question) as Hdict.
  rewrite bind_returned.
  destruct (VisionAgent.analyze_photo w photo_b64 question)
    as [la [vision_result|e]] eqn:Ea; cbn [fst snd] in *.
  2:{ rewrite bind_raised. cbn [fst snd].
      rewrite puts_app, Ha. apply AnalysisFails. rewrite Ea. reflexivity. }
  specialize (Hdict _ eq_refl).
  rewrite bind_returned.
  rewrite !(@get1_field vision_result _ Hdict), !bind_lift.
  rewrite !bind_returned.
  pose proof (generate_script_emits w vision_result) as Hs.
  apply emits_nothing in Hs.
  pose proof (@generate_script_returns_dict w vision_result) as Hsdict.
  destruct (ScriptAgent.generate_script w vision_result)
    as [ls [script|e]] eqn:Es; cbn [fst snd] in *.
  2:{ rewrite bind_raised.
      cbn [fst snd]. rewrite !puts_app, Ha, Hs.
      apply ScriptingFails with (vision_result := vision_result).
      - rewrite Ea. reflexivity.
      - rewrite Es. reflexivity. }
  destruct (Hsdict _ eq_refl) as (Hscript & sections & n & Hsections & Hlen).
  rewrite bind_returned.
  rewrite (@get_title_of script Hscript), bind_lift, bind_returned.
  set (stage := gather (schedule_pipeline w)
                  [VisualAgent.generate_all_images w script;
                   GeminiLive.narrate_script w script]).
  assert (Hstage : emits stage_event stage).
  { apply emits_gather. repeat constructor.
    - eapply emits_weaken; [apply stage_of_image|].
      apply generate_all_images_emits.
    - eapply emits_weaken; [apply stage_of_narration|].
      apply narrate_script_emits. }
  assert (Hret : snd stage = Returned tt).
  { apply gather_returns. repeat constructor.
    - eapply generate_all_images_returns; eassumption.
    - apply narrate_script_returns, Hscript. }
  destruct stage as [lg rg]. cbn [snd] in Hret. subst rg.
  rewrite bind_returned.
  cbn [fst snd]. rewrite !puts_app, Ha, Hs. cbn [puts app].
  apply (@Generates w photo_b64 question vision_result script (puts lg)).
  - rewrite Ea. reflexivity.
  - rewrite Es. reflexivity.
  - exact Hstage.
Qed.

Lemma run_shape_raised (w : world) (photo_b64 : json) (question : string)
    (events : list event) (e : exn) :
  run_shape w photo_b64 question events (Raised e) ->
  filter is_error events = [] /\ filter is_done events = [].
Proof. inversion 1; split; reflexivity. Qed.

Lemma stage_event_not_meta (stage : list event) :
  Forall stage_event stage -> filter is_meta stage = [].
Proof.
  induction 1 as [|e l He _ IH]; [reflexivity|].
  simpl. rewrite IH. destruct e; simpl in *; try contradiction; reflexivity.
Qed.

(** C2: when an exception escapes the stages run by the orchestrator
    (the body of its [try] raises [e]), the events of [run_pipeline] are
    those emitted until then, followed by one [error] event whose message
    is "Something went wrong: " and the text of [e], followed by [done];
    there is no other [error] and no other [done] in the run, and
    [run_pipeline] itself returns.  The exception is one of Analysis or of
    Scripting ([run_shape]): the events before the [error] are the first
    [status], or the first [status], the [meta] and the second [status]. *)
Theorem failed_run_ends_with_error_then_done
    (w : world) (photo_b64 : json) (question : string) (e : exn) :
  snd (Coordinator.pipeline w photo_b64 question) = Raised e ->
  let events := puts (fst (Coordinator.run_pipeline w photo_b64 question)) in
  events
  = puts (fst (Coordinator.pipeline w photo_b64 question))
    ++ [error ("Something went wrong: " ++ exn_str e); done]
  /\ count is_error events = 1
  /\ count is_done events = 1
  /\ snd (Coordinator.run_pipeline w photo_b64 question) = Returned tt
  /\ run_shape w photo_b64 question
       (puts (fst (Coordinator.pipeline w photo_b64 question))) (Raised e).
Proof.
  intros Hraised events. subst events.
  pose proof (pipeline_shape w photo_b64 question) as Hshape.
  unfold Coordinator.run_pipeline.
  destruct (Coordinator.pipeline w photo_b64 question) as [l r].
  cbn [fst snd] in *. subst r.
  destruct (run_shape_raised _ _ _ _ _ Hshape) as [Herr Hdone].
  cbn [try_except put bind fst snd app].
  rewrite puts_app. cbn [puts].
  unfold count. rewrite !filter_app, Herr, Hdone.
  repeat split. exact Hshape.
Qed.

(** a photo that is not base64 *)
Lemma failed_run_ends_with_error_then_done_witness :
  let events :=
    puts (fst (Coordinator.run_pipeline world_of_bad_photo (JStr "%") "Why?")) in
  events
  = puts (fst (Coordinator.pipeline world_of_bad_photo (JStr "%") "Why?"))
    ++ [error "Something went wrong: Incorrect padding"; done]
  /\ count is_error events = 1
  /\ count is_done events = 1
  /\ snd (Coordinator.run_pipeline world_of_bad_photo (JStr "%") "Why?")
     = Returned tt
  /\ run_shape world_of_bad_photo (JStr "%") "Why?"
       (puts (fst (Coordinator.pipeline world_of_bad_photo (JStr "%") "Why?")))
       (Raised (Exn "binascii.Error" "Incorrect padding")).
Proof.
  apply (@failed_run_ends_with_error_then_done world_of_bad_photo (JStr "%")
           "Why?" (Exn "binascii.Error" "Incorrect padding")).
  reflexivity.
Defined.

Example bad_photo_run :
  puts (fst (Coordinator.run_pipeline world_of_bad_photo (JStr "%") "Why?"))
  = [ status "Analyzing your image...";
      error "Something went wrong: Incorrect padding";
      done ].
Proof. reflexivity. Qed.

(* ===================================================================== *)
(** ** The [meta] event *)

Lemma run_pipeline_events (w : world) (photo_b64 : json) (question : string) :
  puts (fst (Coordinator.run_pipeline w photo_b64 question))
  = puts (fst (Coordinator.pipeline w photo_b64 question))
    ++ match snd (Coordinator.pipeline w photo_b64 question) with
       | Returned _ => []
       | Raised e => [error ("Something went wrong: " ++ exn_str e); done]
       end.
Proof.
  unfold Coordinator.run_pipeline.
  destruct (Coordinator.pipeline w photo_b64 question) as [l [[]|e]];
    cbn [try_except put bind fst snd app].
  - rewrite app_nil_r. reflexivity.
  - rewrite puts_app. reflexivity.
Qed.

Lemma analysis_failure_run
    (w : world) (photo_b64 : json) (question : string) (e : exn) :
  snd (VisionAgent.analyze_photo w photo_b64 question) = Raised e ->
  puts (fst (Coordinator.run_pipeline w photo_b64 question))
  = [ status "Analyzing your image...";
      error ("Something went wrong: " ++ exn_str e);
      done ].
Proof.
  intros Ha. rewrite run_pipeline_events.
  pose proof (pipeline_shape w photo_b64 question) as Hshape.
  destruct (Coordinator.pipeline w photo_b64 question) as [l r].
  cbn [fst snd] in *.
  inversion Hshape as [e' Ha' Hev Hr | v e' Ha' Hs Hev Hr
                      | v script stage Ha' Hs Hst Hev Hr];
    rewrite Ha in Ha'; try discriminate.
  injection Ha' as <-. reflexivity.
Qed.

Lemma scripting_failure_run
    (w : world) (photo_b64 : json) (question : string)
    (vision_result : json) (e : exn) :
  snd (VisionAgent.analyze_photo w photo_b64 question) = Returned vision_result ->
  snd (ScriptAgent.generate_script w vision_result) = Raised e ->
  puts (fst (Coordinator.run_pipeline w photo_b64 question))
  = [ status "Analyzing your image...";
      meta (field vision_result "subject") (field vision_result "topic");
      status "Preparing your explainer...";
      error ("Something went wrong: " ++ exn_str e);
      done ].
Proof.
  intros Ha Hs. rewrite run_pipeline_events.
  pose proof (pipeline_shape w photo_b64 question) as Hshape.
  destruct (Coordinator.pipeline w photo_b64 question) as [l r].
  cbn [fst snd] in *.
  inversion Hshape as [e' Ha' Hev Hr | v e' Ha' Hs' Hev Hr
                      | v script stage Ha' Hs' Hst Hev Hr];
    rewrite Ha in Ha'; try discriminate; injection Ha' as <-;
    rewrite Hs in Hs'; try discriminate.
  injection Hs' as <-. reflexivity.
Qed.

(** What Analysis returns when the reply is not JSON. *)
Lemma analyze_photo_degrades
    (w : world) (photo_b64 : json) (question : string)
    (image_bytes : bytes) (response_text : string) :
  b64decode w photo_b64 = Returned image_bytes ->
  generate_content w (Some image_bytes) (VisionAgent.VISION_PROMPT question)
  = Returned (Some response_text) ->
  json_loads w (strip_fences response_text) = JSONDecodeError ->
  VisionAgent.analyze_photo w photo_b64 question
  = ([GenerateContent (Some image_bytes) (VisionAgent.VISION_PROMPT question)],
     Returned (VisionAgent.degraded (strip_fences response_text) question)).
Proof.
  intros Hdecode Hreply Hloads. unfold VisionAgent.analyze_photo.
  rewrite Hdecode, bind_lift, Hreply.
  unfold call. rewrite bind_returned. cbn [response_raw].
  rewrite bind_lift, Hloads. reflexivity.
Qed.


(** C4: [run_pipeline] emits exactly one [meta] event, carrying the
    subject and topic of the record, when Analysis returns a record, and
    none when Analysis raises.  When Analysis has degraded because the
    reply was not JSON, the [meta] events of the run are that one event
    carrying "General" and "Unknown": nothing beyond the subject and
    topic of the degraded record. *)
Theorem one_meta_event_per_analysis
    (w : world) (photo_b64 : json) (question : string) :
  let events := puts (fst (Coordinator.run_pipeline w photo_b64 question)) in
  match snd (VisionAgent.analyze_photo w photo_b64 question) with
  | Returned vision_result =>
      filter is_meta events
      = [meta (field vision_result "subject") (field vision_result "topic")]
  | Raised _ => filter is_meta events = []
  end
  /\ (forall image_bytes response_text,
        b64decode w photo_b64 = Returned image_bytes ->
        generate_content w (Some image_bytes) (VisionAgent.VISION_PROMPT question)
        = Returned (Some response_text) ->
        json_loads w (strip_fences response_text) = JSONDecodeError ->
        filter is_meta events = [meta (JStr "General") (JStr "Unknown")]).
Proof.
  intros events.
  assert (Hmain :
            match snd (VisionAgent.analyze_photo w photo_b64 question) with
            | Returned vision_result =>
                filter is_meta events
                = [meta (field vision_result "subject") (field vision_result "topic")]
            | Raised _ => filter is_meta events = []
            end).
  { subst events. rewrite run_pipeline_events.
    pose proof (pipeline_shape w photo_b64 question) as Hshape.
    destruct (Coordinator.pipeline w photo_b64 question) as [l r].
    cbn [fst snd] in *.
    inversion Hshape as [e Ha Hev Hr | v e Ha Hs Hev Hr | v script stage Ha Hs Hst Hev Hr];
      rewrite Ha; rewrite filter_app.
    - reflexivity.
    - reflexivity.
    - cbn [app filter is_meta]. rewrite filter_app.
      rewrite (stage_event_not_meta _ Hst). reflexivity. }
  split; [exact Hmain|].
  intros image_bytes response_text Hdecode Hreply Hloads.
  rewrite (analyze_photo_degrades w photo_b64 question _ _ Hdecode Hreply Hloads) in Hmain.
  exact Hmain.
Qed.

Lemma one_meta_event_per_analysis_witness :
  filter is_meta
    (puts (fst (Coordinator.run_pipeline quiet_world (JStr "AAAA") "Why?")))
  = [meta (JStr "General") (JStr "Unknown")].
Proof.
  apply (proj2 (one_meta_event_per_analysis quiet_world (JStr "AAAA") "Why?")
           (byte_string "jpeg") "not json"); reflexivity.
Defined.

(** a run whose Analysis degrades *)
Example degraded_analysis_meta :
  json_loads quiet_world (strip_fences "not json") = JSONDecodeError
  /\ snd (VisionAgent.analyze_photo quiet_world (JStr "AAAA") "What is this?")
     = Returned (VisionAgent.degraded "not json" "What is this?")
  /\ filter is_meta
       (puts (fst (Coordinator.run_pipeline quiet_world (JStr "AAAA") "What is this?")))
     = [meta (JStr "General") (JStr "Unknown")].
Proof. repeat split; vm_compute; reflexivity. Qed.

(* ===================================================================== *)
(** ** Degrading in Analysis *)

Example strip_fences_of_fenced_json :
  strip_fences (fence ++ "json" ++ newline ++ "{}" ++ newline ++ fence ++ newline)
  = "{}".
Proof. reflexivity. Qed.

Example split_on_fence :
  split (fence ++ "a" ++ fence ++ "b") fence = [EmptyString; "a"; "b"].
Proof. reflexivity. Qed.

Example strip_blanks :
  strip (String (ascii_of_nat 9) " oops " ++ newline) = "oops".
Proof. reflexivity. Qed.





(* ===================================================================== *)
(** ** What Scripting returns *)

Lemma generate_script_run (w : world) (vision_result : json) (reply : string) :
  is_dict vision_result ->
  generate_content w None (script_prompt_of w vision_result)
  = Returned (Some reply) ->
  snd (ScriptAgent.generate_script w vision_result)
  = match json_loads w (strip_fences reply) with
    | Decoded v =>
        match get1 v "title" with
        | Raised e => Raised e
        | Returned _ =>
            match get v "sections" (JList []) with
            | Raised e => Raised e
            | Returned sections =>
                match len sections with
                | Raised e => Raised e
                | Returned _ => Returned v
                end
            end
        end
    | JSONDecodeError => Returned (fallback_script w vision_result)
    | LoadsRaises e => Raised e
    end.
Proof.
  intros Hdict Hreply.
  destruct vision_result as [| | | | |kv]; try contradiction.
  unfold ScriptAgent.generate_script. cbn [get]. rewrite !bind_lift.
  change (ScriptAgent.SCRIPT_PROMPT _ _ _ _)
    with (script_prompt_of w (JDict kv)).
  rewrite Hreply. unfold call. rewrite bind_returned. cbn [fst snd response_raw].
  rewrite bind_lift.
  destruct (json_loads w (strip_fences reply)) as [v| |e].
  - unfold ret at 1. rewrite bind_returned. cbn [fst snd].
    destruct (get1 v "title") as [?|e]; [rewrite bind_lift | reflexivity].
    destruct (get v "sections" (JList [])) as [sections|e];
      [rewrite bind_lift | reflexivity].
    destruct (len sections) as [n|e]; [rewrite bind_lift | reflexivity].
    reflexivity.
  - reflexivity.
  - reflexivity.
Qed.



Example fallback_script_of_cells :
  fallback_script quiet_world vision_result_of_cells
  = JDict [ ("title", JStr "cells");
            ("intro", JStr "Let me explain this for you.");
            ("sections",
             JList [ JDict [ ("id", JInt 1);
                             ("narration", JStr "A diagram of a cell.");
                             ("image_prompt",
                              JStr "Educational diagram about cells, clean white background, colorful, labeled") ] ]);
            ("outro", JStr "I hope that helps!") ].
Proof. reflexivity. Qed.


(* ===================================================================== *)
(** ** One section's image *)

(** C5: for a section (a record at position [i]) whose prompt is a string
    [p], when the image model, asked with [STYLE_PREFIX] followed by [p],
    returns an image with bytes and storage returns a URL for those
    bytes, [generate_section_image] does exactly this, in this order:
    the call to the image model with the style-prefixed prompt, the
    upload of the returned bytes, and the [image_url] event with the
    section's id, the URL and the first 80 characters of [p] as caption. *)
Theorem section_image_is_generated_uploaded_announced
    (w : world) (i : nat) (section : json) (p : string)
    (image : bytes) (others : list bytes) (url : string) :
  is_dict section ->
  image_prompt_of section = JStr p ->
  generate_images w i (Imagen.STYLE_PREFIX ++ p) = Returned (image :: others) ->
  image <> [] ->
  upload_image_bytes w i image
    (VisualAgent.destination_name w (section_id_of section)) = Returned url ->
  VisualAgent.generate_section_image w i section
  = ([ GenerateImages (Imagen.STYLE_PREFIX ++ p);
       UploadImageBytes image
         (VisualAgent.destination_name w (section_id_of section));
       Put (image_url (section_id_of section) url (JStr (slice_to 80 p))) ],
     Returned (Some url)).
Proof.
  intros Hdict Hprompt Himages Hbytes Hurl.
  destruct section as [| | | | |kv]; try contradiction.
  unfold VisualAgent.generate_section_image.
  replace (get (JDict kv) "id" (JInt 0))
    with (Returned (section_id_of (JDict kv))) by reflexivity.
  replace (get (JDict kv) "image_prompt" (JStr "educational diagram"))
    with (Returned (image_prompt_of (JDict kv))) by reflexivity.
  rewrite !bind_lift, Hprompt.
  unfold Imagen.generate_image. cbn [Imagen.concat_str].
  rewrite bind_lift, Himages.
  destruct image as [|b image]; [contradiction Hbytes; reflexivity|].
  cbn [call bind try_except ret app].
  rewrite Hurl. reflexivity.
Qed.

Example first_section_image :
  VisualAgent.generate_section_image quiet_world 0 section_1
  = ([ GenerateImages
         "Educational illustration, clean white background, vibrant colors, clearly labeled, suitable for a student textbook, high detail: a cell";
       UploadImageBytes (byte_string "png") "section_1.png";
       Put (image_url (JInt 1) "https://storage/section_1.png" (JStr "a cell")) ],
     Returned (Some "https://storage/section_1.png")).
Proof. vm_compute. reflexivity. Qed.

Lemma section_image_is_generated_uploaded_announced_witness :
  VisualAgent.generate_section_image quiet_world 0 section_1
  = ([ GenerateImages (Imagen.STYLE_PREFIX ++ "a cell");
       UploadImageBytes (byte_string "png")
         (VisualAgent.destination_name quiet_world (section_id_of section_1));
       Put (image_url (section_id_of section_1) "https://storage/section_1.png"
              (JStr (slice_to 80 "a cell"))) ],
     Returned (Some "https://storage/section_1.png")).
Proof.
  apply (section_image_is_generated_uploaded_announced quiet_world 0 section_1
           "a cell" (byte_string "png") [] "https://storage/section_1.png").
  - exact I.
  - reflexivity.
  - reflexivity.
  - discriminate.
  - reflexivity.
Defined.

(* ===================================================================== *)
(** ** All sections' images *)

Lemma no_image_no_event (w : world) (i : nat) (section : json) :
  no_image w i section ->
  puts (fst (VisualAgent.generate_section_image w i section)) = [].
Proof.
  unfold no_image, VisualAgent.generate_section_image.
  destruct section as [| | | | |kv]; try reflexivity.
  replace (get (JDict kv) "image_prompt" (JStr "educational diagram"))
    with (Returned (image_prompt_of (JDict kv))) by reflexivity.
  cbn [get]. rewrite !bind_lift.
  pose proof (generate_image_emits w i (image_prompt_of (JDict kv))) as Hnone.
  apply emits_nothing in Hnone.
  destruct (Imagen.generate_image w i (image_prompt_of (JDict kv)))
    as [l [[[|b image]|]|e]]; cbn [fst snd] in *; intros H; try contradiction;
    cbn [bind try_except ret fst app]; rewrite ?app_nil_r; exact Hnone.
Qed.

Lemma tasks_nth (w : world) (items : list json) :
  forall k i section,
    nth_error items i = Some section ->
    nth_error (VisualAgent.tasks w k items) i
    = Some (VisualAgent.generate_section_image w (k + i) section).
Proof.
  induction items as [|s items IH]; intros k [|i] section; simpl;
    try discriminate.
  - intros [= ->]. rewrite Nat.add_0_r. reflexivity.
  - intros H. rewrite (IH (S k) i section H).
    rewrite Nat.add_succ_r. reflexivity.
Qed.

(** C6: for a script whose sections are a list, [generate_all_images]
    returns normally, and its log is a rearrangement of all the tasks'
    logs, the task at position [i] being [generate_section_image] of the
    [i]-th section run to its end: no attempt is cut short by another's
    failure.  A section whose image result is failed or empty enqueues
    nothing; every event of every section's attempt is among the events of
    the stage. *)
Theorem image_failures_are_independent
    (w : world) (script : json) (items : list json) :
  get script "sections" (JList []) = Returned (JList items) ->
  let run := VisualAgent.generate_all_images w script in
  snd run = Returned tt
  /\ Permutation (fst run) (concat (map fst (VisualAgent.tasks w 0 items)))
  /\ forall i section,
       nth_error items i = Some section ->
       nth_error (VisualAgent.tasks w 0 items) i
       = Some (VisualAgent.generate_section_image w i section)
       /\ (no_image w i section ->
           puts (fst (VisualAgent.generate_section_image w i section)) = [])
       /\ (forall e,
             In e (puts (fst (VisualAgent.generate_section_image w i section))) ->
             In e (puts (fst run))).
Proof.
  intros Hsections run.
  assert (Hrun : snd run = Returned tt
                 /\ Permutation (fst run)
                      (concat (map fst (VisualAgent.tasks w 0 items)))).
  { subst run. unfold VisualAgent.generate_all_images.
    rewrite Hsections, bind_lift.
    destruct items as [|s items]; [split; reflexivity|].
    cbn [truthy negb iter]. rewrite bind_lift.
    split; [reflexivity|]. apply interleave_perm. }
  destruct Hrun as [Hret Hperm].
  split; [exact Hret|]. split; [exact Hperm|].
  intros i section Hnth.
  pose proof (tasks_nth w items 0 i section Hnth) as Htask.
  split; [exact Htask|]. split; [apply no_image_no_event|].
  intros e He. apply In_puts. apply In_puts in He.
  eapply Permutation_in; [symmetry; exact Hperm|].
  apply in_concat. eexists. split; [|exact He].
  apply in_map. eapply nth_error_In. exact Htask.
Qed.

(** a forced failure on section 2 of a 3-section script *)
Example images_for_sections_1_and_3 :
  puts (fst (VisualAgent.generate_all_images world_failing_second_image
               script_of_three))
  = [ image_url (JInt 3) "https://storage/section_3.png" (JStr "a root");
      image_url (JInt 1) "https://storage/section_1.png" (JStr "a cell") ].
Proof. vm_compute. reflexivity. Qed.

Lemma image_failures_are_independent_witness :
  let run := VisualAgent.generate_all_images world_failing_second_image
               script_of_three in
  snd run = Returned tt
  /\ Permutation (fst run)
       (concat (map fst (VisualAgent.tasks world_failing_second_image 0
                           [section_1; section_2; section_3])))
  /\ forall i section,
       nth_error [section_1; section_2; section_3] i = Some section ->
       nth_error (VisualAgent.tasks world_failing_second_image 0
                    [section_1; section_2; section_3]) i
       = Some (VisualAgent.generate_section_image world_failing_second_image i section)
       /\ (no_image world_failing_second_image i section ->
           puts (fst (VisualAgent.generate_section_image
                        world_failing_second_image i section)) = [])
       /\ (forall e,
             In e (puts (fst (VisualAgent.generate_section_image
                                world_failing_second_image i section))) ->
             In e (puts (fst run))).
Proof.
  apply (image_failures_are_independent world_failing_second_image
           script_of_three [section_1; section_2; section_3]).
  reflexivity.
Defined.

(* ===================================================================== *)
(** ** Sections without an id, scripts without sections *)

Lemma chunk_tagged (section_id : json) (e : event) :
  chunk section_id e -> tagged section_id e.
Proof. intros [[d ->]|[c ->]]; reflexivity. Qed.

Lemma chunk_is_not_marker (section_id : json) (e : event) :
  chunk section_id e -> is_marker e = false.
Proof. intros [[d ->]|[c ->]]; reflexivity. Qed.

Lemma receive_loop_chunks (w : world) (section_id : json) (rs : receive) :
  emits (chunk section_id) (GeminiLive.receive_loop w section_id rs).
Proof.
  induction rs as [r rest IH| |e]; cbn [GeminiLive.receive_loop].
  - repeat emits_step. destruct (turn_complete r); [emits_step | exact IH].
  - emits_step.
  - emits_step.
Qed.

Lemma narrate_text_chunks (w : world) (sent : list json) (txt section_id : json) :
  emits (chunk section_id) (GeminiLive._narrate_text w sent txt section_id).
Proof.
  unfold GeminiLive._narrate_text. do 2 (emits_step; [emits_step|]).
  apply receive_loop_chunks.
Qed.

(** C9: a section record without an "id" entry is processed under id 0
    by both stages.  Every event [generate_section_image] enqueues for it
    carries id 0.  [narrate_sections] brackets it with [section_start 0]
    and [section_end 0] and narrates it by the call that narrates the
    intro, [_narrate_text] under id 0, so that every event of the section
    carries id 0, as every event of an intro does. *)
Theorem section_without_id_is_processed_under_intro_id
    (w : world) (i : nat) (sent : list json) (kv : list (string * json)) :
  lookup "id" kv = None ->
  let section := JDict kv in
  section_id_of section = JInt 0
  /\ emits (tagged (JInt 0)) (VisualAgent.generate_section_image w i section)
  /\ GeminiLive.narrate_sections w sent [section]
     = (put (section_start (JInt 0)) ;;
        GeminiLive._narrate_text w sent (narration_of section) (JInt 0) ;;
        put (section_end (JInt 0)) ;;
        ret (sent ++ [narration_of section]))%py
  /\ emits (tagged (JInt 0)) (GeminiLive.narrate_sections w sent [section])
  /\ forall intro,
       emits (tagged (JInt 0)) (GeminiLive._narrate_text w [] intro (JInt 0)).
Proof.
  intros Hid section.
  assert (Hget : get section "id" (JInt 0) = Returned (JInt 0)).
  { subst section. cbn [get]. rewrite Hid. reflexivity. }
  assert (Htext : forall sent' txt,
             emits (tagged (JInt 0))
               (GeminiLive._narrate_text w sent' txt (JInt 0))).
  { intros sent' txt. eapply emits_weaken; [apply chunk_tagged|].
    apply narrate_text_chunks. }
  assert (Hnarr : GeminiLive.narrate_sections w sent [section]
                  = (put (section_start (JInt 0)) ;;
                     GeminiLive._narrate_text w sent (narration_of section) (JInt 0) ;;
                     put (section_end (JInt 0)) ;;
                     ret (sent ++ [narration_of section]))%py).
  { cbn [GeminiLive.narrate_sections]. rewrite Hget, bind_lift.
    replace (get section "narration" (JStr EmptyString))
      with (Returned (narration_of section)) by reflexivity.
    rewrite bind_lift. reflexivity. }
  split; [unfold section_id_of, get_or; rewrite Hget; reflexivity|].
  split.
  { unfold VisualAgent.generate_section_image. rewrite Hget, bind_lift.
    emits_step; [emits_step|].
    emits_step; [|emits_step].
    emits_step.
    { eapply emits_weaken; [|apply generate_image_emits]. intros e []. }
    match goal with
    | |- emits _ (match ?o with _ => _ end) => destruct o as [[|]|]
    end; repeat emits_step. }
  split; [exact Hnarr|].
  split; [|intros intro; apply Htext].
  rewrite Hnarr.
  emits_step; [emits_step|].
  emits_step; [apply Htext|].
  emits_step; emits_step.
Qed.

Lemma section_without_id_is_processed_under_intro_id_witness :
  let section := bare_section in
  section_id_of section = JInt 0
  /\ emits (tagged (JInt 0))
       (VisualAgent.generate_section_image quiet_world 0 section)
  /\ GeminiLive.narrate_sections quiet_world [] [section]
     = (put (section_start (JInt 0)) ;;
        GeminiLive._narrate_text quiet_world [] (narration_of section) (JInt 0) ;;
        put (section_end (JInt 0)) ;;
        ret ([] ++ [narration_of section]))%py
  /\ emits (tagged (JInt 0))
       (GeminiLive.narrate_sections quiet_world [] [section])
  /\ forall intro,
       emits (tagged (JInt 0))
         (GeminiLive._narrate_text quiet_world [] intro (JInt 0)).
Proof.
  apply (section_without_id_is_processed_under_intro_id quiet_world 0 []
           [("narration", JStr "n")]).
  reflexivity.
Defined.

Example bare_section_events :
  puts (fst (VisualAgent.generate_section_image quiet_world 0 bare_section))
  = [ image_url (JInt 0) "https://storage/section_0.png"
        (JStr "educational diagram") ]
  /\ puts (fst (GeminiLive.narrate_sections quiet_world [] [bare_section]))
     = [ section_start (JInt 0); audio (JInt 0) "pcm"; text (JInt 0) "hello";
         section_end (JInt 0) ]
  /\ puts (fst (GeminiLive._narrate_text quiet_world [] (JStr "hi") (JInt 0)))
     = [ audio (JInt 0) "pcm"; text (JInt 0) "hello" ].
Proof. repeat split; vm_compute; reflexivity. Qed.

Lemma narrate_script_connects_first (w : world) (script : json) :
  is_dict script ->
  exists rest, fst (GeminiLive.narrate_script w script) = LiveConnect :: rest.
Proof.
  destruct script as [| | | | |kv]; try contradiction. intros _.
  unfold GeminiLive.narrate_script. cbn [get]. rewrite !bind_lift.
  unfold GeminiLive.with_session, call.
  destruct (live_connect w) as [[]|e].
  - rewrite bind_returned.
    match goal with
    | |- context [try_except (?l ++ ?l', ?r) ?h] =>
        destruct r as [a|e']; cbn [try_except app]
    end.
    + eexists. reflexivity.
    + match goal with
      | |- context [let (_, _) := ?m in _] => destruct m
      end. eexists. reflexivity.
  - rewrite bind_raised. cbn [try_except put app fst]. eexists. reflexivity.
Qed.

(** C10: for a script (a record) whose sections are missing or the empty
    list, [generate_all_images] returns at once with an empty log, and
    [narrate_script] returns normally, its first action being the
    connect to the speech session, without any [section_start] or
    [section_end] event; with an intro and an outro that are strings
    where they are truthy and a session that opens, answers and closes,
    its log is the connect, the intro (if truthy) and the chunks of its
    turn under id 0, the outro (if truthy) and the chunks of its turn
    under id -1, the close: no [error] event. *)
Theorem empty_script_is_narrated_without_sections
    (w : world) (script : json) :
  get script "sections" (JList []) = Returned (JList []) ->
  VisualAgent.generate_all_images w script = ([], Returned tt)
  /\ snd (GeminiLive.narrate_script w script) = Returned tt
  /\ (exists rest, fst (GeminiLive.narrate_script w script) = LiveConnect :: rest)
  /\ filter is_marker (puts (fst (GeminiLive.narrate_script w script))) = []
  /\ (session_ok w ->
      Forall is_text (utterances script []) ->
      let sent := if truthy (intro_of script) then [intro_of script] else [] in
      let intro_chunks := heard w [] (intro_of script) (JInt 0) in
      let outro_chunks := heard w sent (outro_of script) (JInt (-1)) in
      GeminiLive.narrate_script w script
      = (LiveConnect
           :: aside (intro_of script) intro_chunks
           ++ aside (outro_of script) outro_chunks
           ++ [LiveClose],
         Returned tt)
      /\ Forall (chunk (JInt 0)) intro_chunks
      /\ Forall (chunk (JInt (-1))) outro_chunks
      /\ filter is_error (puts (fst (GeminiLive.narrate_script w script))) = []).
Proof.
  intros Hsections.
  pose proof (get_returned _ _ _ _ Hsections) as Hdict.
  split.
  { unfold VisualAgent.generate_all_images. rewrite Hsections, bind_lift.
    reflexivity. }
  split; [apply narrate_script_returns, Hdict|].
  split; [apply narrate_script_connects_first, Hdict|].
  split.
  - assert (H : emits (fun e => is_marker e = false)
                  (GeminiLive.narrate_script w script)).
    { unfold GeminiLive.narrate_script. rewrite Hsections, bind_lift.
      do 2 (emits_step; [emits_step|]).
      emits_step; [|emits_step].
      apply with_session_emits.
      emits_step.
      { match goal with |- emits _ (if ?b then _ else _) => destruct b end;
          [|emits_step].
        emits_step; [|emits_step].
        eapply emits_weaken; [apply chunk_is_not_marker|].
        apply narrate_text_chunks. }
      cbn [iter]. rewrite bind_lift. cbn [GeminiLive.narrate_sections].
      emits_step; [emits_step|]. emits_step.
      eapply emits_weaken; [apply chunk_is_not_marker|].
      apply narrate_text_chunks. }
    unfold emits in H. induction H as [|e l He _ IH]; [reflexivity|].
    cbn [filter]. rewrite He. exact IH.
  - intros Hok Htexts sent intro_chunks outro_chunks.
    pose proof (narrate_script_blocks w script [] Hok Hsections
                  (Forall_nil _) Htexts) as Hrun.
    cbn [combine flat_map map app hearings] in Hrun.
    rewrite app_nil_r in Hrun.
    split; [exact Hrun|].
    split; [apply heard_chunks|].
    split; [apply heard_chunks|].
    rewrite Hrun. cbn [fst puts].
    rewrite !puts_app, !filter_app.
    rewrite (chunks_are_not_errors _ _ _ (heard_chunks w _ _ _)).
    rewrite (chunks_are_not_errors _ _ _ (heard_chunks w _ _ _)).
    reflexivity.
Qed.

(** a script without sections narrated by a session that answers *)
Lemma empty_script_is_narrated_without_sections_witness :
  VisualAgent.generate_all_images quiet_world script_without_sections
  = ([], Returned tt)
  /\ GeminiLive.narrate_script quiet_world script_without_sections
     = (LiveConnect
          :: aside (JStr "hi") (heard quiet_world [] (JStr "hi") (JInt 0))
          ++ aside (JStr "bye")
               (heard quiet_world [JStr "hi"] (JStr "bye") (JInt (-1)))
          ++ [LiveClose],
        Returned tt)
  /\ filter is_error
       (puts (fst (GeminiLive.narrate_script quiet_world script_without_sections)))
     = [].
Proof.
  destruct (empty_script_is_narrated_without_sections quiet_world
              script_without_sections eq_refl)
    as (Hmedia & _ & _ & _ & Hnarration).
  split; [exact Hmedia|].
  assert (Hok : session_ok quiet_world).
  { split; [reflexivity|]. split; [|reflexivity].
    intros sent. split; reflexivity. }
  assert (Htexts : Forall is_text (utterances script_without_sections [])).
  { repeat (apply Forall_cons; [exact I|]). apply Forall_nil. }
  destruct (Hnarration Hok Htexts) as (Hrun & _ & _ & Herrors).
  split; [exact Hrun | exact Herrors].
Defined.

Example script_without_sections_run :
  fst (GeminiLive.narrate_script quiet_world script_without_sections)
  = [ LiveConnect;
      SendClientContent (JStr "hi");
      Put (audio (JInt 0) "pcm"); Put (text (JInt 0) "hello");
      SendClientContent (JStr "bye");
      Put (audio (JInt (-1)) "pcm"); Put (text (JInt (-1)) "hello");
      LiveClose ].
Proof. vm_compute. reflexivity. Qed.

(* ===================================================================== *)
(** ** The session controller *)

Section Controller.

Import WebSocket.

Variable loads : string -> loaded.
Variable unwinding : task -> list event.


End Controller.


Example second_question_replaces_the_job :
  WebSocket.receive_text (fun _ => Decoded (question_message " Why? "))
    no_unwinding running_state "frame"
  = ([ WebSocket.TaskCancel (WebSocket.Task (JStr "AAAA") "first" false);
       WebSocket.TaskAwait (WebSocket.Task (JStr "AAAA") "first" false);
       WebSocket.QueueGetNowait (Some (status "Analyzing your image..."));
       WebSocket.QueueGetNowait (Some (meta (JStr "Biology") (JStr "cells")));
       WebSocket.CreateTask (WebSocket.Task (JStr "AAAA") "Why?" false) ],
     WebSocket.State (JStr "AAAA")
       (Some (WebSocket.Task (JStr "AAAA") "Why?" false)) [],
     WebSocket.Continue).
Proof. vm_compute. reflexivity. Qed.


(* ===================================================================== *)
(** ** The section markers of a narration *)

Lemma fst_bind {A B} (m : M A) (f : A -> M B) :
  fst (bind m f)
  = fst m ++ match snd m with
             | Returned a => fst (f a)
             | Raised _ => []
             end.
Proof.
  destruct m as [l [a|e]]; simpl.
  - destruct (f a); reflexivity.
  - rewrite app_nil_r. reflexivity.
Qed.

Lemma fst_try_except {A} (m : M A) (h : exn -> M A) :
  fst (try_except m h)
  = fst m ++ match snd m with
             | Returned _ => []
             | Raised e => fst (h e)
             end.
Proof.
  destruct m as [l [a|e]]; simpl.
  - rewrite app_nil_r. reflexivity.
  - destruct (h e); reflexivity.
Qed.

Lemma marks_app (l l' : list action) : marks (l ++ l') = marks l ++ marks l'.
Proof. unfold marks. rewrite puts_app, filter_app. reflexivity. Qed.

Lemma narrate_text_marks (w : world) (sent : list json) (txt section_id : json) :
  marks (fst (GeminiLive._narrate_text w sent txt section_id)) = [].
Proof.
  eapply chunk_not_marker. apply narrate_text_chunks.
Qed.

(** Whatever the session does, the markers emitted are the first ones of
    the markers of the sections. *)
Lemma narrate_sections_marks (w : world) (sections : list json) :
  forall sent, exists rest,
    flat_map markers sections
    = marks (fst (GeminiLive.narrate_sections w sent sections)) ++ rest.
Proof.
  induction sections as [|section sections IH]; intros sent.
  - exists []. reflexivity.
  - cbn [GeminiLive.narrate_sections flat_map].
    destruct section as [| | | | |kv];
      try (eexists; cbn [get lift bind fst marks puts filter app]; reflexivity).
    replace (get (JDict kv) "id" (JInt 0))
      with (Returned (section_id_of (JDict kv))) by reflexivity.
    replace (get (JDict kv) "narration" (JStr EmptyString))
      with (Returned (narration_of (JDict kv))) by reflexivity.
    rewrite !bind_lift, fst_bind. cbn [put fst snd].
    rewrite fst_bind, !marks_app, narrate_text_marks.
    destruct (snd (GeminiLive._narrate_text w sent (narration_of (JDict kv))
                     (section_id_of (JDict kv)))) as [[]|e].
    + rewrite fst_bind. cbn [put fst snd]. rewrite marks_app.
      destruct (IH (sent ++ [narration_of (JDict kv)])) as (rest & Hrest).
      exists rest. unfold markers at 1. rewrite Hrest. reflexivity.
    + eexists. unfold markers at 1. reflexivity.
Qed.

Lemma fst_with_session {A} (w : world) (body : M A) :
  fst (GeminiLive.with_session w body)
  = LiveConnect :: match live_connect w with
                   | Returned _ => fst body ++ [LiveClose]
                   | Raised _ => []
                   end.
Proof.
  unfold GeminiLive.with_session. rewrite fst_bind. cbn [call fst snd app].
  destruct (live_connect w); [destruct body|]; reflexivity.
Qed.

Lemma narrate_script_marks (w : world) (script : json) (sections : list json) :
  get script "sections" (JList []) = Returned (JList sections) ->
  exists rest,
    flat_map markers sections
    = marks (fst (GeminiLive.narrate_script w script)) ++ rest.
Proof.
  intros Hsections.
  pose proof (get_returned _ _ _ _ Hsections) as Hdict.
  destruct script as [| | | | |kv]; try contradiction.
  unfold GeminiLive.narrate_script. rewrite Hsections.
  cbn [get]. rewrite !bind_lift.
  set (intro := match lookup "intro" kv with Some v => v | None => JStr EmptyString end).
  set (outro := match lookup "outro" kv with Some v => v | None => JStr EmptyString end).
  rewrite fst_try_except, marks_app.
  match goal with
  | |- context [marks match ?o with Returned _ => [] | Raised e => _ end] =>
      replace (marks match o with Returned _ => [] | Raised e =>
                 fst (put (error ("Narration error: " ++ exn_str e))) end)
        with (@nil event) by (destruct o; reflexivity)
  end.
  rewrite app_nil_r.
  rewrite fst_with_session.
  destruct (live_connect w) as [[]|e]; [|exists (flat_map markers sections); reflexivity].
  change (marks (LiveConnect :: ?l)) with (marks l).
  rewrite !marks_app.
  change (marks [LiveClose]) with (@nil event).
  rewrite app_nil_r.
  rewrite fst_bind, marks_app.
  match goal with
  | |- context [marks (fst ?m) ++ marks match snd ?m with _ => _ end] =>
      assert (Hintro : marks (fst m) = []);
      [|rewrite Hintro; cbn [app];
        destruct (snd m) as [sent|e];
        [|exists (flat_map markers sections); reflexivity]]
  end.
  { destruct (truthy intro); [|reflexivity].
    rewrite fst_bind, marks_app, narrate_text_marks.
    destruct (snd (GeminiLive._narrate_text w [] intro (JInt 0))); reflexivity. }
  cbn [iter]. rewrite bind_lift, fst_bind, marks_app.
  destruct (narrate_sections_marks w sections sent) as (rest & Hrest).
  destruct (snd (GeminiLive.narrate_sections w sent sections)) as [sent'|e].
  - assert (Houtro : marks (fst (when (truthy outro)
                                   (GeminiLive._narrate_text w sent' outro (JInt (-1)))))
                     = []).
    { destruct (truthy outro); [apply narrate_text_marks | reflexivity]. }
    rewrite Houtro, app_nil_r. exists rest. exact Hrest.
  - rewrite app_nil_r. exists rest. exact Hrest.
Qed.

(** C1: for a script whose sections are a list, the [section_start] and
    [section_end] events [narrate_script] enqueues are, whatever the
    session does and whatever the texts are, the first ones of the
    sequence that has one start/end pair per section in document order.
    With sections that are records, texts that are strings and a Live
    session that opens, answers every turn and closes, [narrate_script]
    returns and its log is: the connect; the intro (if truthy) sent and
    the chunks of its turn under id 0; then for each section in document
    order one block [section_start id], the narration sent, the chunks
    of its turn under that section's id, [section_end id]; then the
    outro (if truthy) and the chunks of its turn under id -1; the close.
    The chunks of a turn are, for each unit the session yields up to the
    one that completes the turn, in the order they arrive, an [audio]
    event if the unit has data and a [text] event if it has text.  The
    markers are then exactly one pair per section, in document order,
    none for the intro or the outro. *)
Theorem narration_is_one_block_per_section
    (w : world) (script : json) (sections : list json) :
  get script "sections" (JList []) = Returned (JList sections) ->
  (exists rest,
     flat_map markers sections
     = marks (fst (GeminiLive.narrate_script w script)) ++ rest)
  /\ (session_ok w ->
      Forall is_dict sections ->
      Forall is_text (utterances script sections) ->
      let sent := if truthy (intro_of script) then [intro_of script] else [] in
      let intro_chunks := heard w [] (intro_of script) (JInt 0) in
      let bodies := hearings w sent sections in
      let outro_chunks :=
        heard w (sent ++ map narration_of sections) (outro_of script) (JInt (-1)) in
      GeminiLive.narrate_script w script
      = (LiveConnect
           :: aside (intro_of script) intro_chunks
           ++ flat_map block (combine sections bodies)
           ++ aside (outro_of script) outro_chunks
           ++ [LiveClose],
         Returned tt)
      /\ Forall (chunk (JInt 0)) intro_chunks
      /\ Forall2 (fun section body => Forall (chunk (section_id_of section)) body)
                 sections bodies
      /\ Forall (chunk (JInt (-1))) outro_chunks
      /\ marks (fst (GeminiLive.narrate_script w script))
         = flat_map markers sections).
Proof.
  intros Hsections. split.
  - apply narrate_script_marks, Hsections.
  - intros Hok Hdicts Htexts sent intro_chunks bodies outro_chunks.
    pose proof (narrate_script_blocks w script sections Hok Hsections
                  Hdicts Htexts) as Hrun.
    split; [exact Hrun|].
    split; [apply heard_chunks|].
    split; [apply hearings_chunks|].
    split; [apply heard_chunks|].
    rewrite Hrun. cbn [fst]. apply narrated_marks.
Qed.

(** the two-section script narrated by a session that answers *)
Lemma narration_is_one_block_per_section_witness :
  GeminiLive.narrate_script quiet_world script_of_two
  = (LiveConnect
       :: aside (JStr "hi") (heard quiet_world [] (JStr "hi") (JInt 0))
       ++ flat_map block
            (combine [section_1; section_2]
               (hearings quiet_world [JStr "hi"] [section_1; section_2]))
       ++ aside (JStr "bye")
            (heard quiet_world [JStr "hi"; JStr "one"; JStr "two"]
               (JStr "bye") (JInt (-1)))
       ++ [LiveClose],
     Returned tt)
  /\ marks (fst (GeminiLive.narrate_script quiet_world script_of_two))
     = [ section_start (JInt 1); section_end (JInt 1);
         section_start (JInt 2); section_end (JInt 2) ].
Proof.
  destruct (narration_is_one_block_per_section quiet_world script_of_two
              [section_1; section_2] eq_refl) as [_ Hblocks].
  assert (Hok : session_ok quiet_world).
  { split; [reflexivity|]. split; [|reflexivity].
    intros sent. split; reflexivity. }
  assert (Hdicts : Forall is_dict [section_1; section_2]).
  { repeat (apply Forall_cons; [exact I|]). apply Forall_nil. }
  assert (Htexts : Forall is_text (utterances script_of_two [section_1; section_2])).
  { repeat (apply Forall_cons; [exact I|]). apply Forall_nil. }
  destruct (Hblocks Hok Hdicts Htexts) as (Hrun & _ & _ & _ & Hmarks).
  split; [exact Hrun | exact Hmarks].
Defined.

(** a narration that is a number: the section is opened, nothing is
    sent, the session is closed and the failure reported *)
Example narration_that_is_not_a_string :
  GeminiLive.narrate_script quiet_world
    (JDict [ ("sections",
              JList [ JDict [ ("id", JInt 1); ("narration", JInt 5) ] ]) ])
  = ([ LiveConnect;
       Put (section_start (JInt 1));
       LiveClose;
       Put (error "Narration error: 1 validation error for Part") ],
     Returned tt).
Proof. vm_compute. reflexivity. Qed.

(** a session that breaks while the first section is narrated *)
Example narration_cut_short :
  GeminiLive.narrate_script world_of_broken_session script_of_two
  = ([ LiveConnect;
       SendClientContent (JStr "hi");
       Put (audio (JInt 0) "pcm"); Put (text (JInt 0) "hello");
       Put (section_start (JInt 1));
       SendClientContent (JStr "one");
       Put (audio (JInt 1) "pcm");
       LiveClose;
       Put (error "Narration error: 1011 internal error") ],
     Returned tt).
Proof. vm_compute. reflexivity. Qed.

(* ===================================================================== *)
(** ** A whole run *)

(** Both models answer in prose: Analysis and Scripting degrade, the
    fallback script is illustrated and narrated, the run ends with
    [done]. *)
Example run_with_fallbacks :
  puts (fst (Coordinator.run_pipeline quiet_world (JStr "AAAA") "Why?"))
  = [ status "Analyzing your image...";
      meta (JStr "General") (JStr "Unknown");
      status "Preparing your explainer...";
      title (JStr "Unknown");
      image_url (JInt 1) "https://storage/section_1.png"
        (JStr "Educational diagram about Unknown, clean white background, colorful, labeled");
      audio (JInt 0) "pcm"; text (JInt 0) "hello";
      section_start (JInt 1);
      audio (JInt 1) "pcm"; text (JInt 1) "hello";
      section_end (JInt 1);
      audio (JInt (-1)) "pcm"; text (JInt (-1)) "hello";
      done ].
Proof. vm_compute. reflexivity. Qed.

(* ===================================================================== *)
(** ** Trimming and unfencing a reply *)

Lemma lstrip_starts_clean (s : string) : starts_clean (lstrip s).
Proof.
  induction s as [|c s IH]; simpl; [exact I|].
  destruct (isspace c) eqn:E; [exact IH | exact E].
Qed.

Lemma lstrip_clean (s : string) : starts_clean s -> lstrip s = s.
Proof. destruct s as [|c s]; simpl; [reflexivity|]. intros ->. reflexivity. Qed.

Lemma rstrip_starts_clean (s : string) : starts_clean s -> starts_clean (rstrip s).
Proof.
  destruct s as [|c s]; simpl; [auto|]. intros Hc.
  destruct (rstrip s); [rewrite Hc|]; exact Hc.
Qed.

Lemma rstrip_idempotent (s : string) : rstrip (rstrip s) = rstrip s.
Proof.
  induction s as [|c s IH]; simpl; [reflexivity|].
  destruct (rstrip s) as [|d r] eqn:E.
  - destruct (isspace c) eqn:Hc; simpl; [reflexivity|]. rewrite Hc. reflexivity.
  - cbn [rstrip]. fold rstrip. cbn [rstrip] in IH. fold rstrip in IH.
    rewrite IH. reflexivity.
Qed.

Lemma strip_idempotent (s : string) : strip (strip s) = strip s.
Proof.
  unfold strip.
  rewrite (lstrip_clean (rstrip (lstrip s))).
  - apply rstrip_idempotent.
  - apply rstrip_starts_clean, lstrip_starts_clean.
Qed.

Lemma append_assoc_s (a b c : string) : ((a ++ b) ++ c = a ++ (b ++ c))%string.
Proof. induction a as [|x a IH]; simpl; [reflexivity|]. rewrite IH. reflexivity. Qed.

Lemma prefix_fence_app (tail : string) :
  String.prefix fence (fence ++ tail) = true.
Proof. destruct tail; reflexivity. Qed.

Lemma prefix_fence_cons (c : ascii) (s : string) :
  c <> ascii_of_nat 96 -> String.prefix fence (String c s) = false.
Proof.
  intros Hc. unfold fence.
  destruct s; cbn [String.prefix];
    match goal with
    | |- context [ascii_dec ?a c] => destruct (ascii_dec a c) as [E|E]
    end; try reflexivity; exfalso; apply Hc; rewrite <- E; reflexivity.
Qed.

Lemma split_aux_cons (sep : string) (c : ascii) (s : string) :
  split_aux sep 0 (String c s)
  = if String.prefix sep (String c s)
    then let (p, ps) := split_aux sep (String.length sep - 1) s in
         (EmptyString, p :: ps)
    else let (p, ps) := split_aux sep 0 s in (String c p, ps).
Proof. reflexivity. Qed.

Lemma split_aux_at_fence (tail : string) :
  split_aux fence 0 (fence ++ tail)
  = let (p, ps) := split_aux fence 0 tail in (EmptyString, p :: ps).
Proof.
  change (fence ++ tail)%string
    with (String (ascii_of_nat 96)
            (String (ascii_of_nat 96) (String (ascii_of_nat 96) tail))).
  rewrite split_aux_cons.
  change (String (ascii_of_nat 96)
            (String (ascii_of_nat 96) (String (ascii_of_nat 96) tail)))
    with (fence ++ tail)%string.
  rewrite prefix_fence_app. reflexivity.
Qed.

Lemma split_aux_to_fence (body tail : string) :
  no_backtick body ->
  fst (split_aux fence 0 (body ++ fence ++ tail)) = body.
Proof.
  induction body as [|c body IH]; intros Hb.
  - cbn [append]. rewrite split_aux_at_fence.
    destruct (split_aux fence 0 tail). reflexivity.
  - destruct Hb as [Hc Hb]. cbn [append]. rewrite split_aux_cons.
    rewrite (prefix_fence_cons c _ Hc).
    specialize (IH Hb). destruct (split_aux fence 0 (body ++ fence ++ tail)).
    cbn [fst] in *. rewrite IH. reflexivity.
Qed.

Lemma split_fenced (body tail : string) :
  no_backtick body ->
  nth 1 (split (fence ++ body ++ fence ++ tail) fence) EmptyString = body.
Proof.
  intros Hb. unfold split. rewrite split_aux_at_fence.
  pose proof (split_aux_to_fence body tail Hb) as H.
  destruct (split_aux fence 0 (body ++ fence ++ tail)) as [p ps].
  exact H.
Qed.

Lemma split_aux_no_fence (s : string) :
  no_backtick s -> split_aux fence 0 s = (s, []).
Proof.
  induction s as [|c s IH]; intros Hs; [reflexivity|].
  destruct Hs as [Hc Hs]. rewrite split_aux_cons, (prefix_fence_cons c s Hc).
  rewrite (IH Hs). reflexivity.
Qed.

(** The inner text of a fence, as the agents keep it: without the tag
    [json]. *)
Lemma untagged_after_fence (inner : string) :
  (if startswith inner "json" then slice_from 4 inner else inner)
  = if String.prefix "json" inner then slice_from 4 inner else inner.
Proof. reflexivity. Qed.

(** X1: the text the agents parse has no whitespace around it: trimming
    it again changes nothing, and it does not begin with whitespace.  For
    a reply that, once trimmed, does not begin with a code fence, it is
    the trimmed reply. *)
Theorem cleaned_reply_is_trimmed (response_text : string) :
  strip (strip_fences response_text) = strip_fences response_text
  /\ starts_clean (strip_fences response_text)
  /\ (startswith (strip response_text) fence = false ->
      strip_fences response_text = strip response_text).
Proof.
  split; [|split].
  - unfold strip_fences. apply strip_idempotent.
  - unfold strip_fences, strip at 1.
    apply rstrip_starts_clean, lstrip_starts_clean.
  - intros Hf. unfold strip_fences. rewrite Hf. apply strip_idempotent.
Qed.

Lemma cleaned_reply_is_trimmed_witness :
  strip (strip_fences " oops ") = strip_fences " oops "
  /\ starts_clean (strip_fences " oops ")
  /\ (startswith (strip " oops ") fence = false ->
      strip_fences " oops " = strip " oops ").
Proof. exact (cleaned_reply_is_trimmed " oops "). Defined.

(** X2: for a reply that, once trimmed, is a code fence, an inner text
    without backticks, a closing fence and anything after it, the agents
    parse the inner text, without the tag [json] if it begins with it,
    trimmed; what follows the closing fence is dropped.  When the fence
    is never closed, everything after it is taken as the inner text. *)
Theorem fenced_reply_is_unwrapped (response_text inner tail : string) :
  no_backtick inner ->
  (strip response_text = (fence ++ inner ++ fence ++ tail)%string ->
   strip_fences response_text
   = strip (if startswith inner "json" then slice_from 4 inner else inner))
  /\ (strip response_text = (fence ++ inner)%string ->
      strip_fences response_text
      = strip (if startswith inner "json" then slice_from 4 inner else inner)).
Proof.
  intros Hinner. split; intros Hreply; unfold strip_fences; rewrite Hreply.
  - unfold startswith at 1. rewrite prefix_fence_app.
    rewrite (split_fenced inner tail Hinner). reflexivity.
  - unfold startswith at 1. rewrite prefix_fence_app.
    unfold split. rewrite split_aux_at_fence.
    rewrite (split_aux_no_fence inner Hinner). reflexivity.
Qed.

Lemma fenced_reply_is_unwrapped_witness :
  (strip padded_fenced_reply
   = (fence ++ ("json" ++ newline ++ "{}" ++ newline) ++ fence
      ++ (newline ++ "Hope this helps!"))%string ->
   strip_fences padded_fenced_reply
   = strip (if startswith ("json" ++ newline ++ "{}" ++ newline) "json"
            then slice_from 4 ("json" ++ newline ++ "{}" ++ newline)
            else ("json" ++ newline ++ "{}" ++ newline)%string))
  /\ (strip padded_fenced_reply
      = (fence ++ ("json" ++ newline ++ "{}" ++ newline))%string ->
      strip_fences padded_fenced_reply
      = strip (if startswith ("json" ++ newline ++ "{}" ++ newline) "json"
               then slice_from 4 ("json" ++ newline ++ "{}" ++ newline)
               else ("json" ++ newline ++ "{}" ++ newline)%string)).
Proof.
  apply (fenced_reply_is_unwrapped padded_fenced_reply
           ("json" ++ newline ++ "{}" ++ newline)%string
           (newline ++ "Hope this helps!")%string).
  cbn. repeat split; discriminate.
Defined.

Example padded_fenced_reply_cleaned :
  strip_fences padded_fenced_reply = "{}".
Proof. reflexivity. Qed.

(* ===================================================================== *)
(** ** Blob names *)

Lemma append_same_length (a b x y : string) :
  String.length a = String.length b ->
  (a ++ x = b ++ y)%string -> a = b /\ x = y.
Proof.
  revert b. induction a as [|c a IH]; intros [|d b]; simpl; try discriminate.
  - auto.
  - intros [= Hlen] [= -> Happ]. destruct (IH b Hlen Happ) as [-> ->]. auto.
Qed.

Lemma prefix_append (a b : string) : String.prefix a (a ++ b) = true.
Proof.
  induction a as [|c a IH]; [destruct b; reflexivity|].
  cbn. destruct (ascii_dec c c) as [_|E]; [exact IH | contradiction E; auto].
Qed.

(** X3: two uploads whose uuids have the same length (32 hexadecimal
    digits) and whose blob names coincide have the same uuid and the same
    suggested name: under one suggested name, uploads with different
    uuids go to different blobs.  Every blob name begins with
    "images/". *)
Theorem blob_names_differ_with_uuids
    (hex1 hex2 : string) (name1 name2 : option string) :
  String.length hex1 = String.length hex2 ->
  (Storage.blob_name hex1 name1 = Storage.blob_name hex2 name2 ->
   hex1 = hex2 /\ name1 = name2)
  /\ String.prefix "images/" (Storage.blob_name hex1 name1) = true.
Proof.
  intros Hlen. split.
  - unfold Storage.blob_name.
    destruct name1 as [n1|], name2 as [n2|]; intros [= H];
      destruct (append_same_length _ _ _ _ Hlen H) as [-> Hrest];
      try discriminate; try (injection Hrest as ->); auto.
  - destruct name1; apply prefix_append.
Qed.

Lemma blob_names_differ_with_uuids_witness :
  (Storage.blob_name "0a" (Some "section_0.png")
   = Storage.blob_name "0b" (Some "section_0.png") ->
   "0a" = "0b" /\ Some "section_0.png" = Some "section_0.png")
  /\ String.prefix "images/" (Storage.blob_name "0a" (Some "section_0.png")) = true.
Proof.
  apply (blob_names_differ_with_uuids "0a" "0b"
           (Some "section_0.png") (Some "section_0.png")).
  reflexivity.
Defined.

Lemma snd_bind' {A B} (m : M A) (f : A -> M B) :
  snd (bind m f)
  = match snd m with
    | Returned a => snd (f a)
    | Raised e => Raised e
    end.
Proof. destruct m as [l [a|e]]; simpl; [destruct (f a)|]; reflexivity. Qed.

(* ===================================================================== *)
(** ** What a computation does *)

Section Does.

Context {A B : Type} (P : action -> Prop).

Lemma does_ret (a : A) : does P (ret a).
Proof. constructor. Qed.

Lemma does_raise (e : exn) : does P (@raise A e).
Proof. constructor. Qed.

Lemma does_lift (o : outcome A) : does P (lift o).
Proof. constructor. Qed.

Lemma does_call (a : action) (o : outcome A) : P a -> does P (call a o).
Proof. intros H. repeat constructor. exact H. Qed.

Lemma does_bind (m : M A) (f : A -> M B) :
  does P m -> (forall a, does P (f a)) -> does P (bind m f).
Proof.
  unfold does. intros Hm Hf. rewrite fst_bind. apply Forall_app. split; [exact Hm|].
  destruct (snd m); [apply Hf | constructor].
Qed.

Lemma does_try_except (m : M A) (h : exn -> M A) :
  does P m -> (forall e, does P (h e)) -> does P (try_except m h).
Proof.
  unfold does. intros Hm Hh. rewrite fst_try_except. apply Forall_app.
  split; [exact Hm|]. destruct (snd m); [constructor | apply Hh].
Qed.

End Does.

Lemma does_put (P : action -> Prop) (e : event) : P (Put e) -> does P (put e).
Proof. intros H. repeat constructor. exact H. Qed.

Lemma does_when (P : action -> Prop) (b : bool) (m : M unit) :
  does P m -> does P (when b m).
Proof. destruct b; simpl; [auto | intros _; constructor]. Qed.

Lemma does_weaken {A} (P Q : action -> Prop) (m : M A) :
  (forall a, P a -> Q a) -> does P m -> does Q m.
Proof. intros H. apply Forall_impl. exact H. Qed.

Ltac does_step :=
  first
    [ apply does_bind; [|intros ?]
    | apply does_try_except; [|intros ?]
    | apply does_ret | apply does_raise | apply does_lift
    | apply does_when
    | apply does_put; exact I
    | apply does_call; first [exact I | reflexivity] ].

(* ===================================================================== *)
(** ** The Live session of a narration *)

Lemma receive_loop_does (w : world) (section_id : json) (rs : receive) :
  does turn_action (GeminiLive.receive_loop w section_id rs).
Proof.
  induction rs as [r rest IH| |e]; cbn [GeminiLive.receive_loop].
  - repeat does_step. destruct (turn_complete r); [does_step | exact IH].
  - does_step.
  - does_step.
Qed.

Lemma narrate_text_does (w : world) (sent : list json) (txt section_id : json) :
  does turn_action (GeminiLive._narrate_text w sent txt section_id).
Proof.
  unfold GeminiLive._narrate_text. do 2 (does_step; [does_step|]).
  apply receive_loop_does.
Qed.

Lemma narrate_sections_does (w : world) (sections : list json) :
  forall sent, does turn_action (GeminiLive.narrate_sections w sent sections).
Proof.
  induction sections as [|section rest IH]; intros sent;
    cbn [GeminiLive.narrate_sections].
  - does_step.
  - do 3 (does_step; [does_step|]).
    does_step; [apply narrate_text_does|].
    does_step; [does_step|]. apply IH.
Qed.

Lemma narrate_script_log (w : world) (script : json) :
  is_dict script ->
  match live_connect w with
  | Raised e =>
      GeminiLive.narrate_script w script
      = ([LiveConnect; Put (error ("Narration error: " ++ exn_str e))],
         Returned tt)
  | Returned _ =>
      exists turns,
        Forall turn_action turns
        /\ (GeminiLive.narrate_script w script
            = (LiveConnect :: turns ++ [LiveClose], Returned tt)
            \/ exists e,
                 GeminiLive.narrate_script w script
                 = (LiveConnect :: turns
                      ++ [LiveClose;
                          Put (error ("Narration error: " ++ exn_str e))],
                    Returned tt))
  end.
Proof.
  intros Hdict. destruct script as [| | | | |kv]; try contradiction.
  unfold GeminiLive.narrate_script. cbn [get]. rewrite !bind_lift.
  match goal with
  | |- context [GeminiLive.with_session w ?b] =>
      assert (Hbody : does turn_action b); [|destruct b as [turns r]]
  end.
  { does_step.
    { match goal with |- does _ (if ?b then _ else _) => destruct b end;
        [|does_step].
      does_step; [apply narrate_text_does | does_step]. }
    does_step; [does_step|].
    does_step; [apply narrate_sections_does|].
    does_step. apply narrate_text_does. }
  unfold GeminiLive.with_session, call.
  destruct (live_connect w) as [[]|e]; [|reflexivity].
  exists turns. split; [exact Hbody|].
  rewrite bind_returned. cbn [fst snd app].
  destruct (live_close w) as [[]|e'].
  - destruct r as [[]|e]; cbn [try_except put app].
    + left. reflexivity.
    + right. exists e. rewrite <- app_assoc. reflexivity.
  - right. exists e'. cbn [try_except put app]. rewrite <- app_assoc. reflexivity.
Qed.

(** X4: for a script that is a record, [narrate_script] always returns.
    When the connect fails its log is the connect and one [error] event.
    Otherwise its log is the connect, then only turns of the session
    (texts sent, [audio], [text], [section_start], [section_end]), then
    the close of the session, and after the close at most one [error]
    event, "Narration error: " and the text of the exception: the session
    is closed exactly once on every path, nothing is sent after the
    close, and a failure is reported once, last. *)
Theorem narration_closes_session_and_reports_once (w : world) (script : json) :
  is_dict script ->
  match live_connect w with
  | Raised e =>
      GeminiLive.narrate_script w script
      = ([LiveConnect; Put (error ("Narration error: " ++ exn_str e))],
         Returned tt)
  | Returned _ =>
      exists turns,
        Forall turn_action turns
        /\ (GeminiLive.narrate_script w script
            = (LiveConnect :: turns ++ [LiveClose], Returned tt)
            \/ exists e,
                 GeminiLive.narrate_script w script
                 = (LiveConnect :: turns
                      ++ [LiveClose;
                          Put (error ("Narration error: " ++ exn_str e))],
                    Returned tt))
  end.
Proof. exact (narrate_script_log w script). Qed.

Lemma narration_closes_session_and_reports_once_witness :
  match live_connect world_of_broken_session with
  | Raised e =>
      GeminiLive.narrate_script world_of_broken_session script_of_two
      = ([LiveConnect; Put (error ("Narration error: " ++ exn_str e))],
         Returned tt)
  | Returned _ =>
      exists turns,
        Forall turn_action turns
        /\ (GeminiLive.narrate_script world_of_broken_session script_of_two
            = (LiveConnect :: turns ++ [LiveClose], Returned tt)
            \/ exists e,
                 GeminiLive.narrate_script world_of_broken_session script_of_two
                 = (LiveConnect :: turns
                      ++ [LiveClose;
                          Put (error ("Narration error: " ++ exn_str e))],
                    Returned tt))
  end.
Proof.
  apply (narration_closes_session_and_reports_once world_of_broken_session
           script_of_two).
  exact I.
Defined.

(* ===================================================================== *)
(** ** The texts a narration submits *)

Lemma sends_app (l l' : list action) : sends (l ++ l') = sends l ++ sends l'.
Proof.
  induction l as [|a l IH]; simpl; [reflexivity|].
  destruct a; simpl; rewrite IH; reflexivity.
Qed.

Lemma sends_puts (l : list action) : Forall is_put l -> sends l = [].
Proof.
  induction 1 as [|a l Ha _ IH]; [reflexivity|].
  destruct a; try contradiction. exact IH.
Qed.

Lemma sends_map_Put (es : list event) : sends (map Put es) = [].
Proof. induction es; simpl; auto. Qed.

Lemma receive_loop_puts (w : world) (section_id : json) (rs : receive) :
  does is_put (GeminiLive.receive_loop w section_id rs).
Proof.
  induction rs as [r rest IH| |e]; cbn [GeminiLive.receive_loop].
  - repeat does_step. destruct (turn_complete r); [does_step | exact IH].
  - does_step.
  - does_step.
Qed.

(** A turn submits its text, or fails before anything is sent. *)
Lemma narrate_text_sends (w : world) (sent : list json) (txt section_id : json) :
  sends (fst (GeminiLive._narrate_text w sent txt section_id)) = [txt]
  \/ (sends (fst (GeminiLive._narrate_text w sent txt section_id)) = []
      /\ ~ sendable txt
      /\ exists e,
           snd (GeminiLive._narrate_text w sent txt section_id) = Raised e).
Proof.
  unfold GeminiLive._narrate_text.
  destruct txt;
    try (right; split; [reflexivity|]; split; [intros []|];
         eexists; reflexivity);
    left; cbn [GeminiLive.Part_from_text]; rewrite bind_lift, fst_bind;
    cbn [call fst snd]; rewrite sends_app; cbn [sends];
    (match goal with
     | |- context [send_client_content ?t] =>
         destruct (send_client_content t); [|reflexivity]
     end);
    rewrite (sends_puts _ (receive_loop_puts w section_id _)); reflexivity.
Qed.

Lemma narrate_text_sendable (w : world) (sent : list json) (txt section_id : json) :
  Forall sendable (sends (fst (GeminiLive._narrate_text w sent txt section_id))).
Proof.
  destruct (narrate_text_sends w sent txt section_id) as [Hs | (Hs & _)];
    rewrite Hs; [|apply Forall_nil].
  apply Forall_cons; [|apply Forall_nil].
  destruct txt; try exact I;
    unfold GeminiLive._narrate_text in Hs; discriminate Hs.
Qed.

Lemma narrate_sections_sends (w : world) (sections : list json) :
  forall sent,
    (exists rest,
       map narration_of sections
       = sends (fst (GeminiLive.narrate_sections w sent sections)) ++ rest)
    /\ (forall sent',
          snd (GeminiLive.narrate_sections w sent sections) = Returned sent' ->
          sends (fst (GeminiLive.narrate_sections w sent sections))
          = map narration_of sections)
    /\ Forall sendable (sends (fst (GeminiLive.narrate_sections w sent sections))).
Proof.
  induction sections as [|section sections IH]; intros sent.
  - split; [exists []; reflexivity | split; [reflexivity | apply Forall_nil]].
  - cbn [GeminiLive.narrate_sections map].
    destruct section as [| | | | |kv];
      try (split; [eexists; reflexivity | split; [discriminate | apply Forall_nil]]).
    replace (get (JDict kv) "id" (JInt 0))
      with (Returned (section_id_of (JDict kv))) by reflexivity.
    replace (get (JDict kv) "narration" (JStr EmptyString))
      with (Returned (narration_of (JDict kv))) by reflexivity.
    rewrite !bind_lift.
    rewrite fst_bind, snd_bind'. cbn [put fst snd].
    rewrite fst_bind, snd_bind', !sends_app.
    pose proof (narrate_text_sendable w sent (narration_of (JDict kv))
                  (section_id_of (JDict kv))) as Hvalid.
    destruct (narrate_text_sends w sent (narration_of (JDict kv))
                (section_id_of (JDict kv))) as [Hs | (Hs & _ & e & He)];
      rewrite Hs in *; cbn [sends app].
    + destruct (snd (GeminiLive._narrate_text w sent (narration_of (JDict kv))
                       (section_id_of (JDict kv)))) as [[]|e].
      * rewrite fst_bind, snd_bind'. cbn [put fst snd].
        rewrite sends_app. cbn [sends app].
        destruct (IH (sent ++ [narration_of (JDict kv)]))
          as ([rest Hrest] & Hall & Hrest_valid).
        split; [|split].
        -- exists rest. rewrite Hrest. reflexivity.
        -- intros sent' Hret. rewrite (Hall sent' Hret). reflexivity.
        -- apply Forall_cons; [exact (Forall_inv Hvalid) | exact Hrest_valid].
      * split; [eexists; reflexivity | split; [discriminate | exact Hvalid]].
    + rewrite He.
      split; [eexists; reflexivity | split; [discriminate | apply Forall_nil]].
Qed.

Lemma sends_aside (txt : json) (chunks : list event) :
  sends (aside txt chunks) = if truthy txt then [txt] else [].
Proof.
  unfold aside, spoken. destruct (truthy txt); [|reflexivity].
  cbn [sends]. rewrite sends_map_Put. reflexivity.
Qed.

Lemma sends_blocks (sections : list json) :
  forall bodies,
    List.length bodies = List.length sections ->
    sends (flat_map block (combine sections bodies)) = map narration_of sections.
Proof.
  induction sections as [|section sections IH]; intros [|body bodies] Hlen;
    try discriminate; [reflexivity|].
  cbn [combine flat_map block map]. rewrite sends_app.
  cbn [sends]. unfold spoken. rewrite sends_app. cbn [sends].
  rewrite sends_map_Put. cbn [app].
  rewrite IH by (injection Hlen; auto). reflexivity.
Qed.

(** The intro or the outro: submitted if truthy, unless the turn fails
    before anything is sent. *)
Lemma aside_sends (w : world) (sent : list json) (txt section_id : json)
    (after : M unit -> M (list json)) :
  (forall m, fst (after m) = fst m) ->
  (forall m e, snd m = Raised e -> snd (after m) = Raised e) ->
  let m := if truthy txt
           then after (GeminiLive._narrate_text w sent txt section_id)
           else ret [] in
  Forall sendable (sends (fst m))
  /\ (sends (fst m) = (if truthy txt then [txt] else [])
      \/ (sends (fst m) = [] /\ exists e, snd m = Raised e)).
Proof.
  intros Hfst Hsnd m. subst m.
  destruct (truthy txt); [|split; [apply Forall_nil | left; reflexivity]].
  rewrite Hfst. split; [apply narrate_text_sendable|].
  destruct (narrate_text_sends w sent txt section_id) as [Hs | (Hs & _ & e & He)].
  - left. exact Hs.
  - right. split; [exact Hs|]. exists e. apply Hsnd. exact He.
Qed.

Lemma narrate_script_sends (w : world) (script : json) (sections : list json) :
  get script "sections" (JList []) = Returned (JList sections) ->
  (exists rest,
     utterances script sections
     = sends (fst (GeminiLive.narrate_script w script)) ++ rest)
  /\ Forall sendable (sends (fst (GeminiLive.narrate_script w script))).
Proof.
  intros Hsections.
  pose proof (get_returned _ _ _ _ Hsections) as Hdict.
  destruct script as [| | | | |kv]; try contradiction.
  set (script := JDict kv) in *.
  unfold GeminiLive.narrate_script. rewrite Hsections.
  replace (get script "intro" (JStr EmptyString))
    with (Returned (intro_of script)) by reflexivity.
  replace (get script "outro" (JStr EmptyString))
    with (Returned (outro_of script)) by reflexivity.
  rewrite !bind_lift. unfold utterances.
  generalize (intro_of script) (outro_of script). intros intro outro.
  rewrite fst_try_except, sends_app.
  match goal with
  | |- context [sends match ?o with Returned _ => [] | Raised e => _ end] =>
      replace (sends match o with Returned _ => [] | Raised e =>
                 fst (put (error ("Narration error: " ++ exn_str e))) end)
        with (@nil json) by (destruct o; reflexivity)
  end.
  rewrite app_nil_r, fst_with_session.
  destruct (live_connect w) as [[]|e];
    [|split; [eexists; reflexivity | apply Forall_nil]].
  change (sends (LiveConnect :: ?l)) with (sends l).
  rewrite sends_app. change (sends [LiveClose]) with (@nil json).
  rewrite app_nil_r, fst_bind, sends_app.
  destruct (aside_sends w [] intro (JInt 0)
              (fun m => bind m (fun _ => ret [intro])))
    as (Hintro_valid & Hintro).
  { intros m. rewrite fst_bind. destruct (snd m); cbn [ret fst];
      apply app_nil_r. }
  { intros m e He. rewrite snd_bind', He. reflexivity. }
  cbv beta in Hintro_valid, Hintro.
  destruct Hintro as [Hintro | (Hintro & e & He)]; rewrite Hintro in *.
  2:{ rewrite He. cbn [app sends].
      split; [eexists; reflexivity | apply Forall_nil]. }
  match goal with
  | |- context [match snd ?m with _ => _ end] =>
      destruct (snd m) as [sent|e];
      [|split;
        [exists (map narration_of sections
                   ++ if truthy outro then [outro] else []);
         rewrite app_nil_r; reflexivity
        |rewrite app_nil_r; exact Hintro_valid]]
  end.
  cbn [iter]. rewrite bind_lift, fst_bind, sends_app.
  destruct (narrate_sections_sends w sections sent)
    as ([rest Hrest] & Hall & Hsections_valid).
  destruct (snd (GeminiLive.narrate_sections w sent sections)) as [sent'|e].
  - rewrite (Hall sent' eq_refl) in *.
    destruct (truthy outro); cbn [when].
    + pose proof (narrate_text_sendable w sent' outro (JInt (-1))) as Houtro_valid.
      destruct (narrate_text_sends w sent' outro (JInt (-1)))
        as [Hs | (Hs & _)]; rewrite Hs in *.
      * split.
        -- exists []. rewrite app_nil_r, app_assoc. reflexivity.
        -- apply Forall_app. split; [exact Hintro_valid|].
           apply Forall_app. split; assumption.
      * split.
        -- exists [outro]. rewrite !app_nil_r, app_assoc. reflexivity.
        -- apply Forall_app. split; [exact Hintro_valid|].
           rewrite app_nil_r. exact Hsections_valid.
    + split.
      * exists []. rewrite !app_nil_r. reflexivity.
      * apply Forall_app. split; [exact Hintro_valid|].
        rewrite app_nil_r. exact Hsections_valid.
  - rewrite app_nil_r, Hrest. split.
    + exists (rest ++ if truthy outro then [outro] else []).
      rewrite <- !app_assoc. reflexivity.
    + apply Forall_app. split; assumption.
Qed.

(** X5: for a script whose sections are a list, the texts
    [narrate_script] submits to the Live session are, whatever the
    session does and whatever the texts are, the first ones of: the
    intro if truthy, the narration of each section in document order,
    the outro if truthy; and every text submitted is a string or [None],
    a text that is a number, a boolean, a list or a record being refused
    before it is sent.  With sections that are records, texts that are
    strings and a session that opens, answers every turn and closes, the
    texts submitted are all of them. *)
Theorem narration_submits_texts_in_order
    (w : world) (script : json) (sections : list json) :
  get script "sections" (JList []) = Returned (JList sections) ->
  (exists rest,
     utterances script sections
     = sends (fst (GeminiLive.narrate_script w script)) ++ rest)
  /\ Forall sendable (sends (fst (GeminiLive.narrate_script w script)))
  /\ (session_ok w ->
      Forall is_dict sections ->
      Forall is_text (utterances script sections) ->
      sends (fst (GeminiLive.narrate_script w script))
      = utterances script sections).
Proof.
  intros Hsections.
  destruct (narrate_script_sends w script sections Hsections) as [Hprefix Hvalid].
  split; [exact Hprefix|]. split; [exact Hvalid|].
  intros Hok Hdicts Htexts.
  rewrite (narrate_script_blocks w script sections Hok Hsections Hdicts Htexts).
  cbn [fst sends].
  rewrite !sends_app, !sends_aside. cbn [sends]. rewrite app_nil_r.
  rewrite sends_blocks; [reflexivity|].
  symmetry. eapply Forall2_length. apply hearings_chunks.
Qed.

(** the two-section script: all four texts with a session that answers,
    the first two with a session that breaks in the second turn *)
Lemma narration_submits_texts_in_order_witness :
  sends (fst (GeminiLive.narrate_script quiet_world script_of_two))
  = [JStr "hi"; JStr "one"; JStr "two"; JStr "bye"]
  /\ exists rest,
       utterances script_of_two [section_1; section_2]
       = sends (fst (GeminiLive.narrate_script world_of_broken_session
                       script_of_two))
         ++ rest.
Proof.
  split.
  - apply (narration_submits_texts_in_order quiet_world script_of_two
             [section_1; section_2] eq_refl).
    + split; [reflexivity|]. split; [|reflexivity].
      intros sent. split; reflexivity.
    + repeat (apply Forall_cons; [exact I|]). apply Forall_nil.
    + repeat (apply Forall_cons; [exact I|]). apply Forall_nil.
  - apply (narration_submits_texts_in_order world_of_broken_session
             script_of_two [section_1; section_2] eq_refl).
Defined.

Example texts_submitted_before_the_break :
  sends (fst (GeminiLive.narrate_script world_of_broken_session script_of_two))
  = [JStr "hi"; JStr "one"]
  /\ utterances script_of_two [section_1; section_2]
     = [JStr "hi"; JStr "one"; JStr "two"; JStr "bye"].
Proof. split; reflexivity. Qed.

(** a narration that is a number is not submitted, and nothing after it *)
Example number_is_not_submitted :
  sends (fst (GeminiLive.narrate_script quiet_world
                (JDict [ ("intro", JStr "hi");
                         ("sections",
                          JList [ JDict [ ("id", JInt 1); ("narration", JInt 5) ];
                                  section_2 ]) ])))
  = [JStr "hi"].
Proof. reflexivity. Qed.

(* ===================================================================== *)
(** ** One section's attempt *)

(** The four ways an attempt can go. *)
Lemma generate_section_image_cases (w : world) (i : nat) (section : json) :
  is_dict section ->
  let run := VisualAgent.generate_section_image w i section in
  let name := VisualAgent.destination_name w (section_id_of section) in
  (run = ([], Returned None))
  \/ (exists p,
        image_prompt_of section = JStr p
        /\ run = ([GenerateImages (Imagen.STYLE_PREFIX ++ p)], Returned None))
  \/ (exists p image,
        image_prompt_of section = JStr p /\ image <> []
        /\ run = ([GenerateImages (Imagen.STYLE_PREFIX ++ p);
                   UploadImageBytes image name], Returned None))
  \/ (exists p image url,
        image_prompt_of section = JStr p /\ image <> []
        /\ run = ([GenerateImages (Imagen.STYLE_PREFIX ++ p);
                   UploadImageBytes image name;
                   Put (image_url (section_id_of section) url
                          (JStr (slice_to 80 p)))],
                  Returned (Some url))).
Proof.
  intros Hdict run name. subst run name.
  destruct section as [| | | | |kv]; try contradiction.
  unfold VisualAgent.generate_section_image.
  replace (get (JDict kv) "id" (JInt 0))
    with (Returned (section_id_of (JDict kv))) by reflexivity.
  replace (get (JDict kv) "image_prompt" (JStr "educational diagram"))
    with (Returned (image_prompt_of (JDict kv))) by reflexivity.
  rewrite !bind_lift.
  destruct (image_prompt_of (JDict kv)) as [| | |p| |] eqn:Hp;
    try (left; reflexivity).
  right. unfold Imagen.generate_image. cbn [Imagen.concat_str].
  rewrite bind_lift.
  destruct (generate_images w i (Imagen.STYLE_PREFIX ++ p))
    as [[|[|b image] others]|e] eqn:Himages;
    try (left; exists p; split; [reflexivity|]; reflexivity).
  right. cbn [call bind try_except ret app].
  destruct (upload_image_bytes w i (b :: image)
              (VisualAgent.destination_name w (section_id_of (JDict kv))))
    as [url|e] eqn:Hurl.
  - right. exists p, (b :: image), url.
    split; [reflexivity|]. split; [discriminate|]. reflexivity.
  - left. exists p, (b :: image).
    split; [reflexivity|]. split; [discriminate|]. reflexivity.
Qed.

(** X6: [generate_section_image] on a record never raises, and what it
    returns tells what it enqueued: a URL exactly when it enqueued one
    [image_url] event, which carries the section's id and that URL, and
    [None] exactly when it enqueued nothing.  On a section that is not a
    record it raises [AttributeError] before any call. *)
Theorem attempt_result_matches_event (w : world) (i : nat) (section : json) :
  let run := VisualAgent.generate_section_image w i section in
  match section with
  | JDict _ =>
      exists result,
        snd run = Returned result
        /\ match result with
           | Some url =>
               exists caption,
                 puts (fst run) = [image_url (section_id_of section) url caption]
           | None => puts (fst run) = []
           end
  | _ => run = ([], Raised (AttributeError section "get"))
  end.
Proof.
  intros run. subst run.
  destruct section as [| | | | |kv]; try reflexivity.
  destruct (generate_section_image_cases w i (JDict kv) I)
    as [H|[(p & _ & H)|[(p & image & _ & _ & H)|(p & image & url & _ & _ & H)]]];
    rewrite H; eexists; (split; [reflexivity|]); cbn [fst puts];
    try reflexivity.
  eexists. reflexivity.
Qed.

(* ===================================================================== *)
(** ** The calls of the Media stage *)

Lemma slice_to_length (n : nat) (s : string) : String.length (slice_to n s) <= n.
Proof.
  revert s. induction n as [|n IH]; intros [|c s]; simpl; try lia.
  specialize (IH s). lia.
Qed.

Lemma section_image_calls (w : world) (i : nat) (section : json) :
  does media_call (VisualAgent.generate_section_image w i section).
Proof.
  unfold does.
  destruct section as [| | | | |kv]; try (constructor; fail).
  assert (Hname : String.prefix "section_"
                    (VisualAgent.destination_name w (section_id_of (JDict kv)))
                  = true) by apply prefix_append.
  destruct (generate_section_image_cases w i (JDict kv) I)
    as [H|[(p & _ & H)|[(p & image & _ & Hi & H)|(p & image & url & _ & Hi & H)]]];
    rewrite H; cbn [fst];
    repeat match goal with
           | |- Forall _ [] => apply Forall_nil
           | |- Forall _ (_ :: _) => apply Forall_cons
           | |- media_call (GenerateImages _) => apply prefix_append
           | |- media_call (UploadImageBytes _ _) =>
               split; [assumption | exact Hname]
           | |- media_call (Put _) => apply slice_to_length
           end.
Qed.

Lemma tasks_do (P : action -> Prop) (w : world) :
  (forall i section, does P (VisualAgent.generate_section_image w i section)) ->
  forall sections i, Forall (does P) (VisualAgent.tasks w i sections).
Proof.
  intros H. induction sections as [|section rest IH]; intros i; simpl;
    constructor; auto.
Qed.

Lemma does_gather_settled {A} (P : action -> Prop) (sched : list nat)
    (tasks : list (M A)) :
  Forall (does P) tasks -> does P (gather_settled sched tasks).
Proof.
  intros H. unfold does, gather_settled. cbn [fst].
  eapply Permutation_Forall.
  - symmetry. apply interleave_perm.
  - induction H as [|t tasks Ht _ IH]; simpl; [constructor|].
    apply Forall_app. split; assumption.
Qed.

Lemma generate_all_images_calls (w : world) (script : json) :
  does media_call (VisualAgent.generate_all_images w script).
Proof.
  unfold VisualAgent.generate_all_images.
  does_step; [does_step|].
  match goal with |- does _ (if ?b then _ else _) => destruct b end;
    [does_step|].
  does_step; [does_step|].
  apply does_gather_settled, tasks_do. apply section_image_calls.
Qed.

(** X7: whatever the script, the replies of the collaborators and the
    order of the tasks, every action of [generate_all_images] is one of:
    a call of the image model with a prompt that begins with
    [STYLE_PREFIX]; an upload of image bytes that are not empty under a
    name that begins with "section_"; an [image_url] event whose caption
    is a string of at most 80 characters. *)
Theorem media_calls_are_well_formed (w : world) (script : json) :
  does media_call (VisualAgent.generate_all_images w script).
Proof. exact (generate_all_images_calls w script). Qed.

(* ===================================================================== *)
(** ** Counting the calls of the Media stage *)

Lemma filter_length_perm {A} (p : A -> bool) (l l' : list A) :
  Permutation l l' -> List.length (filter p l) = List.length (filter p l').
Proof.
  induction 1 as [|a l l' _ IH|a b l|l l' l'' _ IH1 _ IH2]; simpl.
  - reflexivity.
  - destruct (p a); simpl; auto.
  - destruct (p a), (p b); reflexivity.
  - congruence.
Qed.

Lemma tasks_counts (w : world) (sections : list json) :
  forall i,
    let log := concat (map fst (VisualAgent.tasks w i sections)) in
    List.length (filter is_put_action log) <= List.length (filter is_upload log)
    /\ List.length (filter is_upload log)
       <= List.length (filter is_generate_images log)
    /\ List.length (filter is_generate_images log) <= List.length sections.
Proof.
  induction sections as [|section rest IH]; intros i; cbn [VisualAgent.tasks map concat].
  - simpl. lia.
  - cbv zeta in *. rewrite !filter_app, !length_app.
    specialize (IH (S i)). cbn [List.length].
    assert (Hone :
              let l := fst (VisualAgent.generate_section_image w i section) in
              List.length (filter is_put_action l) <= List.length (filter is_upload l)
              /\ List.length (filter is_upload l)
                 <= List.length (filter is_generate_images l)
              /\ List.length (filter is_generate_images l) <= 1).
    { destruct section as [| | | | |kv]; try (simpl; lia).
      destruct (generate_section_image_cases w i (JDict kv) I)
        as [H|[(p & _ & H)|[(p & image & _ & _ & H)|(p & image & url & _ & _ & H)]]];
        cbv zeta; rewrite H; simpl; lia. }
    cbv zeta in Hone. lia.
Qed.

(** X8: for a script whose sections are a list, [generate_all_images]
    enqueues at most as many events as it makes uploads, makes at most
    as many uploads as calls of the image model, and calls the image
    model at most once per section. *)
Theorem media_makes_one_attempt_per_section
    (w : world) (script : json) (items : list json) :
  get script "sections" (JList []) = Returned (JList items) ->
  let log := fst (VisualAgent.generate_all_images w script) in
  List.length (filter is_put_action log) <= List.length (filter is_upload log)
  /\ List.length (filter is_upload log)
     <= List.length (filter is_generate_images log)
  /\ List.length (filter is_generate_images log) <= List.length items.
Proof.
  intros Hsections log.
  assert (Hperm : Permutation log (concat (map fst (VisualAgent.tasks w 0 items)))).
  { subst log. unfold VisualAgent.generate_all_images.
    rewrite Hsections, bind_lift.
    destruct items as [|s items]; [reflexivity|].
    cbn [truthy negb iter]. rewrite bind_lift. apply interleave_perm. }
  rewrite !(filter_length_perm _ _ _ Hperm).
  apply (tasks_counts w items 0).
Qed.

Lemma media_makes_one_attempt_per_section_witness :
  let log := fst (VisualAgent.generate_all_images world_failing_second_upload
                    script_of_three) in
  List.length (filter is_put_action log) <= List.length (filter is_upload log)
  /\ List.length (filter is_upload log)
     <= List.length (filter is_generate_images log)
  /\ List.length (filter is_generate_images log)
     <= List.length [section_1; section_2; section_3].
Proof.
  apply (media_makes_one_attempt_per_section world_failing_second_upload
           script_of_three [section_1; section_2; section_3]).
  reflexivity.
Defined.

Example upload_failure_skips_the_section :
  fst (VisualAgent.generate_all_images world_failing_second_upload script_of_three)
  = [ GenerateImages (Imagen.STYLE_PREFIX ++ "a leaf");
      UploadImageBytes (byte_string "png") "section_2.png";
      GenerateImages (Imagen.STYLE_PREFIX ++ "a cell");
      UploadImageBytes (byte_string "png") "section_1.png";
      Put (image_url (JInt 1) "https://storage/section_1.png" (JStr "a cell"));
      GenerateImages (Imagen.STYLE_PREFIX ++ "a root");
      UploadImageBytes (byte_string "png") "section_3.png";
      Put (image_url (JInt 3) "https://storage/section_3.png" (JStr "a root")) ].
Proof. vm_compute. reflexivity. Qed.

(* ===================================================================== *)
(** ** The order of one task within the merged log *)

Lemma subsequence_refl {A} (l : list A) : subsequence l l.
Proof.
  induction l; [apply subsequence_nil | apply subsequence_keep; assumption].
Qed.

Lemma subsequence_app_l {A} (l r : list A) : subsequence l (l ++ r).
Proof.
  induction l as [|x l IH]; simpl.
  - induction r; [apply subsequence_nil | apply subsequence_skip; assumption].
  - apply subsequence_keep. exact IH.
Qed.

Lemma subsequence_app_r {A} (l pre r : list A) :
  subsequence l r -> subsequence l (pre ++ r).
Proof.
  intros H. induction pre; simpl; [exact H | apply subsequence_skip; assumption].
Qed.

Lemma subsequence_concat {A} (ls : list (list A)) :
  forall i l, nth_error ls i = Some l -> subsequence l (concat ls).
Proof.
  induction ls as [|l0 ls IH]; intros [|i] l; simpl; try discriminate.
  - intros [= ->]. apply subsequence_app_l.
  - intros H. apply subsequence_app_r. eapply IH. exact H.
Qed.

Lemma pick_nth {A} (ls : list (list A)) :
  forall n x ls' i l,
    pick n ls = Some (x, ls') ->
    nth_error ls i = Some l ->
    (exists l', l = x :: l' /\ nth_error ls' i = Some l')
    \/ nth_error ls' i = Some l.
Proof.
  induction ls as [|l0 ls IH]; intros n x ls' i l; simpl; [discriminate|].
  destruct n as [|n].
  - destruct l0 as [|y l0]; [discriminate|]. intros [= <- <-].
    destruct i as [|i]; simpl.
    + intros [= <-]. left. eexists. split; reflexivity.
    + intros H. right. exact H.
  - destruct (pick n ls) as [[y ls'']|] eqn:E; [|discriminate].
    intros [= <- <-]. destruct i as [|i]; simpl.
    + intros H. right. exact H.
    + intros H. exact (IH n y ls'' i l E H).
Qed.

Lemma interleave_subsequence {A} (sched : list nat) :
  forall (ls : list (list A)) i l,
    nth_error ls i = Some l -> subsequence l (interleave sched ls).
Proof.
  induction sched as [|n sched IH]; intros ls i l Hl; simpl.
  - eapply subsequence_concat. exact Hl.
  - destruct (pick n ls) as [[x ls']|] eqn:E; [|eapply IH; exact Hl].
    destruct (pick_nth ls n x ls' i l E Hl) as [(l' & -> & Hl')|Hl'].
    + apply subsequence_keep. eapply IH. exact Hl'.
    + apply subsequence_skip. eapply IH. exact Hl'.
Qed.

(** X9: for a script whose sections are a list, the log of the attempt
    for each section is found in the log of [generate_all_images] in its
    own order, with the actions of other sections in between: however the
    tasks are resumed, a section's upload comes after its call of the
    image model, and its event after its upload. *)
Theorem section_attempt_keeps_its_order
    (w : world) (script : json) (items : list json) (i : nat) (section : json) :
  get script "sections" (JList []) = Returned (JList items) ->
  nth_error items i = Some section ->
  subsequence (fst (VisualAgent.generate_section_image w i section))
              (fst (VisualAgent.generate_all_images w script)).
Proof.
  intros Hsections Hnth.
  unfold VisualAgent.generate_all_images. rewrite Hsections, bind_lift.
  destruct items as [|s items]; [destruct i; discriminate|].
  cbn [truthy negb iter]. rewrite bind_lift.
  unfold gather_settled. cbn [fst].
  apply (interleave_subsequence _ _ i).
  rewrite nth_error_map.
  exact (f_equal (option_map fst) (tasks_nth w (s :: items) 0 i section Hnth)).
Qed.

Lemma section_attempt_keeps_its_order_witness :
  subsequence
    (fst (VisualAgent.generate_section_image world_failing_second_image 2 section_3))
    (fst (VisualAgent.generate_all_images world_failing_second_image script_of_three)).
Proof.
  apply (section_attempt_keeps_its_order world_failing_second_image
           script_of_three [section_1; section_2; section_3] 2 section_3);
    reflexivity.
Defined.

(* ===================================================================== *)
(** ** Replies that decode to something else than expected *)

(** X11: when the reply of the analysis model, cleaned, decodes to a JSON
    value that is not an object (an array, a string, a number, [null]),
    [analyze_photo] does not degrade: after its one call of the model it
    raises [AttributeError], and the run is the first [status], the
    [error] event for that exception and [done], without a [meta]
    event. *)
Theorem analysis_of_a_non_object_fails_the_job
    (w : world) (photo_b64 : json) (question : string)
    (image_bytes : bytes) (response_text : string) (decoded : json) :
  b64decode w photo_b64 = Returned image_bytes ->
  generate_content w (Some image_bytes) (VisionAgent.VISION_PROMPT question)
  = Returned (Some response_text) ->
  json_loads w (strip_fences response_text) = Decoded decoded ->
  ~ is_dict decoded ->
  VisionAgent.analyze_photo w photo_b64 question
  = ([GenerateContent (Some image_bytes) (VisionAgent.VISION_PROMPT question)],
     Raised (AttributeError decoded "get"))
  /\ puts (fst (Coordinator.run_pipeline w photo_b64 question))
     = [ status "Analyzing your image...";
         error ("Something went wrong: '" ++ type_name decoded
                ++ "' object has no attribute 'get'");
         done ].
Proof.
  intros Hdecode Hreply Hloads Hnot.
  assert (Hrun : VisionAgent.analyze_photo w photo_b64 question
                 = ([GenerateContent (Some image_bytes)
                       (VisionAgent.VISION_PROMPT question)],
                    Raised (AttributeError decoded "get"))).
  { unfold VisionAgent.analyze_photo.
    rewrite Hdecode, bind_lift, Hreply.
    unfold call. rewrite bind_returned. cbn [response_raw].
    rewrite bind_lift, Hloads.
    destruct decoded; try reflexivity. contradiction Hnot. exact I. }
  split; [exact Hrun|].
  rewrite (analysis_failure_run w photo_b64 question
             (AttributeError decoded "get")); [reflexivity|].
  rewrite Hrun. reflexivity.
Qed.

Lemma analysis_of_a_non_object_fails_the_job_witness :
  VisionAgent.analyze_photo world_of_array_reply (JStr "AAAA") "Why?"
  = ([GenerateContent (Some (byte_string "jpeg"))
        (VisionAgent.VISION_PROMPT "Why?")],
     Raised (AttributeError (JList []) "get"))
  /\ puts (fst (Coordinator.run_pipeline world_of_array_reply (JStr "AAAA") "Why?"))
     = [ status "Analyzing your image...";
         error ("Something went wrong: '" ++ type_name (JList [])
                ++ "' object has no attribute 'get'");
         done ].
Proof.
  apply (analysis_of_a_non_object_fails_the_job world_of_array_reply
           (JStr "AAAA") "Why?" (byte_string "jpeg") "[]" (JList []));
    try reflexivity.
  intros H. exact H.
Defined.

(** X12: when the reply of the text model decodes to an object whose
    "sections" entry has no length ([null], a number, a boolean),
    [generate_script] raises the [TypeError] of [len], and a run whose
    Analysis returned is the first [status], the [meta], the second
    [status], the [error] event for that exception and [done]: no title,
    no image, no narration. *)
Theorem script_with_unsized_sections_fails_the_job
    (w : world) (photo_b64 : json) (question : string)
    (vision_result : json) (reply : string) (decoded sections : json) (e : exn) :
  snd (VisionAgent.analyze_photo w photo_b64 question) = Returned vision_result ->
  generate_content w None (script_prompt_of w vision_result)
  = Returned (Some reply) ->
  json_loads w (strip_fences reply) = Decoded decoded ->
  get decoded "sections" (JList []) = Returned sections ->
  len sections = Raised e ->
  snd (ScriptAgent.generate_script w vision_result) = Raised e
  /\ puts (fst (Coordinator.run_pipeline w photo_b64 question))
     = [ status "Analyzing your image...";
         meta (field vision_result "subject") (field vision_result "topic");
         status "Preparing your explainer...";
         error ("Something went wrong: " ++ exn_str e);
         done ].
Proof.
  intros Ha Hreply Hloads Hsections Hlen.
  pose proof (analyze_photo_returns_dict w photo_b64 question vision_result Ha)
    as Hdict.
  assert (Hs : snd (ScriptAgent.generate_script w vision_result) = Raised e).
  { rewrite (generate_script_run w vision_result reply Hdict Hreply).
    rewrite Hloads, Hsections, Hlen.
    destruct decoded; try discriminate. reflexivity. }
  split; [exact Hs|].
  exact (scripting_failure_run w photo_b64 question vision_result e Ha Hs).
Qed.

Lemma script_with_unsized_sections_fails_the_job_witness :
  snd (ScriptAgent.generate_script
         (world_of_reply reply_with_null_sections script_with_null_sections)
         script_with_null_sections)
  = Raised (TypeError "object of type 'NoneType' has no len()")
  /\ puts (fst (Coordinator.run_pipeline
                  (world_of_reply reply_with_null_sections script_with_null_sections)
                  (JStr "AAAA") "Why?"))
     = [ status "Analyzing your image...";
         meta (field script_with_null_sections "subject")
              (field script_with_null_sections "topic");
         status "Preparing your explainer...";
         error ("Something went wrong: "
                ++ exn_str (TypeError "object of type 'NoneType' has no len()"));
         done ].
Proof.
  apply (script_with_unsized_sections_fails_the_job
           (world_of_reply reply_with_null_sections script_with_null_sections)
           (JStr "AAAA") "Why?" script_with_null_sections
           reply_with_null_sections script_with_null_sections JNull
           (TypeError "object of type 'NoneType' has no len()"));
    reflexivity.
Defined.

(* ===================================================================== *)
(** ** The log of [gather] *)

Lemma acts_app (l l' : list step) : acts (l ++ l') = acts l ++ acts l'.
Proof.
  induction l as [|s l IH]; simpl; [reflexivity|].
  destruct s; simpl; rewrite IH; reflexivity.
Qed.

Lemma acts_steps (t : M unit) : acts (steps t) = fst t.
Proof.
  unfold steps. rewrite acts_app. simpl. rewrite app_nil_r.
  induction (fst t); simpl; congruence.
Qed.

Lemma acts_concat_steps (tasks : list (M unit)) :
  acts (concat (map steps tasks)) = concat (map fst tasks).
Proof.
  induction tasks as [|t tasks IH]; simpl; [reflexivity|].
  rewrite acts_app, acts_steps, IH. reflexivity.
Qed.

Lemma acts_perm (l l' : list step) :
  Permutation l l' -> Permutation (acts l) (acts l').
Proof.
  induction 1 as [|s l l' _ IH|s s' l|l l' l'' _ IH1 _ IH2].
  - reflexivity.
  - destruct s; simpl; auto.
  - destruct s, s'; simpl; try reflexivity. apply perm_swap.
  - etransitivity; eassumption.
Qed.

Lemma acts_subsequence (l m : list step) :
  subsequence l m -> subsequence (acts l) (acts m).
Proof.
  induction 1 as [|s l m _ IH|s l m _ IH]; simpl.
  - apply subsequence_nil.
  - destruct s; [apply subsequence_skip|]; exact IH.
  - destruct s; [apply subsequence_keep|]; exact IH.
Qed.

Lemma join_acts (l : list step) :
  (forall o, In (Stop o) l -> o = Returned tt) -> fst (join l) = acts l.
Proof.
  induction l as [|s l IH]; simpl; intros H; [reflexivity|].
  destruct s as [a|[[]|e]].
  - destruct (join l) as [la r] eqn:E. simpl in *. rewrite IH; auto.
  - apply IH. auto.
  - specialize (H (Raised e) (or_introl eq_refl)). discriminate.
Qed.

Lemma stops_of_returning_tasks (sched : list nat) (tasks : list (M unit)) :
  Forall (fun t => snd t = Returned tt) tasks ->
  forall o, In (Stop o) (interleave sched (map steps tasks)) -> o = Returned tt.
Proof.
  intros H o Ho.
  apply (Permutation_in _ (interleave_perm sched (map steps tasks))) in Ho.
  apply in_concat in Ho. destruct Ho as (l & Hl & Ho).
  apply in_map_iff in Hl. destruct Hl as (t & <- & Ht).
  rewrite Forall_forall in H. specialize (H t Ht).
  unfold steps in Ho. apply in_app_or in Ho.
  destruct Ho as [Ho|[Ho|[]]].
  - apply in_map_iff in Ho. destruct Ho as (a & [=] & _).
  - injection Ho as <-. exact H.
Qed.

Lemma gather_log (sched : list nat) (tasks : list (M unit)) :
  Forall (fun t => snd t = Returned tt) tasks ->
  fst (gather sched tasks) = acts (interleave sched (map steps tasks)).
Proof.
  intros H. unfold gather. apply join_acts.
  apply stops_of_returning_tasks. exact H.
Qed.

Lemma gather_perm (sched : list nat) (tasks : list (M unit)) :
  Forall (fun t => snd t = Returned tt) tasks ->
  Permutation (fst (gather sched tasks)) (concat (map fst tasks)).
Proof.
  intros H. rewrite (gather_log sched tasks H), <- acts_concat_steps.
  apply acts_perm, interleave_perm.
Qed.

Lemma gather_subsequence (sched : list nat) (tasks : list (M unit))
    (i : nat) (t : M unit) :
  Forall (fun t => snd t = Returned tt) tasks ->
  nth_error tasks i = Some t ->
  subsequence (fst t) (fst (gather sched tasks)).
Proof.
  intros H Ht. rewrite (gather_log sched tasks H), <- (acts_steps t).
  apply acts_subsequence. apply (interleave_subsequence _ _ i).
  rewrite nth_error_map, Ht. reflexivity.
Qed.

Lemma subsequence_length {A} (l m : list A) :
  subsequence l m -> List.length l <= List.length m.
Proof. induction 1; simpl; lia. Qed.

Lemma subsequence_same_length {A} (l m : list A) :
  subsequence l m -> List.length l = List.length m -> l = m.
Proof.
  induction 1 as [|x l m H IH|x l m H IH]; simpl; intros Hlen.
  - reflexivity.
  - apply subsequence_length in H. lia.
  - f_equal. apply IH. lia.
Qed.

Lemma subsequence_filter {A} (p : A -> bool) (l m : list A) :
  subsequence l m ->
  Forall (fun x => p x = true) l ->
  subsequence l (filter p m).
Proof.
  induction 1 as [|x l m H IH|x l m H IH]; simpl; intros Hp.
  - apply subsequence_nil.
  - destruct (p x); [apply subsequence_skip|]; auto.
  - inversion Hp as [|? ? Hx Hl]; subst. rewrite Hx.
    apply subsequence_keep. auto.
Qed.

Lemma filter_all {A} (p : A -> bool) (l : list A) :
  Forall (fun x => p x = true) l -> filter p l = l.
Proof.
  induction 1 as [|x l Hx _ IH]; simpl; [reflexivity|].
  rewrite Hx, IH. reflexivity.
Qed.

Lemma filter_none {A} (p : A -> bool) (l : list A) :
  Forall (fun x => p x = false) l -> filter p l = [].
Proof.
  induction 1 as [|x l Hx _ IH]; simpl; [reflexivity|].
  rewrite Hx, IH. reflexivity.
Qed.

(** Two tasks whose actions a test tells apart are found again, each in
    its own order, in the log of their [gather]. *)
Lemma gather_two_apart (p : action -> bool) (sched : list nat) (a b : M unit) :
  snd a = Returned tt -> snd b = Returned tt ->
  Forall (fun x => p x = true) (fst a) ->
  Forall (fun x => p x = false) (fst b) ->
  filter p (fst (gather sched [a; b])) = fst a
  /\ filter (fun x => negb (p x)) (fst (gather sched [a; b])) = fst b.
Proof.
  intros Ha Hb Hpa Hpb.
  assert (Hret : Forall (fun t : M unit => snd t = Returned tt) [a; b])
    by (repeat constructor; assumption).
  pose proof (gather_perm sched [a; b] Hret) as Hperm.
  cbn [map concat] in Hperm. rewrite app_nil_r in Hperm.
  assert (Hnb : Forall (fun x => negb (p x) = true) (fst b)).
  { eapply Forall_impl; [|exact Hpb]. intros x ->. reflexivity. }
  assert (Hna : Forall (fun x => negb (p x) = false) (fst a)).
  { eapply Forall_impl; [|exact Hpa]. intros x ->. reflexivity. }
  split; symmetry; apply subsequence_same_length.
  - apply subsequence_filter; [|exact Hpa].
    exact (gather_subsequence sched [a; b] 0 a Hret eq_refl).
  - rewrite (filter_length_perm p _ _ Hperm), filter_app.
    rewrite (filter_all p _ Hpa), (filter_none p _ Hpb), app_nil_r. reflexivity.
  - apply subsequence_filter; [|exact Hnb].
    exact (gather_subsequence sched [a; b] 1 b Hret eq_refl).
  - rewrite (filter_length_perm _ _ _ Hperm), filter_app.
    rewrite (filter_none _ _ Hna), (filter_all _ _ Hnb). reflexivity.
Qed.

(* ===================================================================== *)
(** ** Media and Narration side by side *)

Lemma media_call_is_media (a : action) : media_call a -> is_media_action a = true.
Proof.
  destruct a as [e| | | | | |]; simpl; try contradiction; try reflexivity.
  destruct e; simpl; try contradiction. reflexivity.
Qed.

Lemma turn_action_is_not_media (a : action) :
  turn_action a -> is_media_action a = false.
Proof.
  destruct a as [e| | | | | |]; simpl; try contradiction; try reflexivity.
  destruct e; simpl; try contradiction; reflexivity.
Qed.

Lemma narration_is_not_media (w : world) (script : json) :
  is_dict script ->
  Forall (fun a => is_media_action a = false) (fst (GeminiLive.narrate_script w script)).
Proof.
  intros Hdict. pose proof (narrate_script_log w script Hdict) as Hlog.
  destruct (live_connect w) as [[]|e].
  - destruct Hlog as (turns & Hturns & [H|[e H]]); rewrite H; cbn [fst];
      constructor; try reflexivity; apply Forall_app; split;
      try (eapply Forall_impl; [|exact Hturns]; apply turn_action_is_not_media);
      repeat constructor.
  - rewrite Hlog. repeat constructor.
Qed.

Lemma narration_reports_at_most_once (w : world) (script : json) :
  is_dict script ->
  count is_error (puts (fst (GeminiLive.narrate_script w script))) <= 1.
Proof.
  intros Hdict. pose proof (narrate_script_log w script Hdict) as Hlog.
  assert (Hturns : forall turns,
             Forall turn_action turns -> filter is_error (puts turns) = []).
  { induction 1 as [|a l Ha _ IH]; [reflexivity|].
    destruct a as [ev| | | | | |]; simpl in *; try contradiction; try exact IH.
    destruct ev; simpl in *; try contradiction; exact IH. }
  unfold count.
  destruct (live_connect w) as [[]|e].
  - destruct Hlog as (turns & Ht & [H|[e H]]); rewrite H; cbn [fst puts];
      rewrite puts_app, filter_app, (Hturns turns Ht); simpl; lia.
  - rewrite Hlog. simpl. lia.
Qed.

(** X13: for every script that [generate_script] returns, the Media and
    the Narration stage both return, and in the log of their [gather]
    each stage's actions are found again complete and in the stage's own
    order: the actions of Media (calls of the image model, uploads,
    [image_url] events) are the log of [generate_all_images], all the
    others are the log of [narrate_script]. *)
Theorem stages_keep_their_own_order
    (w : world) (vision_result script : json) :
  snd (ScriptAgent.generate_script w vision_result) = Returned script ->
  let media := VisualAgent.generate_all_images w script in
  let narration := GeminiLive.narrate_script w script in
  let log := fst (gather (schedule_pipeline w) [media; narration]) in
  snd media = Returned tt
  /\ snd narration = Returned tt
  /\ filter is_media_action log = fst media
  /\ filter (fun a => negb (is_media_action a)) log = fst narration.
Proof.
  intros Hs media narration log.
  destruct (generate_script_returns_dict w vision_result script Hs)
    as (Hdict & sections & n & Hsections & Hlen).
  assert (Hm : snd media = Returned tt)
    by (eapply generate_all_images_returns; eassumption).
  assert (Hn : snd narration = Returned tt)
    by (apply narrate_script_returns, Hdict).
  split; [exact Hm|]. split; [exact Hn|].
  apply gather_two_apart; try assumption.
  - eapply Forall_impl; [|apply generate_all_images_calls].
    apply media_call_is_media.
  - apply narration_is_not_media, Hdict.
Qed.

Lemma stages_keep_their_own_order_witness :
  let media := VisualAgent.generate_all_images quiet_world
                 (fallback_script quiet_world vision_result_of_cells) in
  let narration := GeminiLive.narrate_script quiet_world
                     (fallback_script quiet_world vision_result_of_cells) in
  let log := fst (gather (schedule_pipeline quiet_world) [media; narration]) in
  snd media = Returned tt
  /\ snd narration = Returned tt
  /\ filter is_media_action log = fst media
  /\ filter (fun a => negb (is_media_action a)) log = fst narration.
Proof.
  apply (stages_keep_their_own_order quiet_world vision_result_of_cells
           (fallback_script quiet_world vision_result_of_cells)).
  reflexivity.
Defined.

(* ===================================================================== *)
(** ** Every run *)

Lemma pipeline_success_log
    (w : world) (photo_b64 : json) (question : string)
    (vision_result script : json) :
  snd (VisionAgent.analyze_photo w photo_b64 question) = Returned vision_result ->
  snd (ScriptAgent.generate_script w vision_result) = Returned script ->
  Coordinator.pipeline w photo_b64 question
  = (Put (status "Analyzing your image...")
       :: fst (VisionAgent.analyze_photo w photo_b64 question)
       ++ [Put (meta (field vision_result "subject") (field vision_result "topic"));
           Put (status "Preparing your explainer...")]
       ++ fst (ScriptAgent.generate_script w vision_result)
       ++ [Put (title (title_of script))]
       ++ fst (gather (schedule_pipeline w)
                 [VisualAgent.generate_all_images w script;
                  GeminiLive.narrate_script w script])
       ++ [Put done],
     Returned tt).
Proof.
  intros Ha Hs.
  pose proof (analyze_photo_returns_dict w photo_b64 question vision_result Ha)
    as Hdict.
  destruct (generate_script_returns_dict w vision_result script Hs)
    as (Hscript & sections & n & Hsections & Hlen).
  unfold Coordinator.pipeline, put.
  rewrite bind_returned.
  destruct (VisionAgent.analyze_photo w photo_b64 question) as [la ra].
  cbn [fst snd] in *. subst ra.
  rewrite bind_returned.
  rewrite !(@get1_field vision_result _ Hdict), !bind_lift.
  rewrite !bind_returned.
  destruct (ScriptAgent.generate_script w vision_result) as [ls rs].
  cbn [fst snd] in *. subst rs.
  rewrite bind_returned.
  rewrite (@get_title_of script Hscript), bind_lift, bind_returned.
  assert (Hret : snd (gather (schedule_pipeline w)
                        [VisualAgent.generate_all_images w script;
                         GeminiLive.narrate_script w script]) = Returned tt).
  { apply gather_returns. repeat constructor.
    - eapply generate_all_images_returns; eassumption.
    - apply narrate_script_returns, Hscript. }
  destruct (gather (schedule_pipeline w)
              [VisualAgent.generate_all_images w script;
               GeminiLive.narrate_script w script]) as [lg rg].
  cbn [snd] in Hret. subst rg.
  rewrite bind_returned. cbn [fst snd app]. reflexivity.
Qed.

Lemma run_pipeline_returns (w : world) (photo_b64 : json) (question : string) :
  snd (Coordinator.run_pipeline w photo_b64 question) = Returned tt.
Proof.
  unfold Coordinator.run_pipeline.
  destruct (Coordinator.pipeline w photo_b64 question) as [l [[]|e]]; reflexivity.
Qed.

Lemma stage_events_are_not_done (stage : list event) :
  Forall stage_event stage -> filter is_done stage = [].
Proof.
  induction 1 as [|e l He _ IH]; [reflexivity|].
  destruct e; simpl in *; try contradiction; exact IH.
Qed.

(** X14: every run of [run_pipeline] returns, and its events are the
    [status] "Analyzing your image...", then events none of which is
    [done], then [done]: whatever the collaborators do, the client is
    sent exactly one [done], last. *)
Theorem every_run_ends_with_done
    (w : world) (photo_b64 : json) (question : string) :
  snd (Coordinator.run_pipeline w photo_b64 question) = Returned tt
  /\ exists between,
       puts (fst (Coordinator.run_pipeline w photo_b64 question))
       = status "Analyzing your image..." :: between ++ [done]
       /\ filter is_done between = [].
Proof.
  split; [apply run_pipeline_returns|].
  rewrite run_pipeline_events.
  pose proof (pipeline_shape w photo_b64 question) as Hshape.
  destruct (Coordinator.pipeline w photo_b64 question) as [l r].
  cbn [fst snd] in *.
  inversion Hshape as [e Ha Hev Hr | v e Ha Hs Hev Hr
                      | v script stage Ha Hs Hst Hev Hr].
  - eexists [_]. split; reflexivity.
  - eexists [_; _; _]. split; reflexivity.
  - exists ([meta (field v "subject") (field v "topic");
             status "Preparing your explainer..."; title (title_of script)]
            ++ stage).
    split; [rewrite app_nil_r, <- app_assoc; reflexivity|].
    rewrite filter_app. cbn [filter is_done app].
    apply stage_events_are_not_done. exact Hst.
Qed.

Lemma image_events_are_not_errors (l : list event) :
  Forall image_event l -> filter is_error l = [].
Proof.
  induction 1 as [|e l He _ IH]; [reflexivity|].
  destruct e; simpl in *; try contradiction. exact IH.
Qed.

(** X15: a run of [run_pipeline] carries at most one [error] event:
    that of the orchestrator when Analysis or Scripting raises, or else
    that of Narration, if any. *)
Theorem at_most_one_error_per_run
    (w : world) (photo_b64 : json) (question : string) :
  count is_error (puts (fst (Coordinator.run_pipeline w photo_b64 question))) <= 1.
Proof.
  destruct (snd (VisionAgent.analyze_photo w photo_b64 question))
    as [vision_result|e] eqn:Ha.
  2:{ rewrite (analysis_failure_run w photo_b64 question e Ha).
      unfold count. simpl. lia. }
  destruct (snd (ScriptAgent.generate_script w vision_result))
    as [script|e] eqn:Hs.
  2:{ rewrite (scripting_failure_run w photo_b64 question vision_result e Ha Hs).
      unfold count. simpl. lia. }
  rewrite run_pipeline_events.
  rewrite (pipeline_success_log w photo_b64 question vision_result script Ha Hs).
  cbn [fst snd puts]. rewrite app_nil_r.
  destruct (generate_script_returns_dict w vision_result script Hs)
    as (Hdict & sections & n & Hsections & Hlen).
  assert (Hret : Forall (fun t : M unit => snd t = Returned tt)
                   [VisualAgent.generate_all_images w script;
                    GeminiLive.narrate_script w script]).
  { repeat constructor.
    - eapply generate_all_images_returns; eassumption.
    - apply narrate_script_returns, Hdict. }
  pose proof (gather_perm (schedule_pipeline w) _ Hret) as Hperm.
  cbn [map concat] in Hperm. rewrite app_nil_r in Hperm.
  apply puts_perm in Hperm.
  pose proof (narration_reports_at_most_once w script Hdict) as Hone.
  unfold count in *.
  rewrite !puts_app.
  rewrite (emits_nothing _ (analyze_photo_emits w photo_b64 question)).
  rewrite (emits_nothing _ (generate_script_emits w vision_result)).
  cbn [puts app].
  match goal with
  | |- context [filter is_error (?a :: ?b :: ?c :: ?d :: ?l)] =>
      change (a :: b :: c :: d :: l) with ([a; b; c; d] ++ l)
  end.
  rewrite !filter_app, !length_app.
  rewrite (filter_length_perm is_error _ _ Hperm).
  rewrite puts_app, filter_app, length_app.
  rewrite (image_events_are_not_errors _ (generate_all_images_emits w script)).
  simpl. lia.
Qed.

(** X16: when the replies of both models are prose, Analysis degrades
    and Scripting falls back on the degraded record: the script returned
    has the title "Unknown" and one section, whose narration is the
    cleaned reply of the analysis model, and the run is the first
    [status], [meta] "General"/"Unknown", the second [status], [title]
    "Unknown", events of the stages, [done]. *)
Theorem both_replies_in_prose_still_give_a_script
    (w : world) (photo_b64 : json) (question : string) (image_bytes : bytes)
    (analysis_reply script_reply : string) :
  b64decode w photo_b64 = Returned image_bytes ->
  generate_content w (Some image_bytes) (VisionAgent.VISION_PROMPT question)
  = Returned (Some analysis_reply) ->
  json_loads w (strip_fences analysis_reply) = JSONDecodeError ->
  let vision_result :=
    VisionAgent.degraded (strip_fences analysis_reply) question in
  generate_content w None (script_prompt_of w vision_result)
  = Returned (Some script_reply) ->
  json_loads w (strip_fences script_reply) = JSONDecodeError ->
  snd (ScriptAgent.generate_script w vision_result)
  = Returned (fallback_script w vision_result)
  /\ title_of (fallback_script w vision_result) = JStr "Unknown"
  /\ narration_of (fallback_section w vision_result)
     = JStr (strip_fences analysis_reply)
  /\ exists stage,
       Forall stage_event stage
       /\ puts (fst (Coordinator.run_pipeline w photo_b64 question))
          = [ status "Analyzing your image...";
              meta (JStr "General") (JStr "Unknown");
              status "Preparing your explainer...";
              title (JStr "Unknown") ]
            ++ stage ++ [done].
Proof.
  intros Hdecode Hreply Hloads vision_result Hreply' Hloads'.
  pose proof (analyze_photo_degrades w photo_b64 question _ _ Hdecode Hreply Hloads)
    as Ha.
  assert (Hs : snd (ScriptAgent.generate_script w vision_result)
               = Returned (fallback_script w vision_result)).
  { rewrite (generate_script_run w vision_result script_reply I Hreply').
    rewrite Hloads'. reflexivity. }
  split; [exact Hs|]. split; [reflexivity|]. split; [reflexivity|].
  rewrite run_pipeline_events.
  pose proof (pipeline_shape w photo_b64 question) as Hshape.
  destruct (Coordinator.pipeline w photo_b64 question) as [l r].
  cbn [fst snd] in *.
  inversion Hshape as [e Ha' Hev Hr | v e Ha' Hs' Hev Hr
                      | v script stage Ha' Hs' Hst Hev Hr];
    rewrite Ha in Ha'; try discriminate; cbn [snd] in Ha';
    injection Ha' as <-; fold vision_result in Hs'; rewrite Hs in Hs';
    try discriminate.
  injection Hs' as <-. exists stage. split; [exact Hst|].
  rewrite app_nil_r. reflexivity.
Qed.

Lemma both_replies_in_prose_still_give_a_script_witness :
  let vision_result := VisionAgent.degraded (strip_fences "not json") "Why?" in
  snd (ScriptAgent.generate_script quiet_world vision_result)
  = Returned (fallback_script quiet_world vision_result)
  /\ title_of (fallback_script quiet_world vision_result) = JStr "Unknown"
  /\ narration_of (fallback_section quiet_world vision_result)
     = JStr (strip_fences "not json")
  /\ exists stage,
       Forall stage_event stage
       /\ puts (fst (Coordinator.run_pipeline quiet_world (JStr "AAAA") "Why?"))
          = [ status "Analyzing your image...";
              meta (JStr "General") (JStr "Unknown");
              status "Preparing your explainer...";
              title (JStr "Unknown") ]
            ++ stage ++ [done].
Proof.
  apply (both_replies_in_prose_still_give_a_script quiet_world (JStr "AAAA")
           "Why?" (byte_string "jpeg") "not json" "not json");
    reflexivity.
Defined.

(* ===================================================================== *)
(** ** The session controller: the photo message *)

Section Frames.

Import WebSocket.

Variable loads : string -> loaded.
Variable unwinding : task -> list event.

(** X17: a photo message never touches the pipeline task.  With falsy
    data it enqueues one [error] event and keeps the stored photo.  With
    truthy data it replaces the stored photo; it then enqueues the
    [status] "Photo received. Ask your question!", unless the data has no
    length (a number, [true]): then the handler raises the [TypeError] of
    [len], the data being stored already. *)
Theorem photo_message_stores_or_rejects
    (s : state) (raw : string) (msg data : json) :
  loads raw = Decoded msg ->
  get1 msg "type" = Returned (JStr "photo") ->
  get msg "data" (JStr EmptyString) = Returned data ->
  let '(ops, s', next) := receive_text loads unwinding s raw in
  pipeline_task s' = pipeline_task s
  /\ if truthy data then
       photo_b64 s' = data
       /\ match len data with
          | Returned _ =>
              next = Continue
              /\ ops = [QueuePut (Some (status "Photo received. Ask your question!"))]
              /\ send_queue s'
                 = send_queue s
                   ++ [Some (status "Photo received. Ask your question!")]
          | Raised e =>
              next = Raises e /\ ops = [] /\ send_queue s' = send_queue s
          end
     else
       next = Continue
       /\ photo_b64 s' = photo_b64 s
       /\ ops = [QueuePut (Some (error "Empty photo data."))]
       /\ send_queue s' = send_queue s ++ [Some (error "Empty photo data.")].
Proof.
  intros Hloads Htype Hdata.
  unfold receive_text. rewrite Hloads, Htype.
  cbn [eq_str String.eqb Ascii.eqb Bool.eqb].
  unfold on_photo. rewrite Hdata.
  destruct (truthy data); cbn [negb].
  - destruct (len data) as [n|e]; cbn [queue_put photo_b64 pipeline_task send_queue];
      repeat split.
  - cbn [queue_put photo_b64 pipeline_task send_queue]. repeat split.
Qed.

End Frames.

Lemma photo_message_stores_or_rejects_witness :
  let '(ops, s', next) :=
    WebSocket.receive_text (fun _ => Decoded (photo_message (JInt 7)))
      no_unwinding running_state "frame" in
  WebSocket.pipeline_task s' = WebSocket.pipeline_task running_state
  /\ if truthy (JInt 7) then
       WebSocket.photo_b64 s' = JInt 7
       /\ match len (JInt 7) with
          | Returned _ =>
              next = WebSocket.Continue
              /\ ops = [WebSocket.QueuePut
                          (Some (status "Photo received. Ask your question!"))]
              /\ WebSocket.send_queue s'
                 = WebSocket.send_queue running_state
                   ++ [Some (status "Photo received. Ask your question!")]
          | Raised e =>
              next = WebSocket.Raises e /\ ops = []
              /\ WebSocket.send_queue s' = WebSocket.send_queue running_state
          end
     else
       next = WebSocket.Continue
       /\ WebSocket.photo_b64 s' = WebSocket.photo_b64 running_state
       /\ ops = [WebSocket.QueuePut (Some (error "Empty photo data."))]
       /\ WebSocket.send_queue s'
          = WebSocket.send_queue running_state
            ++ [Some (error "Empty photo data.")].
Proof.
  apply (photo_message_stores_or_rejects
           (fun _ => Decoded (photo_message (JInt 7))) no_unwinding
           running_state "frame" (photo_message (JInt 7)) (JInt 7));
    reflexivity.
Defined.

(* ===================================================================== *)
(** ** The sender and the stop message *)

Section Sender.

Variable dumps : event -> string.
Variable send_text : string -> outcome unit.

Lemma sender_prefix (queue : list (option event)) :
  exists rest,
    map dumps (before_sentinel queue)
    = Endpoint.sender dumps send_text queue ++ rest.
Proof.
  induction queue as [|[msg|] queue [rest IH]]; try (exists []; reflexivity).
  cbn [before_sentinel map Endpoint.sender].
  destruct (send_text (dumps msg)).
  - exists rest. cbn [app]. rewrite IH. reflexivity.
  - eexists. reflexivity.
Qed.

Lemma sender_all (queue : list (option event)) :
  (forall frame, send_text frame = Returned tt) ->
  Endpoint.sender dumps send_text queue = map dumps (before_sentinel queue).
Proof.
  intros Hsend. induction queue as [|[msg|] queue IH]; try reflexivity.
  cbn [before_sentinel map Endpoint.sender]. rewrite Hsend, IH. reflexivity.
Qed.

(** X19: the frames the sender sends are, in the order of the queue, the
    first ones of the messages queued before the first sentinel, and all
    of them when no send fails: nothing queued after a sentinel is ever
    sent, and nothing is sent out of order or twice. *)
Theorem sender_forwards_in_order_up_to_the_sentinel
    (queue : list (option event)) :
  (exists rest,
     map dumps (before_sentinel queue)
     = Endpoint.sender dumps send_text queue ++ rest)
  /\ ((forall frame, send_text frame = Returned tt) ->
      Endpoint.sender dumps send_text queue
      = map dumps (before_sentinel queue)).
Proof. split; [apply sender_prefix | apply sender_all]. Qed.


End Sender.

Section Stop.

Import WebSocket.

Variable loads : string -> loaded.
Variable unwinding : task -> list event.


End Stop.


(* ===================================================================== *)
(** ** The whole session *)

Section Session.

Import WebSocket.

Variable loads : string -> loaded.
Variable unwinding : task -> list event.

Lemma cancel_pipeline_proper (s : state) :
  Forall proper_op (fst (cancel_pipeline unwinding s))
  /\ photo_b64 (snd (cancel_pipeline unwinding s)) = photo_b64 s.
Proof.
  unfold cancel_pipeline.
  destruct (pipeline_task s) as [t|]; [destruct (task_done t)|];
    cbn [negb fst snd photo_b64]; split;
    repeat (apply Forall_cons; [exact I|]); auto.
Qed.

Lemma reset_queue_proper (s : state) :
  Forall proper_op (fst (reset_queue s)).
Proof.
  unfold reset_queue. cbn [fst].
  induction (send_queue s) as [|x q IH]; cbn [map];
    [apply Forall_nil | apply Forall_cons; [exact I | exact IH]].
Qed.

Lemma receive_text_proper (s : state) (raw : string) :
  photo_kept s ->
  Forall proper_op (fst (fst (receive_text loads unwinding s raw)))
  /\ photo_kept (snd (fst (receive_text loads unwinding s raw))).
Proof.
  intros Hkept. unfold receive_text.
  destruct (loads raw) as [msg| |e];
    try (split; [apply Forall_nil | exact Hkept]).
  destruct (get1 msg "type") as [msg_type|e];
    [|split; [apply Forall_nil | exact Hkept]].
  destruct (eq_str msg_type "photo").
  { unfold on_photo.
    destruct (get msg "data" (JStr EmptyString)) as [data|e];
      [|split; [apply Forall_nil | exact Hkept]].
    destruct (truthy data) eqn:Hdata; cbn [negb].
    - destruct (len data) as [n|e]; cbn [queue_put fst snd]; split;
        try apply Forall_nil;
        try (apply Forall_cons; [exact I | apply Forall_nil]);
        right; exact Hdata.
    - cbn [queue_put fst snd]. split;
        [apply Forall_cons; [exact I | apply Forall_nil] | exact Hkept]. }
  destruct (eq_str msg_type "question").
  { unfold on_question.
    destruct (get msg "text" (JStr EmptyString)) as [[| | |txt| |]|e];
      try (split; [apply Forall_nil | exact Hkept]).
    destruct (String.eqb (strip txt) EmptyString) eqn:Hblank.
    { cbn [queue_put fst snd]. split;
        [apply Forall_cons; [exact I | apply Forall_nil] | exact Hkept]. }
    destruct (truthy (photo_b64 s)) eqn:Hphoto; cbn [negb].
    2:{ cbn [queue_put fst snd]. split;
          [apply Forall_cons; [exact I | apply Forall_nil] | exact Hkept]. }
    destruct (cancel_pipeline_proper s) as [Hops Hsame].
    destruct (cancel_pipeline unwinding s) as [ops1 s1].
    cbn [fst snd] in Hops, Hsame.
    pose proof (reset_queue_proper s1) as Hreset.
    unfold reset_queue in *. cbn [fst snd photo_b64] in *.
    rewrite Hsame. split; [|right; exact Hphoto].
    apply Forall_app. split; [exact Hops|].
    apply Forall_app. split; [exact Hreset|].
    apply Forall_cons; [|apply Forall_nil].
    cbn [proper_op job_photo job_question task_done].
    repeat split; try assumption.
    - intros Hempty. rewrite Hempty in Hblank. discriminate.
    - apply strip_idempotent. }
  destruct (eq_str msg_type "stop").
  { unfold on_stop.
    destruct (cancel_pipeline_proper s) as [Hops Hsame].
    destruct (cancel_pipeline unwinding s) as [ops1 s1].
    cbn [fst snd queue_put photo_b64] in *.
    split.
    - apply Forall_app. split; [exact Hops|].
      repeat (apply Forall_cons; [exact I|]). apply Forall_nil.
    - unfold photo_kept in *. cbn [photo_b64]. rewrite Hsame. exact Hkept. }
  split; [apply Forall_nil | exact Hkept].
Qed.

Lemma elapse_kept (m : Endpoint.meanwhile) (s : state) :
  photo_kept s -> photo_kept (Endpoint.elapse m s).
Proof. intros H. exact H. Qed.

Lemma serve_proper (frames : list (Endpoint.meanwhile * string)) (s : state) :
  photo_kept s ->
  Forall proper_op (fst (fst (Endpoint.serve loads unwinding s frames)))
  /\ photo_kept (snd (fst (Endpoint.serve loads unwinding s frames))).
Proof.
  revert s. induction frames as [|[m raw] rest IH]; intros s Hkept.
  - split; [apply Forall_nil | exact Hkept].
  - cbn [Endpoint.serve].
    destruct (receive_text_proper (Endpoint.elapse m s) raw
                (elapse_kept m s Hkept)) as [Hops Hs'].
    destruct (receive_text loads unwinding (Endpoint.elapse m s) raw)
      as [[ops s'] [| |e]]; cbn [fst snd] in *;
      try (split; assumption).
    destruct (IH s' Hs') as [Hops' Hs''].
    destruct (Endpoint.serve loads unwinding s' rest) as [[ops' s''] e].
    cbn [fst snd] in *. split; [|exact Hs''].
    apply Forall_app. split; assumption.
Qed.

Lemma teardown_proper (s : state) :
  photo_kept s ->
  Forall proper_op (fst (Endpoint.teardown unwinding s))
  /\ photo_kept (snd (Endpoint.teardown unwinding s)).
Proof.
  intros Hkept. unfold Endpoint.teardown.
  destruct (cancel_pipeline_proper s) as [Hops Hsame].
  destruct (cancel_pipeline unwinding s) as [ops1 s1].
  cbn [fst snd queue_put photo_b64] in *. split.
  - apply Forall_app. split; [exact Hops|].
    apply Forall_cons; [exact I | apply Forall_nil].
  - unfold photo_kept in *. cbn [photo_b64]. rewrite Hsame. exact Hkept.
Qed.

(** X21: whatever frames the client sends and whatever happens between
    them, every pipeline task the endpoint creates is created running,
    for a truthy photo and for a question that is trimmed and not empty;
    and the stored photo is at the end either [None] still or truthy. *)
Theorem session_only_starts_proper_jobs
    (frames : list (Endpoint.meanwhile * string)) (last : Endpoint.meanwhile) :
  let '(ops, s, _, _) :=
    Endpoint.websocket_endpoint loads unwinding frames last in
  Forall proper_op ops /\ photo_kept s.
Proof.
  unfold Endpoint.websocket_endpoint.
  assert (Hinit : photo_kept initial) by (left; reflexivity).
  destruct (serve_proper frames initial Hinit) as [Hops Hs].
  destruct (Endpoint.serve loads unwinding initial frames) as [[ops s] e].
  cbn [fst snd] in *.
  destruct e as [| |e].
  - destruct (teardown_proper (Endpoint.elapse last s)
                (elapse_kept last s Hs)) as [Hops' Hs'].
    destruct (Endpoint.teardown unwinding (Endpoint.elapse last s)) as [ops' s'].
    split; [apply Forall_app; split; assumption | assumption].
  - destruct (teardown_proper s Hs) as [Hops' Hs'].
    destruct (Endpoint.teardown unwinding s) as [ops' s'].
    split; [apply Forall_app; split; assumption | assumption].
  - destruct (teardown_proper (Endpoint.elapse last s)
                (elapse_kept last s Hs)) as [Hops' Hs'].
    destruct (Endpoint.teardown unwinding (Endpoint.elapse last s)) as [ops' s'].
    split; [apply Forall_app; split; assumption | assumption].
Qed.

Lemma teardown_ends (s : state) :
  active_job (snd (Endpoint.teardown unwinding s)) = None
  /\ exists ops queue,
       fst (Endpoint.teardown unwinding s) = ops ++ [QueuePut None]
       /\ send_queue (snd (Endpoint.teardown unwinding s))
          = send_queue s ++ queue ++ [None]
       /\ (active_job s = None -> ops = [] /\ queue = []).
Proof.
  unfold Endpoint.teardown, cancel_pipeline, active_job.
  destruct s as [photo [[job_p job_q [|]]|] queue];
    cbn [negb queue_put photo_b64 send_queue pipeline_task task_done fst snd
         job_photo job_question];
    (split; [reflexivity|]).
  - exists [], []. repeat split; reflexivity.
  - eexists [_; _], _. rewrite <- app_assoc.
    split; [reflexivity|]. split; [reflexivity|]. discriminate.
  - exists [], []. repeat split; reflexivity.
Qed.

Lemma serve_stopped (frames : list (Endpoint.meanwhile * string)) (s : state) :
  snd (Endpoint.serve loads unwinding s frames) = Endpoint.Stopped ->
  active_job (snd (fst (Endpoint.serve loads unwinding s frames))) = None
  /\ exists queue,
       send_queue (snd (fst (Endpoint.serve loads unwinding s frames)))
       = queue ++ [Some done; None].
Proof.
  revert s. induction frames as [|[m raw] rest IH]; intros s;
    cbn [Endpoint.serve]; [discriminate|].
  remember (Endpoint.elapse m s) as s0 eqn:Hs0. clear Hs0.
  unfold receive_text.
  destruct (loads raw) as [msg| |e]; [| |discriminate].
  2:{ specialize (IH s0).
      destruct (Endpoint.serve loads unwinding s0 rest) as [[ops' s''] e].
      exact IH. }
  destruct (get1 msg "type") as [msg_type|e]; [|discriminate].
  destruct (eq_str msg_type "photo").
  { unfold on_photo.
    destruct (get msg "data" (JStr EmptyString)) as [data|e]; [|discriminate].
    destruct (truthy data); cbn [negb].
    - destruct (len data) as [n|e]; [|discriminate].
      cbn [queue_put].
      match goal with
      | |- context [Endpoint.serve loads unwinding ?s1 rest] =>
          specialize (IH s1);
          destruct (Endpoint.serve loads unwinding s1 rest) as [[ops' s''] e]
      end.
      exact IH.
    - cbn [queue_put].
      match goal with
      | |- context [Endpoint.serve loads unwinding ?s1 rest] =>
          specialize (IH s1);
          destruct (Endpoint.serve loads unwinding s1 rest) as [[ops' s''] e]
      end.
      exact IH. }
  destruct (eq_str msg_type "question").
  { unfold on_question.
    destruct (get msg "text" (JStr EmptyString)) as [[| | |txt| |]|e];
      try discriminate.
    destruct (String.eqb (strip txt) EmptyString);
      [|destruct (negb (truthy (photo_b64 s0)));
        [|destruct (cancel_pipeline unwinding s0) as [ops1 s1]]];
      cbn [queue_put reset_queue];
      match goal with
      | |- context [Endpoint.serve loads unwinding ?s1 rest] =>
          specialize (IH s1);
          destruct (Endpoint.serve loads unwinding s1 rest) as [[ops' s''] e]
      end;
      exact IH. }
  destruct (eq_str msg_type "stop").
  { intros _. unfold on_stop, cancel_pipeline, active_job.
    destruct s0 as [photo [[job_p job_q [|]]|] queue];
      cbn [negb queue_put photo_b64 send_queue pipeline_task task_done fst snd];
      (split; [reflexivity|]);
      eexists; rewrite <- (app_assoc _ [Some done] [None]); reflexivity. }
  specialize (IH s0).
  destruct (Endpoint.serve loads unwinding s0 rest) as [[ops' s''] e].
  exact IH.
Qed.

(** X22: however the loop ends, the endpoint leaves no job running and
    its last operation enqueues the sentinel that ends the sender, so
    the queue ends with the sentinel.  The endpoint tries to send an
    [error] to the client directly exactly when the loop failed, and
    that event carries the text of the exception.  After a stop message
    the queue ends with [done] and two sentinels: the teardown found no
    job to cancel. *)
Theorem session_ends_with_no_job_and_a_sentinel
    (frames : list (Endpoint.meanwhile * string)) (last : Endpoint.meanwhile) :
  let '(ops, s, e, direct) :=
    Endpoint.websocket_endpoint loads unwinding frames last in
  active_job s = None
  /\ (exists ops', ops = ops' ++ [QueuePut None])
  /\ (exists queue, send_queue s = queue ++ [None])
  /\ direct = match e with
              | Endpoint.Failed exc => Some (error (exn_str exc))
              | _ => None
              end
  /\ (e = Endpoint.Stopped ->
      exists queue, send_queue s = queue ++ [Some done; None; None]).
Proof.
  unfold Endpoint.websocket_endpoint.
  pose proof (serve_stopped frames initial) as Hstopped.
  destruct (Endpoint.serve loads unwinding initial frames) as [[ops s] e].
  cbn [fst snd] in Hstopped.
  destruct e as [| |e].
  - destruct (teardown_ends (Endpoint.elapse last s))
      as [Hjob [ops1 [queue [Hops [Hqueue _]]]]].
    destruct (Endpoint.teardown unwinding (Endpoint.elapse last s)) as [ops' s'].
    cbn [fst snd] in *. subst ops'.
    split; [exact Hjob|].
    split; [exists (ops ++ ops1); apply app_assoc|].
    split; [eexists; rewrite Hqueue, app_assoc; reflexivity|].
    split; [reflexivity | discriminate].
  - destruct (Hstopped eq_refl) as [Hidle [queue0 Hqueue0]].
    destruct (teardown_ends s) as [Hjob [ops1 [queue [Hops [Hqueue Hnone]]]]].
    destruct (Endpoint.teardown unwinding s) as [ops' s'].
    cbn [fst snd] in *. subst ops'.
    destruct (Hnone Hidle) as [-> ->].
    split; [exact Hjob|].
    split; [exists (ops ++ []); apply app_assoc|].
    split; [eexists; rewrite Hqueue, app_assoc; reflexivity|].
    split; [reflexivity|].
    intros _. exists queue0. rewrite Hqueue, Hqueue0.
    rewrite <- app_assoc. reflexivity.
  - destruct (teardown_ends (Endpoint.elapse last s))
      as [Hjob [ops1 [queue [Hops [Hqueue _]]]]].
    destruct (Endpoint.teardown unwinding (Endpoint.elapse last s)) as [ops' s'].
    cbn [fst snd] in *. subst ops'.
    split; [exact Hjob|].
    split; [exists (ops ++ ops1); apply app_assoc|].
    split; [eexists; rewrite Hqueue, app_assoc; reflexivity|].
    split; [reflexivity | discriminate].
Qed.

End Session.

(** A session: a question before any photo, a photo, a frame that is
    not JSON, a question, and a stop while the job is running. *)
Example session_of_five_frames :
  let job := WebSocket.Task (JStr "AAAA") "Why?" false in
  Endpoint.websocket_endpoint loads_frames no_unwinding
    [ (nothing_new [], "question"%string);
      (nothing_new [Some (error "Please capture a photo first.")],
       "photo"%string);
      (nothing_new [], "noise"%string);
      (nothing_new [], "question"%string);
      (nothing_new [Some (status "Analyzing your image...")], "stop"%string) ]
    (nothing_new [])
  = ([ WebSocket.QueuePut (Some (error "Please capture a photo first."));
       WebSocket.QueuePut (Some (status "Photo received. Ask your question!"));
       WebSocket.CreateTask job;
       WebSocket.TaskCancel job;
       WebSocket.TaskAwait job;
       WebSocket.QueuePut (Some done);
       WebSocket.QueuePut None;
       WebSocket.QueuePut None ],
     WebSocket.State (JStr "AAAA")
       (Some (WebSocket.Task (JStr "AAAA") "Why?" true))
       [Some (status "Analyzing your image..."); Some done; None; None],
     Endpoint.Stopped, None).
Proof. reflexivity. Qed.

(** A frame of 1200 opening brackets: [json.loads] raises
    [RecursionError], which ends the loop; the error is sent directly
    and the running job is cancelled. *)
Example session_ended_by_a_deep_frame :
  let job := WebSocket.Task (JStr "AAAA") "Why?" false in
  Endpoint.websocket_endpoint loads_frames no_unwinding
    [ (nothing_new [], "photo"%string);
      (nothing_new [Some (status "Photo received. Ask your question!")],
       "question"%string);
      (nothing_new [], brackets 1200) ]
    (nothing_new [])
  = ([ WebSocket.QueuePut (Some (status "Photo received. Ask your question!"));
       WebSocket.QueueGetNowait (Some (status "Photo received. Ask your question!"));
       WebSocket.CreateTask job;
       WebSocket.TaskCancel job;
       WebSocket.TaskAwait job;
       WebSocket.QueuePut None ],
     WebSocket.State (JStr "AAAA")
       (Some (WebSocket.Task (JStr "AAAA") "Why?" true))
       [None],
     Endpoint.Failed RecursionError,
     Some (error (exn_str RecursionError))).
Proof. vm_compute. reflexivity. Qed.
